(** * Contact book: validators, records, address book and birthday scheduler

    A shallow embedding of [main.py] (the [Field] hierarchy, [Record],
    [AddressBook], [get_upcoming_birthdays], [adjust_for_weekend],
    [find_next_weekday], [date_to_string]) together with the parts of
    the Python runtime the program calls: [str.isdigit], [len],
    [datetime.strptime] with the format ["%d.%m.%Y"], and the [date]
    arithmetic of the [datetime] module.

    Conventions.
    - A Python [str] is a list of Unicode code points ([pystr]).
    - Code that may raise returns a [result]; [Raise e] is an uncaught
      exception [e].
    - [date.today()] is an input of the scheduler (argument [today]). *)

From Stdlib Require Import ZArith NArith Lia.
From stdpp Require Import base list strings.

(** ** Python values: strings, exceptions, results *)

Module Py.

(** A [str]: the sequence of its code points. *)
Definition pystr := list N.

(** The [str] made of the characters of an ASCII literal. *)
Definition lit (s : string) : pystr :=
  map Ascii.N_of_ascii (String.list_ascii_of_string s).

(** The exception classes the program raises or catches. *)
Inductive exc_class := ValueError | KeyError | IndexError | OverflowError.

(** An exception object: its class and [str(e)]. *)
Record exception := Exc { exc_type : exc_class; exc_str : string }.

Inductive result (A : Type) :=
| Ok (a : A)
| Raise (e : exception).
Arguments Ok {A} a.
Arguments Raise {A} e.

Definition bind {A B} (m : result A) (k : A -> result B) : result B :=
  match m with
  | Ok a => k a
  | Raise e => Raise e
  end.

(** [try: m except ValueError: h] *)
Definition except_ValueError {A} (m : result A) (h : result A) : result A :=
  match m with
  | Raise (Exc ValueError _) => h
  | other => other
  end.

(** A [for] loop whose body may raise, threading the loop state. *)
Fixpoint for_each {A S} (body : S -> A -> result S) (l : list A) (acc : S)
  : result S :=
  match l with
  | [] => Ok acc
  | x :: rest => bind (body acc x) (for_each body rest)
  end.

End Py.
Import Py.

Notation "x <~ m ;; k" := (Py.bind m (fun x => k))
  (at level 100, m at next level, right associativity).

(** ** Methods: code that mutates [self] and may raise *)

Module Method.

(** A method body run on the object state [S]: the state it leaves
    behind, and either its return value or the exception that ended
    it. The state is returned in both cases, so whatever was mutated
    before a [raise] stays mutated. *)
Definition method (S A : Type) := S -> S * result A.

Definition ret {S A} (a : A) : method S A := fun s => (s, Ok a).

Definition bind {S A B} (m : method S A) (k : A -> method S B)
  : method S B :=
  fun s =>
    match m s with
    | (s', Ok a) => k a s'
    | (s', Raise e) => (s', Raise e)
    end.

Definition raise {S A} (e : exception) : method S A :=
  fun s => (s, Raise e).

(** Reading [self]. *)
Definition get {S} : method S S := fun s => (s, Ok s).

(** Assigning to the attributes of [self]. *)
Definition put {S} (s' : S) : method S unit := fun _ => (s', Ok tt).

(** Evaluating an expression that may raise but mutates nothing. *)
Definition eval {S A} (r : result A) : method S A := fun s => (s, r).

End Method.

Notation "x <- m ;; k" := (Method.bind m (fun x => k))
  (at level 100, m at next level, right associativity).

(** ** Unicode character classes used by [str.isdigit], regex [\d], [int] *)

Module Unicode.
Local Open Scope N_scope.

(** Code point of DIGIT ZERO of every block of ten decimal digits
    (general category Nd, Unicode 14.0 as shipped with CPython 3.11).
    Each block holds the digits 0..9 in order. *)
Definition decimal_zeros : list N :=
  [ 0x30; 0x660; 0x6f0; 0x7c0; 0x966; 0x9e6; 0xa66; 0xae6; 0xb66; 0xbe6;
    0xc66; 0xce6; 0xd66; 0xde6; 0xe50; 0xed0; 0xf20; 0x1040; 0x1090;
    0x17e0; 0x1810; 0x1946; 0x19d0; 0x1a80; 0x1a90; 0x1b50; 0x1bb0;
    0x1c40; 0x1c50; 0xa620; 0xa8d0; 0xa900; 0xa9d0; 0xa9f0; 0xaa50;
    0xabf0; 0xff10; 0x104a0; 0x10d30; 0x11066; 0x110f0; 0x11136;
    0x111d0; 0x112f0; 0x11450; 0x114d0; 0x11650; 0x116c0; 0x11730;
    0x118e0; 0x11950; 0x11c50; 0x11d50; 0x11da0; 0x16a60; 0x16ac0;
    0x16b50; 0x1d7ce; 0x1d7d8; 0x1d7e2; 0x1d7ec; 0x1d7f6; 0x1e140;
    0x1e2f0; 0x1e950; 0x1fbf0 ].

(** Characters with Numeric_Type=Digit that are not decimal
    (superscripts, subscripts, circled digits, ...), as inclusive
    ranges. *)
Definition other_digit_ranges : list (N * N) :=
  [ (0xb2, 0xb3); (0xb9, 0xb9); (0x1369, 0x1371); (0x19da, 0x19da);
    (0x2070, 0x2070); (0x2074, 0x2079); (0x2080, 0x2089);
    (0x2460, 0x2468); (0x2474, 0x247c); (0x2488, 0x2490);
    (0x24ea, 0x24ea); (0x24f5, 0x24fd); (0x24ff, 0x24ff);
    (0x2776, 0x277e); (0x2780, 0x2788); (0x278a, 0x2792);
    (0x10a40, 0x10a43); (0x10e60, 0x10e68); (0x11052, 0x1105a);
    (0x1f100, 0x1f10a) ].

Fixpoint decimal_in (zeros : list N) (c : N) : option N :=
  match zeros with
  | [] => None
  | z :: zs =>
      if (z <=? c) && (c <? z + 10) then Some (c - z) else decimal_in zs c
  end.

(** The decimal value of a character, when it is a decimal digit. *)
Definition decimal_value (c : N) : option N := decimal_in decimal_zeros c.

(** [c.isdecimal()], also the regex class [\d] on [str] patterns. *)
Definition isdecimal (c : N) : bool :=
  match decimal_value c with Some _ => true | None => false end.

(** [c.isdigit()] for a single character. *)
Definition isdigit_char (c : N) : bool :=
  isdecimal c
  || existsb (fun r => (fst r <=? c) && (c <=? snd r)) other_digit_ranges.

(** [s.isdigit()]: every character is a digit and there is at least
    one character. *)
Definition isdigit (s : pystr) : bool :=
  match s with
  | [] => false
  | _ => forallb isdigit_char s
  end.

(** The ten characters ['0'..'9']. *)
Definition ascii_digit (c : N) : bool := (0x30 <=? c) && (c <=? 0x39).

End Unicode.

(** ** The regular expressions behind [datetime.strptime] *)

Module Re.
Local Open Scope N_scope.

(** The fragment of [re] syntax that [_strptime.TimeRE] uses for the
    directives [%d], [%m], [%Y] and for literal text. *)
Inductive re :=
| Chr (c : N)            (* a literal character *)
| Rng (lo hi : N)        (* [lo-hi] *)
| Dec                    (* \d : any Unicode decimal digit *)
| Seq (r1 r2 : re)       (* r1 r2 *)
| Alt (r1 r2 : re).      (* r1|r2, r1 tried first *)

Definition step (p : N -> bool) (s : pystr) : list pystr :=
  match s with
  | c :: s' => if p c then [s'] else []
  | [] => []
  end.

(** Backtracking matcher anchored at the start of [s] (as [re.match]):
    the suffixes left over by every way of matching a prefix of [s],
    in the order in which the engine tries them. *)
Fixpoint run (r : re) (s : pystr) : list pystr :=
  match r with
  | Chr c => step (N.eqb c) s
  | Rng lo hi => step (fun x => (lo <=? x) && (x <=? hi)) s
  | Dec => step Unicode.isdecimal s
  | Seq r1 r2 => s1 ← run r1 s; run r2 s1
  | Alt r1 r2 => run r1 s ++ run r2 s
  end.

(** The text consumed between [s] and its suffix [rest]. *)
Definition consumed (s rest : pystr) : pystr :=
  take (length s - length rest)%nat s.

Definition c0 : N := 0x30.
Definition c1 : N := 0x31.
Definition c2 : N := 0x32.
Definition c3 : N := 0x33.
Definition c9 : N := 0x39.
Definition space : N := 0x20.
Definition dot : N := 0x2e.

(** ['d': r"(?P<d>3[0-1]|[1-2]\d|0[1-9]|[1-9]| [1-9])"] *)
Definition re_d : re :=
  Alt (Seq (Chr c3) (Rng c0 c1))
 (Alt (Seq (Rng c1 c2) Dec)
 (Alt (Seq (Chr c0) (Rng c1 c9))
 (Alt (Rng c1 c9)
      (Seq (Chr space) (Rng c1 c9))))).

(** ['m': r"(?P<m>1[0-2]|0[1-9]|[1-9])"] *)
Definition re_m : re :=
  Alt (Seq (Chr c1) (Rng c0 c2))
 (Alt (Seq (Chr c0) (Rng c1 c9))
      (Rng c1 c9)).

(** ['Y': r"(?P<Y>\d\d\d\d)"] *)
Definition re_Y : re := Seq Dec (Seq Dec (Seq Dec Dec)).

(** The pattern compiled from the format ["%d.%m.%Y"] is
    [(?P<d>..)\.(?P<m>..)\.(?P<Y>..)]. [matches_dmY s] lists, in the
    order the engine finds them, the groups [d], [m], [Y] of every
    match with the unmatched remainder of the input; [re.match]
    returns the first one. *)
Definition matches_dmY (s : pystr) : list (pystr * pystr * pystr * pystr) :=
  r1 ← run re_d s;
  r2 ← run (Chr dot) r1;
  r3 ← run re_m r2;
  r4 ← run (Chr dot) r3;
  r5 ← run re_Y r4;
  [(consumed s r1, consumed r2 r3, consumed r4 r5, r5)].

Definition match_dmY (s : pystr) : option (pystr * pystr * pystr * pystr) :=
  head (matches_dmY s).

(** [int(group)] for the text of a group: leading blanks are
    stripped, the rest is read as a decimal numeral. *)
Fixpoint int_digits (acc : Z) (s : pystr) : option Z :=
  match s with
  | [] => Some acc
  | c :: s' =>
      match Unicode.decimal_value c with
      | Some v => int_digits (10 * acc + Z.of_N v)%Z s'
      | None => None
      end
  end.

Fixpoint lstrip (s : pystr) : pystr :=
  match s with
  | c :: s' => if c =? space then lstrip s' else s
  | [] => []
  end.

Definition int (s : pystr) : option Z :=
  match lstrip s with
  | [] => None
  | t => int_digits 0 t
  end.

End Re.

(** ** The [date] type of the [datetime] module *)

Module Datetime.
Local Open Scope Z_scope.

Record date := Date { year : Z; month : Z; day : Z }.

Definition MINYEAR : Z := 1.
Definition MAXYEAR : Z := 9999.
Definition MAXORDINAL : Z := 3652059.

Definition DAYS_IN_MONTH : list Z :=
  [-1; 31; 28; 31; 30; 31; 30; 31; 31; 30; 31; 30; 31].
Definition DAYS_BEFORE_MONTH : list Z :=
  [-1; 0; 31; 59; 90; 120; 151; 181; 212; 243; 273; 304; 334].

Definition item (l : list Z) (i : Z) : Z := nth (Z.to_nat i) l 0.

Definition is_leap (y : Z) : bool :=
  (y mod 4 =? 0) && (negb (y mod 100 =? 0) || (y mod 400 =? 0)).

Definition days_before_year (y : Z) : Z :=
  let y := y - 1 in
  y * 365 + y / 4 - y / 100 + y / 400.

Definition days_in_month (y m : Z) : Z :=
  if (m =? 2) && is_leap y then 29 else item DAYS_IN_MONTH m.

Definition days_before_month (y m : Z) : Z :=
  item DAYS_BEFORE_MONTH m + (if (2 <? m) && is_leap y then 1 else 0).

Definition ymd2ord (y m d : Z) : Z :=
  days_before_year y + days_before_month y m + d.

Definition DI400Y : Z := days_before_year 401.
Definition DI100Y : Z := days_before_year 101.
Definition DI4Y : Z := days_before_year 5.

(** Month and day of the [n]-th day (from 0) of a year. *)
Definition ord2md (leapyear : bool) (n : Z) : Z * Z :=
  let month := Z.shiftr (n + 50) 5 in
  let preceding :=
    item DAYS_BEFORE_MONTH month
    + (if (2 <? month) && leapyear then 1 else 0) in
  if n <? preceding then
    let month := month - 1 in
    let preceding :=
      preceding
      - (item DAYS_IN_MONTH month
         + (if (month =? 2) && leapyear then 1 else 0)) in
    (month, n - preceding + 1)
  else (month, n - preceding + 1).

Definition ord2ymd (n : Z) : date :=
  let n := n - 1 in
  let n400 := n / DI400Y in
  let n := n mod DI400Y in
  let y := n400 * 400 + 1 in
  let n100 := n / DI100Y in
  let n := n mod DI100Y in
  let n4 := n / DI4Y in
  let n := n mod DI4Y in
  let n1 := n / 365 in
  let n := n mod 365 in
  let y := y + n100 * 100 + n4 * 4 + n1 in
  if (n1 =? 4) || (n100 =? 4) then Date (y - 1) 12 31
  else
    let leapyear := (n1 =? 3) && (negb (n4 =? 24) || (n100 =? 3)) in
    let md := ord2md leapyear n in
    Date y (fst md) (snd md).

(** The field checks of the [date] constructor. *)
Definition valid_date (d : date) : bool :=
  (MINYEAR <=? year d) && (year d <=? MAXYEAR)
  && (1 <=? month d) && (month d <=? 12)
  && (1 <=? day d) && (day d <=? days_in_month (year d) (month d)).

(** [date(y, m, d)]. The message of a year error names the year; the
    program only reaches it with the years 0 and 10000. *)
Definition date_new (y m d : Z) : result date :=
  if negb ((MINYEAR <=? y) && (y <=? MAXYEAR)) then
    Raise (Exc ValueError
             (if y =? 0 then "year 0 is out of range"
              else if y =? 10000 then "year 10000 is out of range"
              else "year is out of range"))
  else if negb ((1 <=? m) && (m <=? 12)) then
    Raise (Exc ValueError "month must be in 1..12")
  else if negb ((1 <=? d) && (d <=? days_in_month y m)) then
    Raise (Exc ValueError "day is out of range for month")
  else Ok (Date y m d).

(** [d.replace(year=y)] *)
Definition replace_year (d : date) (y : Z) : result date :=
  date_new y (month d) (day d).

(** [d.toordinal()] *)
Definition toordinal (d : date) : Z := ymd2ord (year d) (month d) (day d).

(** [d.weekday()]: Monday is 0, Sunday is 6. *)
Definition weekday (d : date) : Z := (toordinal d + 6) mod 7.

(** [d1 < d2] *)
Definition date_lt (d1 d2 : date) : bool :=
  (year d1 <? year d2)
  || ((year d1 =? year d2)
      && ((month d1 <? month d2)
          || ((month d1 =? month d2) && (day d1 <? day d2)))).

(** [(d1 - d2).days] *)
Definition days_between (d1 d2 : date) : Z := toordinal d1 - toordinal d2.

(** [d + timedelta(days=n)] *)
Definition add_days (d : date) (n : Z) : result date :=
  let o := toordinal d + n in
  if (0 <? o) && (o <=? MAXORDINAL) then Ok (ord2ymd o)
  else Raise (Exc OverflowError "date value out of range").

(** [datetime.strptime(s, "%d.%m.%Y").date()]. The messages that
    quote the text given to [strptime] are shortened to their fixed
    part: [Birthday] replaces them by its own, and the scheduler
    parses only texts that [Birthday] has accepted. *)
Definition strptime_dmY (s : pystr) : result date :=
  match Re.match_dmY s with
  | None =>
      Raise (Exc ValueError "time data does not match format '%d.%m.%Y'")
  | Some (gd, gm, gY, rest) =>
      match rest with
      | _ :: _ => Raise (Exc ValueError "unconverted data remains")
      | [] =>
          match Re.int gY, Re.int gm, Re.int gd with
          | Some y, Some m, Some d => date_new y m d
          | _, _, _ => Raise (Exc ValueError "invalid literal for int()")
          end
      end
  end.

(** A number below [10 ^ width] as [width] zero-padded ASCII digits. *)
Fixpoint zero_padded (width : nat) (n : Z) : pystr :=
  match width with
  | O => []
  | S w => zero_padded w (n / 10) ++ [Z.to_N (48 + n mod 10)]
  end.

(** [%Y] of [strftime] as CPython 3.11 prints it on Linux, where
    the C library does not pad: the decimal numeral of the year,
    which has fewer than four digits for a year below 1000. *)
Definition decimal_year (y : Z) : pystr :=
  if y <? 10 then zero_padded 1 y
  else if y <? 100 then zero_padded 2 y
  else if y <? 1000 then zero_padded 3 y
  else zero_padded 4 y.

(** [d.strftime("%d.%m.%Y")] *)
Definition strftime_dmY (d : date) : pystr :=
  zero_padded 2 (day d) ++ [Re.dot] ++ zero_padded 2 (month d)
  ++ [Re.dot] ++ decimal_year (year d).

End Datetime.
Import Datetime.

(** ** [main.py]: fields *)

(** [class Field]: an object holding [value]. [Name], [Phone] and
    [Birthday] add no attribute. *)
Record Field := mkField { value : pystr }.

Definition Name := Field.
Definition Phone := Field.
Definition Birthday := Field.

#[global] Instance Field_eq_dec : EqDecision Field.
Proof. solve_decision. Defined.

(** [Name(value)] *)
Definition Name_init (v : pystr) : Name := mkField v.

(** [Phone(value)] *)
Definition Phone_init (v : pystr) : result Phone :=
  if (length v =? 10)%nat && Unicode.isdigit v then Ok (mkField v)
  else Raise (Exc ValueError "Phone number must contain 10 digits.").

(** [Birthday(value)] *)
Definition Birthday_init (v : pystr) : result Birthday :=
  except_ValueError
    (_ <~ strptime_dmY v ;; Ok (mkField v))
    (Raise (Exc ValueError "Invalid date format. Use DD.MM.YYYY")).

(** ** [main.py]: [class Record] *)

Record Record_ := mkRecord {
  name : Name;
  phones : list Phone;
  birthday : option Birthday
}.

#[global] Instance Record_eq_dec : EqDecision Record_.
Proof. solve_decision. Defined.

Definition set_phones (self : Record_) (l : list Phone) : Record_ :=
  mkRecord (name self) l (birthday self).

Definition set_birthday (self : Record_) (b : option Birthday) : Record_ :=
  mkRecord (name self) (phones self) b.

(** [Record(name)] *)
Definition Record_init (nm : pystr) : Record_ :=
  mkRecord (Name_init nm) [] None.

(** [list.index(x)]. [Field] defines no [__eq__], so [==] on phones is
    identity. The phones of a record are distinct objects and the
    instance looked for is the first phone with its value, hence
    comparing values finds the same position. *)
Fixpoint list_index (x : Phone) (l : list Phone) : result nat :=
  match l with
  | [] => Raise (Exc ValueError "x is not in list")
  | y :: l' => if decide (y = x) then Ok O else i <~ list_index x l' ;; Ok (S i)
  end.

(** [list.remove(x)] *)
Fixpoint list_remove (x : Phone) (l : list Phone) : result (list Phone) :=
  match l with
  | [] => Raise (Exc ValueError "list.remove(x): x not in list")
  | y :: l' =>
      if decide (y = x) then Ok l' else r <~ list_remove x l' ;; Ok (y :: r)
  end.

Fixpoint find_phone_in (l : list Phone) (phone : pystr) : option Phone :=
  match l with
  | [] => None
  | p :: l' => if decide (value p = phone) then Some p else find_phone_in l' phone
  end.

Definition find_phone (self : Record_) (phone : pystr) : option Phone :=
  find_phone_in (phones self) phone.

Definition add_phone (phone : pystr) : Method.method Record_ unit :=
  p <- Method.eval (Phone_init phone) ;;
  self <- Method.get ;;
  Method.put (set_phones self (phones self ++ [p])).

Definition add_birthday (date : pystr) : Method.method Record_ unit :=
  b <- Method.eval (Birthday_init date) ;;
  self <- Method.get ;;
  Method.put (set_birthday self (Some b)).

Definition remove_phone (phone : pystr) : Method.method Record_ unit :=
  self <- Method.get ;;
  match find_phone self phone with
  | Some phone_instance =>
      l <- Method.eval (list_remove phone_instance (phones self)) ;;
      Method.put (set_phones self l)
  | None => Method.raise (Exc ValueError "Phone number not found")
  end.

Definition edit_phone (old_phone new_phone : pystr)
  : Method.method Record_ unit :=
  self <- Method.get ;;
  match find_phone self old_phone with
  | Some phone_instance =>
      index <- Method.eval (list_index phone_instance (phones self)) ;;
      p <- Method.eval (Phone_init new_phone) ;;
      Method.put (set_phones self (<[index := p]> (phones self)))
  | None => Method.raise (Exc ValueError "Old phone number not found")
  end.

(** ** [main.py]: the scheduler helpers *)

Definition date_to_string (d : date) : pystr := strftime_dmY d.

Definition find_next_weekday (start_date : date) (wd : Z) : result date :=
  let days_ahead := (wd - weekday start_date)%Z in
  let days_ahead :=
    if (days_ahead <=? 0)%Z then (days_ahead + 7)%Z else days_ahead in
  add_days start_date days_ahead.

Definition adjust_for_weekend (bd : date) : result date :=
  if (5 <=? weekday bd)%Z then find_next_weekday bd 0 else Ok bd.

(** ** [main.py]: [class AddressBook] *)

(** A [dict] with [str] keys: its items in insertion order, one per
    key. *)
Definition dict (V : Type) := list (pystr * V).

(** [d[k] = v]: an existing key keeps its place. *)
Fixpoint dict_setitem {V} (k : pystr) (v : V) (d : dict V) : dict V :=
  match d with
  | [] => [(k, v)]
  | (k', v') :: d' =>
      if decide (k' = k) then (k', v) :: d' else (k', v') :: dict_setitem k v d'
  end.

(** [d.get(k)] *)
Fixpoint dict_get {V} (k : pystr) (d : dict V) : option V :=
  match d with
  | [] => None
  | (k', v') :: d' => if decide (k' = k) then Some v' else dict_get k d'
  end.

(** [d.values()] *)
Definition dict_values {V} (d : dict V) : list V := d.*2.

(** [list(d)]: the keys. *)
Definition dict_keys {V} (d : dict V) : list pystr := d.*1.

Record AddressBook := mkBook { data : dict Record_ }.

(** [AddressBook()] *)
Definition AddressBook_init : AddressBook := mkBook [].

Definition add_record (record : Record_) : Method.method AddressBook unit :=
  self <- Method.get ;;
  Method.put (mkBook (dict_setitem (value (name record)) record (data self))).

Definition find (self : AddressBook) (nm : pystr) : option Record_ :=
  dict_get nm (data self).

(** An element of the list that [get_upcoming_birthdays] returns:
    [{"name": ..., "birthday": ...}]. *)
Record Entry := mkEntry { entry_name : pystr; entry_birthday : pystr }.

(** The body of the loop of [get_upcoming_birthdays]. *)
Definition upcoming_step (today : date) (days : Z)
    (upcoming_birthdays : list Entry) (record : Record_)
  : result (list Entry) :=
  match birthday record with
  | Some b =>
      parsed <~ strptime_dmY (value b) ;;
      birthday_this_year <~ replace_year parsed (year today) ;;
      birthday_this_year <~
        (if date_lt birthday_this_year today
         then replace_year birthday_this_year (year today + 1)
         else Ok birthday_this_year) ;;
      if ((0 <=? days_between birthday_this_year today)
          && (days_between birthday_this_year today <=? days))%Z
      then
        birthday_this_year <~ adjust_for_weekend birthday_this_year ;;
        let congratulation_date_str := date_to_string birthday_this_year in
        Ok (upcoming_birthdays
              ++ [mkEntry (value (name record)) congratulation_date_str])
      else Ok upcoming_birthdays
  | None => Ok upcoming_birthdays
  end.

(** [self.get_upcoming_birthdays(days)], with [date.today()] = [today]. *)
Definition get_upcoming_birthdays (self : AddressBook) (today : date)
    (days : Z) : result (list Entry) :=
  for_each (upcoming_step today days) (dict_values (data self)) [].

(** ** [main.py]: the error handler of the commands *)

(** [input_error(func)(...)] given the outcome of [func(...)]. *)
Definition input_error (outcome : result pystr) : result pystr :=
  match outcome with
  | Ok s => Ok s
  | Raise (Exc ValueError msg) => Ok (lit msg)
  | Raise (Exc KeyError _) => Ok (lit "Contact not found")
  | Raise (Exc IndexError _) => Ok (lit "Insufficient arguments provided")
  | Raise e => Raise e
  end.

(** ** The language of a regular expression *)

Module ReLang.
Import Re.
Local Open Scope N_scope.
Fixpoint lang (r : re) (w : pystr) : Prop :=
  match r with
  | Chr c => w = [c]
  | Rng lo hi => exists x, w = [x] /\ lo <= x <= hi
  | Dec => exists x, w = [x] /\ Unicode.isdecimal x = true
  | Seq r1 r2 => exists w1 w2, w = w1 ++ w2 /\ lang r1 w1 /\ lang r2 w2
  | Alt r1 r2 => lang r1 w \/ lang r2 w
  end.
End ReLang.

(** ** Reading the fields of a date text *)

Module DateText.
Import Re.
Local Open Scope N_scope.

Definition digit19 (c : N) : bool := (c1 <=? c) && (c <=? c9).

Definition day_of_text (D : pystr) : option Z :=
  match D with
  | [a] => if digit19 a then Some (Z.of_N (a - c0)) else None
  | [a; b] =>
      if (a =? c3) && (c0 <=? b) && (b <=? c1) then Some (30 + Z.of_N (b - c0))%Z
      else if (c1 <=? a) && (a <=? c2) then
        match Unicode.decimal_value b with
        | Some v => Some (10 * Z.of_N (a - c0) + Z.of_N v)%Z
        | None => None
        end
      else if ((a =? c0) || (a =? space)) && digit19 b then Some (Z.of_N (b - c0))
      else None
  | _ => None
  end.

Definition month_of_text (M : pystr) : option Z :=
  match M with
  | [a] => if digit19 a then Some (Z.of_N (a - c0)) else None
  | [a; b] =>
      if (a =? c1) && (c0 <=? b) && (b <=? c2) then Some (10 + Z.of_N (b - c0))%Z
      else if (a =? c0) && digit19 b then Some (Z.of_N (b - c0))
      else None
  | _ => None
  end.

Definition year_of_text (Y : pystr) : option Z :=
  match Y with
  | [a; b; c; d] =>
      match Unicode.decimal_value a, Unicode.decimal_value b,
            Unicode.decimal_value c, Unicode.decimal_value d with
      | Some va, Some vb, Some vc, Some vd =>
          Some (1000 * Z.of_N va + 100 * Z.of_N vb + 10 * Z.of_N vc + Z.of_N vd)%Z
      | _, _, _, _ => None
      end
  | _ => None
  end.
End DateText.

(** ** Checking the month table of [ord2md] *)

Module DateCheck.
Local Open Scope Z_scope.

Definition year_length (leap : bool) : Z := if leap then 366 else 365.

Definition md_ok (leap : bool) (n : Z) : bool :=
  let md := ord2md leap n in
  (1 <=? fst md) && (fst md <=? 12) && (1 <=? snd md)
  && (snd md <=? (if (fst md =? 2) && leap then 29 else item DAYS_IN_MONTH (fst md)))
  && (item DAYS_BEFORE_MONTH (fst md)
      + (if (2 <? fst md) && leap then 1 else 0) + snd md =? n + 1).

End DateCheck.

(** ** Positions in a list of phones *)

Module Found.
(** Position of the first phone of a list whose text is [phone]. *)
Definition first_at (l : list Phone) (phone : pystr) (i : nat) : Prop :=
  l !! i = Some (mkField phone)
  /\ forall j q, (j < i)%nat -> l !! j = Some q -> value q <> phone.
End Found.
Import Found.

(** ** The scheduler, record by record *)

Module Schedule.
Local Open Scope Z_scope.
(** The birthday's month and day projected onto today's year, or onto
    the next year when that day is strictly before today; [None]
    when [date.replace] rejects one of the projections it is asked
    for. *)
Definition projection (today bd : date) : option date :=
  let this_year := Date (year today) (month bd) (day bd) in
  if valid_date this_year then
    if date_lt this_year today then
      let next_year := Date (year today + 1) (month bd) (day bd) in
      if valid_date next_year then Some next_year else None
    else Some this_year
  else None.

(** The date a record's birthday text stands for. *)
Definition birthday_date (record : Record_) : option date :=
  match birthday record with
  | Some b =>
      match strptime_dmY (value b) with
      | Ok bd => Some bd
      | Raise _ => None
      end
  | None => None
  end.

(** The day shifted to the following Monday when it is a Saturday or
    a Sunday. *)
Definition congratulation_date (p : date) : date :=
  if 5 <=? weekday p then ord2ymd (toordinal p + (7 - weekday p)) else p.

(** A record without birthday, or one whose birthday text is a date
    that has a projection. *)
Definition schedulable (today : date) (record : Record_) : bool :=
  match birthday record with
  | None => true
  | Some _ =>
      match birthday_date record with
      | Some bd =>
          match projection today bd with Some _ => true | None => false end
      | None => false
      end
  end.

(** What a record contributes to the list of upcoming birthdays. *)
Definition upcoming_entry (today : date) (days : Z) (record : Record_)
  : option Entry :=
  match birthday_date record with
  | Some bd =>
      match projection today bd with
      | Some p =>
          if (0 <=? days_between p today) && (days_between p today <=? days)
          then Some (mkEntry (value (name record))
                             (date_to_string (congratulation_date p)))
          else None
      | None => None
      end
  | None => None
  end.

(** The invariant of a book filled through [add_record]: every
    record is stored under its own name, once. *)
Definition book_wf (self : AddressBook) : bool :=
  bool_decide (NoDup (dict_keys (data self)))
  && forallb (fun kr => bool_decide (fst kr = value (name (snd kr))))
       (data self).
End Schedule.
Import Schedule.

(** ** Zero-padded date texts *)

Module Padded.
(** A date written [DD.MM.YYYY], every field padded with zeros to
    its width. *)
Definition padded_dmY (dt : date) : pystr :=
  zero_padded 2 (day dt) ++ [Re.dot] ++ zero_padded 2 (month dt)
  ++ [Re.dot] ++ zero_padded 4 (year dt).

(** A text in zero-padded [DD.MM.YYYY] form that denotes a date. *)
Definition zero_padded_date_text (raw : pystr) : Prop :=
  exists dt, valid_date dt = true /\ raw = padded_dmY dt.
End Padded.
Import Padded.

(** ** Books and records used as examples *)

Module Demo.
Definition with_birthday (nm bday : string) : Record_ :=
  mkRecord (mkField (lit nm)) [] (Some (mkField (lit bday))).

(** A book holding one record. *)
Definition book_of (record : Record_) : AddressBook :=
  mkBook [(value (name record), record)].

Definition john : Record_ := with_birthday "John" "15.06.2024".
Definition ann : Record_ := with_birthday "Ann" "29.02.2024".

(** The book after [add_record] of John, then of Ann. *)
Definition john_and_ann : AddressBook :=
  fst (add_record ann (fst (add_record john AddressBook_init))).

(** Ten ARABIC-INDIC DIGIT ZERO characters. *)
Definition arabic_zeros : pystr := repeat 0x660%N 10.

Definition two_phones : Record_ :=
  mkRecord (mkField (lit "Bob"))
    [mkField (lit "0123456789"); mkField (lit "5555555555")] None.
End Demo.
Import Demo.

(** ** [main.py]: the texts of records and books *)

Module Render.
(** [sep.join(parts)] *)
Fixpoint str_join (sep : pystr) (parts : list pystr) : pystr :=
  match parts with
  | [] => []
  | [p] => p
  | p :: rest => p ++ sep ++ str_join sep rest
  end.

Definition newline : pystr := [10%N].

(** [Field.__str__] *)
Definition Field_str (self : Field) : pystr := value self.

(** [Record.__str__] *)
Definition Record_str (self : Record_) : pystr :=
  let phones_text := str_join (lit ", ") (map value (phones self)) in
  let birthday_text :=
    match birthday self with
    | Some b => value b
    | None => lit "No birthday"
    end in
  lit "Contact name: " ++ value (name self) ++ lit ", phones: "
  ++ phones_text ++ lit ", birthday: " ++ birthday_text.

(** [AddressBook.__str__] *)
Definition AddressBook_str (self : AddressBook) : pystr :=
  str_join newline (map Record_str (dict_values (data self))).
End Render.

(** ** [main.py]: the commands *)

Module Bot.
Import Render.

(** [name, phone, *_ = args] *)
Definition unpack_two_or_more (args : list pystr) : result (pystr * pystr) :=
  match args with
  | a :: b :: _ => Ok (a, b)
  | [_] =>
      Raise (Exc ValueError
               "not enough values to unpack (expected at least 2, got 1)")
  | [] =>
      Raise (Exc ValueError
               "not enough values to unpack (expected at least 2, got 0)")
  end.

(** [name, birthday = args] *)
Definition unpack_two (args : list pystr) : result (pystr * pystr) :=
  match args with
  | [a; b] => Ok (a, b)
  | [] =>
      Raise (Exc ValueError "not enough values to unpack (expected 2, got 0)")
  | [_] =>
      Raise (Exc ValueError "not enough values to unpack (expected 2, got 1)")
  | _ => Raise (Exc ValueError "too many values to unpack (expected 2)")
  end.

(** [args[0]] *)
Definition first_arg (args : list pystr) : result pystr :=
  match args with
  | a :: _ => Ok a
  | [] => Raise (Exc IndexError "list index out of range")
  end.

(** A method call on the record object that the book holds under
    [key]: the local variable and the dict share the object, so the
    book sees what the method did to it, also when the method
    raises. *)
Definition on_stored {A} (key : pystr) (record : Record_)
    (m : Method.method Record_ A) : Method.method AddressBook A :=
  fun book =>
    let (record', outcome) := m record in
    (mkBook (dict_setitem key record' (data book)), outcome).

(** The decorator [input_error] around a handler that works on the
    book. *)
Definition handled (func : Method.method AddressBook pystr)
  : Method.method AddressBook pystr :=
  fun book => let (book', outcome) := func book in (book', input_error outcome).

(** [add_contact(args, book)], undecorated. *)
Definition add_contact_body (args : list pystr)
  : Method.method AddressBook pystr :=
  np <- Method.eval (unpack_two_or_more args) ;;
  let nm := fst np in
  let phone := snd np in
  book <- Method.get ;;
  match find book nm with
  | Some record =>
      _ <- on_stored nm record (add_phone phone) ;;
      Method.ret (lit "Contact updated.")
  | None =>
      let record := Record_init nm in
      _ <- add_record record ;;
      _ <- on_stored nm record (add_phone phone) ;;
      Method.ret (lit "Contact added.")
  end.

Definition add_contact (args : list pystr) : Method.method AddressBook pystr :=
  handled (add_contact_body args).

(** [add_birthday(args, book)], undecorated. *)
Definition add_birthday_body (args : list pystr)
  : Method.method AddressBook pystr :=
  nb <- Method.eval (unpack_two args) ;;
  let nm := fst nb in
  let bday := snd nb in
  book <- Method.get ;;
  match find book nm with
  | None => Method.ret (lit "Contact not found.")
  | Some record =>
      _ <- on_stored nm record (add_birthday bday) ;;
      Method.ret (lit "Birthday added.")
  end.

Definition add_birthday (args : list pystr)
  : Method.method AddressBook pystr :=
  handled (add_birthday_body args).

(** [show_birthday(args, book)]; it changes nothing. *)
Definition show_birthday (args : list pystr) (book : AddressBook)
  : result pystr :=
  input_error
    (nm <~ first_arg args ;;
     match find book nm with
     | Some record =>
         match birthday record with
         | Some b => Ok (nm ++ lit "'s birthday is on " ++ value b)
         | None => Ok (lit "Birthday not found for this contact.")
         end
     | None => Ok (lit "Birthday not found for this contact.")
     end).

(** One line of the answer of [birthdays]. *)
Definition entry_line (entry : Entry) : pystr :=
  entry_name entry ++ lit ": " ++ entry_birthday entry.

(** [birthdays(book)], with [date.today()] = [today]. *)
Definition birthdays (book : AddressBook) (today : date) : result pystr :=
  input_error
    (upcoming_birthdays <~ get_upcoming_birthdays book today 7 ;;
     match str_join newline (map entry_line upcoming_birthdays) with
     | [] => Ok (lit "No upcoming birthdays.")
     | text => Ok text
     end).
End Bot.

(** ** [main.py]: the commands [change] and [phone] *)

Module Loose.
(** What [change_phone] and [give_phone] find in the [contacts] they
    are given: the records of the book, and the bare texts that
    [change_phone] puts there. *)
Inductive stored :=
| Stored_record (record : Record_)
| Stored_str (text : pystr).

(** The book as these two handlers see it. *)
Definition contacts_of (book : AddressBook) : dict stored :=
  map (fun kr => (fst kr, Stored_record (snd kr))) (data book).

(** [contacts[name]] on a [UserDict]. The [KeyError] carries the
    key, which [input_error] does not look at. *)
Definition getitem (contacts : dict stored) (nm : pystr) : result stored :=
  match dict_get nm contacts with
  | Some v => Ok v
  | None => Raise (Exc KeyError "")
  end.

(** What [input_error] returns around a function whose own result is
    a stored object: that object, or the text of the error. *)
Definition input_error_stored (outcome : result stored) : result stored :=
  match outcome with
  | Ok v => Ok v
  | Raise (Exc ValueError msg) => Ok (Stored_str (lit msg))
  | Raise (Exc KeyError _) => Ok (Stored_str (lit "Contact not found"))
  | Raise (Exc IndexError _) =>
      Ok (Stored_str (lit "Insufficient arguments provided"))
  | Raise e => Raise e
  end.

(** [change_phone(args, contacts)] *)
Definition change_phone (args : list pystr)
  : Method.method (dict stored) pystr :=
  fun contacts =>
    match Bot.unpack_two args with
    | Ok (nm, phone) =>
        (dict_setitem nm (Stored_str phone) contacts,
         Ok (lit "Phone number was updated"))
    | Raise e => (contacts, input_error (Raise e))
    end.

(** [give_phone(args, contacts)] *)
Definition give_phone (args : list pystr) (contacts : dict stored)
  : result stored :=
  input_error_stored (nm <~ Bot.first_arg args ;; getitem contacts nm).
End Loose.

(** ** What records and books keep true *)

Module Invariants.
Local Open Scope Z_scope.

(** The test of [Phone.__init__] on the text a phone holds. *)
Definition valid_phone (p : Phone) : bool :=
  (length (value p) =? 10)%nat && Unicode.isdigit (value p).

(** The text a birthday holds is one [strptime] parses. *)
Definition valid_birthday (b : Birthday) : bool :=
  match strptime_dmY (value b) with Ok _ => true | Raise _ => false end.

(** What the methods of [Record] keep true of a record. *)
Definition record_wf (r : Record_) : bool :=
  forallb valid_phone (phones r)
  && match birthday r with Some b => valid_birthday b | None => true end.

(** The book after [add_record] of each record of a list in turn. *)
Definition add_all (records : list Record_) (book : AddressBook)
  : AddressBook :=
  foldl (fun b r => fst (add_record r b)) book records.

(** A record without birthday, or whose birthday is a date other than
    29 February. *)
Definition no_leap_day (record : Record_) : bool :=
  match birthday record with
  | None => true
  | Some b =>
      match strptime_dmY (value b) with
      | Ok bd => negb ((month bd =? 2) && (day bd =? 29))
      | Raise _ => false
      end
  end.
End Invariants.

(** ** [main.py]: reading a command line *)

Module Parse.
Local Open Scope N_scope.

(** [Py_UNICODE_ISSPACE], the white space of [str.split()] and
    [str.strip()]: the characters of bidirectional type WS, B or S
    and those of category Zs. *)
Definition isspace_char (c : N) : bool :=
  ((0x09 <=? c) && (c <=? 0x0D))
  || ((0x1C <=? c) && (c <=? 0x20))
  || (c =? 0x85) || (c =? 0xA0) || (c =? 0x1680)
  || ((0x2000 <=? c) && (c <=? 0x200A))
  || (c =? 0x2028) || (c =? 0x2029) || (c =? 0x202F)
  || (c =? 0x205F) || (c =? 0x3000).

(** [s.split()]: the maximal runs of characters that are not white
    space, from left to right. [word] is the run being read, empty
    between two runs. *)
Fixpoint split_from (word : pystr) (s : pystr) : list pystr :=
  match s with
  | [] => match word with [] => [] | _ => [word] end
  | c :: s' =>
      if isspace_char c
      then match word with
           | [] => split_from [] s'
           | _ => word :: split_from [] s'
           end
      else split_from (word ++ [c]) s'
  end.

Definition str_split (s : pystr) : list pystr := split_from [] s.

(** [s.lstrip()], [s.rstrip()], [s.strip()] *)
Fixpoint str_lstrip (s : pystr) : pystr :=
  match s with
  | c :: s' => if isspace_char c then str_lstrip s' else s
  | [] => []
  end.

Definition str_rstrip (s : pystr) : pystr :=
  reverse (str_lstrip (reverse s)).

Definition str_strip (s : pystr) : pystr := str_rstrip (str_lstrip s).

(** A word as [split] gives them: not empty, without white space. *)
Definition word (t : pystr) : bool :=
  negb (bool_decide (t = []))
  && forallb (fun c => negb (isspace_char c)) t.

Section Lower.
(** [str.lower], of which nothing is assumed. *)
Variable lower : pystr -> pystr.

(** [parse_input(user_input)] *)
Definition parse_input (user_input : pystr)
  : result (pystr * list pystr) :=
  match str_split user_input with
  | cmd :: args => Ok (lower (str_strip cmd), args)
  | [] =>
      Raise (Exc ValueError
               "not enough values to unpack (expected at least 1, got 0)")
  end.
End Lower.
End Parse.

(** ** [main.py]: the commands on a book that holds bare texts *)

Module Mixed.
Import Render Loose.

(** What a command does on a book that may hold bare texts: what
    it does on a book of records, or the [AttributeError] of an
    attribute read on a [str], which [input_error] does not
    catch. *)
Inductive outcome (A : Type) :=
| Done (r : result A)
| AttributeError (msg : string).
Arguments Done {A} r.
Arguments AttributeError {A} msg.

(** [input_error] around a handler. *)
Definition handled (o : outcome pystr) : outcome pystr :=
  match o with
  | Done r => Done (input_error r)
  | AttributeError msg => AttributeError msg
  end.

(** [add_contact(args, book)] *)
Definition add_contact (args : list pystr) (book : dict stored)
  : dict stored * outcome pystr :=
  match Bot.unpack_two_or_more args with
  | Raise e => (book, handled (Done (Raise e)))
  | Ok (nm, phone) =>
      match dict_get nm book with
      | Some (Stored_str _) =>
          (book, AttributeError "'str' object has no attribute 'add_phone'")
      | Some (Stored_record record) =>
          let (record', added) := add_phone phone record in
          (dict_setitem nm (Stored_record record') book,
           handled (Done (_ <~ added ;; Ok (lit "Contact updated."))))
      | None =>
          let record := Record_init nm in
          let book := dict_setitem nm (Stored_record record) book in
          let (record', added) := add_phone phone record in
          (dict_setitem nm (Stored_record record') book,
           handled (Done (_ <~ added ;; Ok (lit "Contact added."))))
      end
  end.

(** [add_birthday(args, book)] *)
Definition add_birthday (args : list pystr) (book : dict stored)
  : dict stored * outcome pystr :=
  match Bot.unpack_two args with
  | Raise e => (book, handled (Done (Raise e)))
  | Ok (nm, bday) =>
      match dict_get nm book with
      | None => (book, Done (Ok (lit "Contact not found.")))
      | Some (Stored_str _) =>
          (book,
           AttributeError "'str' object has no attribute 'add_birthday'")
      | Some (Stored_record record) =>
          let (record', added) := add_birthday bday record in
          (dict_setitem nm (Stored_record record') book,
           handled (Done (_ <~ added ;; Ok (lit "Birthday added."))))
      end
  end.

(** [show_birthday(args, book)]: an empty text is false in
    [record and record.birthday], any other text is asked for its
    [birthday]. *)
Definition show_birthday (args : list pystr) (book : dict stored)
  : outcome pystr :=
  match Bot.first_arg args with
  | Raise e => handled (Done (Raise e))
  | Ok nm =>
      match dict_get nm book with
      | Some (Stored_record record) =>
          match birthday record with
          | Some b => Done (Ok (nm ++ lit "'s birthday is on " ++ value b))
          | None => Done (Ok (lit "Birthday not found for this contact."))
          end
      | Some (Stored_str []) =>
          Done (Ok (lit "Birthday not found for this contact."))
      | Some (Stored_str _) =>
          AttributeError "'str' object has no attribute 'birthday'"
      | None => Done (Ok (lit "Birthday not found for this contact."))
      end
  end.

(** The loop of [get_upcoming_birthdays] over the values of the
    book. *)
Fixpoint upcoming_loop (today : date) (days : Z) (values : list stored)
    (upcoming_birthdays : list Entry) : outcome (list Entry) :=
  match values with
  | [] => Done (Ok upcoming_birthdays)
  | Stored_str _ :: _ =>
      AttributeError "'str' object has no attribute 'birthday'"
  | Stored_record record :: rest =>
      match upcoming_step today days upcoming_birthdays record with
      | Ok upcoming_birthdays => upcoming_loop today days rest upcoming_birthdays
      | Raise e => Done (Raise e)
      end
  end.

(** [self.get_upcoming_birthdays(days)], with [date.today()] =
    [today]. *)
Definition get_upcoming_birthdays (book : dict stored) (today : date)
    (days : Z) : outcome (list Entry) :=
  upcoming_loop today days (dict_values book) [].

(** [birthdays(book)] *)
Definition birthdays (book : dict stored) (today : date) : outcome pystr :=
  match get_upcoming_birthdays book today 7 with
  | Done r =>
      handled
        (Done (upcoming_birthdays <~ r ;;
               match str_join newline
                       (map Bot.entry_line upcoming_birthdays) with
               | [] => Ok (lit "No upcoming birthdays.")
               | text => Ok text
               end))
  | AttributeError msg => AttributeError msg
  end.
End Mixed.

(** * Checks of the model on concrete values *)

Example strptime_examples :
  strptime_dmY (lit "15.06.2024") = Ok (Date 2024 6 15)
  /\ strptime_dmY (lit "1.1.2024") = Ok (Date 2024 1 1)
  /\ strptime_dmY (lit " 1.1.2024") = Ok (Date 2024 1 1)
  /\ strptime_dmY (lit "31.02.2024")
     = Raise (Exc ValueError "day is out of range for month")
  /\ strptime_dmY (lit "01.01.0000")
     = Raise (Exc ValueError "year 0 is out of range")
  /\ strptime_dmY (lit "01.01.2024 ")
     = Raise (Exc ValueError "unconverted data remains")
  /\ strptime_dmY (lit "2024.01.01")
     = Raise (Exc ValueError "time data does not match format '%d.%m.%Y'").
Proof. vm_compute. repeat split. Qed.

Example date_examples :
  toordinal (Date 9999 12 31) = MAXORDINAL
  /\ ord2ymd 3652059%Z = Date 9999 12 31
  /\ ord2ymd 738000%Z = Date 2021 7 29
  /\ toordinal (Date 2021 7 30) = 738001%Z
  /\ weekday (Date 2024 6 10) = 0%Z
  /\ weekday (Date 2024 6 15) = 5%Z
  /\ replace_year (Date 2024 2 29) 2025
     = Raise (Exc ValueError "day is out of range for month")
  /\ replace_year (Date 9999 1 1) 10000
     = Raise (Exc ValueError "year 10000 is out of range")
  /\ add_days (Date 9999 12 31) 1
     = Raise (Exc OverflowError "date value out of range")
  /\ strftime_dmY (Date 2024 6 17) = lit "17.06.2024"
  /\ strftime_dmY (Date 999 1 1) = lit "01.01.999"
  /\ strftime_dmY (Date 5 12 31) = lit "31.12.5".
Proof. vm_compute. repeat split. Qed.

(** * The calendar *)

Module DatetimeFacts.
Import DateCheck.
Local Open Scope Z_scope.

Lemma year_decomp n400 n100 n4 n1 :
  0 <= n400 -> 0 <= n100 <= 3 -> 0 <= n4 <= 24 -> 0 <= n1 <= 3 ->
  let y := 400 * n400 + 100 * n100 + 4 * n4 + n1 + 1 in
  days_before_year y = 146097 * n400 + 36524 * n100 + 1461 * n4 + 365 * n1
  /\ is_leap y = (n1 =? 3) && (negb (n4 =? 24) || (n100 =? 3)).
Proof.
  intros H400 H100 H4 H1 y. split.
  - unfold days_before_year. subst y.
    replace (400 * n400 + 100 * n100 + 4 * n4 + n1 + 1 - 1)
      with (400 * n400 + 100 * n100 + 4 * n4 + n1) by lia.
    Z.div_mod_to_equations; lia.
  - unfold is_leap. subst y.
    destruct (Z.eqb_spec n1 3), (Z.eqb_spec n4 24), (Z.eqb_spec n100 3);
      simpl; repeat match goal with |- context [?a =? ?b] => destruct (Z.eqb_spec a b) end;
      simpl; try reflexivity; exfalso; Z.div_mod_to_equations; lia.
Qed.

Lemma md_ok_all leap :
  forallb (fun k => md_ok leap (Z.of_nat k)) (seq 0 (Z.to_nat (year_length leap))) = true.
Proof. destruct leap; vm_compute; reflexivity. Qed.

Lemma ord2md_ok leap n : 0 <= n < year_length leap -> md_ok leap n = true.
Proof.
  intros Hn. pose proof (md_ok_all leap) as Hall.
  rewrite List.forallb_forall in Hall.
  specialize (Hall (Z.to_nat n)). rewrite Z2Nat.id in Hall by lia.
  apply Hall. apply in_seq. lia.
Qed.

Lemma toordinal_ord2ymd n :
  1 <= n <= MAXORDINAL -> toordinal (ord2ymd n) = n /\ valid_date (ord2ymd n) = true.
Proof.
  intros Hn. unfold ord2ymd.
  change DI400Y with 146097. change DI100Y with 36524. change DI4Y with 1461.
  unfold MAXORDINAL in Hn.
  set (n0 := n - 1).
  set (n400 := n0 / 146097). set (r := n0 mod 146097).
  set (n100 := r / 36524). set (r2 := r mod 36524).
  set (n4 := r2 / 1461). set (r3 := r2 mod 1461).
  set (n1 := r3 / 365). set (r4 := r3 mod 365).
  assert (E0 : n0 = 146097 * n400 + r /\ 0 <= r < 146097)
    by (subst n400 r; Z.div_mod_to_equations; lia).
  assert (E1 : r = 36524 * n100 + r2 /\ 0 <= r2 < 36524)
    by (subst n100 r2; Z.div_mod_to_equations; lia).
  assert (E2 : r2 = 1461 * n4 + r3 /\ 0 <= r3 < 1461)
    by (subst n4 r3; Z.div_mod_to_equations; lia).
  assert (E3 : r3 = 365 * n1 + r4 /\ 0 <= r4 < 365)
    by (subst n1 r4; Z.div_mod_to_equations; lia).
  assert (B400 : 0 <= n400 <= 24) by (subst n0; lia).
  assert (B100 : 0 <= n100 <= 4) by lia.
  assert (B4 : 0 <= n4 <= 24) by lia.
  assert (B1 : 0 <= n1 <= 4) by lia.
  clearbody n400 n100 n4 n1 r r2 r3 r4.
  destruct (Z.eqb_spec n1 4) as [H14|H14]; [|destruct (Z.eqb_spec n100 4) as [H1004|H1004]]; simpl orb; cbv iota.
  - (* last day of a leap year that ends a 4-year cycle *)
    assert (n100 <= 3 /\ n4 <= 23) as [? ?] by lia.
    destruct (year_decomp n400 n100 n4 3) as [Hd Hl]; try lia.
    replace (n400 * 400 + 1 + n100 * 100 + n4 * 4 + n1 - 1)
      with (400 * n400 + 100 * n100 + 4 * n4 + 3 + 1) by lia.
    unfold toordinal, ymd2ord, valid_date, days_before_month, days_in_month; simpl.
    rewrite Hd, Hl. change (item DAYS_BEFORE_MONTH 12) with 334.
    change (item DAYS_IN_MONTH 12) with 31.
    destruct (Z.eqb_spec n4 24); [lia|]. simpl.
    unfold MINYEAR, MAXYEAR. split; [unfold n0 in *; lia|].
    repeat (apply andb_true_intro; split); lia.
  - (* last day of a 400-year cycle *)
    assert (n4 = 0 /\ n1 = 0 /\ r4 = 0) as (-> & -> & ->) by lia.
    destruct (year_decomp n400 3 24 3) as [Hd Hl]; try lia.
    replace (n400 * 400 + 1 + n100 * 100 + 0 * 4 + 0 - 1)
      with (400 * n400 + 100 * 3 + 4 * 24 + 3 + 1) by lia.
    unfold toordinal, ymd2ord, valid_date, days_before_month, days_in_month; simpl.
    rewrite Hd, Hl. change (item DAYS_BEFORE_MONTH 12) with 334.
    change (item DAYS_IN_MONTH 12) with 31. simpl.
    unfold MINYEAR, MAXYEAR. split; [unfold n0 in *; lia|].
    repeat (apply andb_true_intro; split); lia.
  - destruct (year_decomp n400 n100 n4 n1) as [Hd Hl]; try lia.
    replace (n400 * 400 + 1 + n100 * 100 + n4 * 4 + n1)
      with (400 * n400 + 100 * n100 + 4 * n4 + n1 + 1) by lia.
    set (leap := (n1 =? 3) && (negb (n4 =? 24) || (n100 =? 3))) in *.
    pose proof (ord2md_ok leap r4) as Hmd.
    assert (Hr4 : 0 <= r4 < year_length leap) by (unfold year_length; destruct leap; lia).
    specialize (Hmd Hr4). unfold md_ok in Hmd.
    destruct (ord2md leap r4) as [m d]. simpl in Hmd.
    repeat (apply andb_prop in Hmd; destruct Hmd as [Hmd ?]).
    unfold toordinal, ymd2ord, valid_date, days_before_month, days_in_month; simpl.
    rewrite Hd, Hl. split; [unfold n0 in *; lia|].
    unfold MINYEAR, MAXYEAR.
    repeat (apply andb_true_intro; split); try lia.
Qed.

End DatetimeFacts.
Import DatetimeFacts.

(** * The matcher *)

Module ReFacts.
Import Re ReLang.
Local Open Scope N_scope.

Lemma step_spec p s rest :
  rest ∈ step p s <-> exists x, s = x :: rest /\ p x = true.
Proof.
  destruct s as [|c s']; simpl.
  - rewrite elem_of_nil. split; [tauto | intros (x & Hx & _); discriminate].
  - destruct (p c) eqn:Hp.
    + rewrite list_elem_of_singleton. split.
      * intros ->. eauto.
      * intros (x & [= -> ->] & _). reflexivity.
    + rewrite elem_of_nil. split; [tauto|].
      intros (x & [= -> ->] & Hx). congruence.
Qed.

Lemma run_spec r : forall s rest,
  rest ∈ run r s <-> exists w, s = w ++ rest /\ lang r w.
Proof.
  induction r as [c|lo hi| |r1 IH1 r2 IH2|r1 IH1 r2 IH2]; intros s rest; simpl.
  - rewrite step_spec. split.
    + intros (x & -> & Hx). apply N.eqb_eq in Hx. subst x. exists [c]. eauto.
    + intros (w & -> & ->). exists c. split; [reflexivity | apply N.eqb_refl].
  - rewrite step_spec. split.
    + intros (x & -> & Hx). apply andb_prop in Hx as [H1 H2].
      apply N.leb_le in H1, H2. exists [x]. split; [reflexivity|]. exists x. auto.
    + intros (w & -> & x & -> & H1 & H2). exists x. split; [reflexivity|].
      apply andb_true_intro. split; apply N.leb_le; assumption.
  - rewrite step_spec. split.
    + intros (x & -> & Hx). exists [x]. split; [reflexivity|]. exists x. auto.
    + intros (w & -> & x & -> & Hx). exists x. auto.
  - rewrite list_elem_of_bind. split.
    + intros (mid & Hrest & Hmid).
      apply IH1 in Hmid as (w1 & -> & Hw1). apply IH2 in Hrest as (w2 & -> & Hw2).
      exists (w1 ++ w2). rewrite <- (assoc_L (++)). split; [reflexivity|].
      exists w1, w2. auto.
    + intros (w & -> & w1 & w2 & -> & Hw1 & Hw2).
      exists (w2 ++ rest). split.
      * apply IH2. eauto.
      * apply IH1. exists w1. rewrite <- (assoc_L (++)). auto.
  - rewrite elem_of_app, IH1, IH2. split.
    + intros [(w & -> & Hw)|(w & -> & Hw)]; exists w; auto.
    + intros (w & -> & [Hw|Hw]); [left|right]; eauto.
Qed.

Lemma consumed_app w rest : consumed (w ++ rest) rest = w.
Proof.
  unfold consumed. rewrite length_app.
  replace (length w + length rest - length rest)%nat with (length w) by lia.
  apply take_app_length.
Qed.
End ReFacts.

Module TextFacts.
Import Re ReLang ReFacts DateText.
Local Open Scope N_scope.

Lemma decimal_value_ascii c :
  0x30 <= c <= 0x39 -> Unicode.decimal_value c = Some (c - 0x30).
Proof.
  intros H. unfold Unicode.decimal_value, Unicode.decimal_zeros.
  cbn [Unicode.decimal_in].
  destruct (N.leb_spec 0x30 c); [|lia].
  destruct (N.ltb_spec c (0x30 + 10)); [|lia]. reflexivity.
Qed.

Lemma decimal_value_bound c v : Unicode.decimal_value c = Some v -> v < 10.
Proof.
  unfold Unicode.decimal_value. generalize Unicode.decimal_zeros.
  intros zs. induction zs as [|z zs IH]; simpl; [discriminate|].
  destruct (N.leb_spec z c); simpl; [|exact IH].
  destruct (N.ltb_spec c (z + 10)); [|exact IH].
  intros [= <-]. lia.
Qed.

Lemma not_decimal_dot : Unicode.decimal_value dot = None.
Proof. vm_compute. reflexivity. Qed.
Lemma not_decimal_space : Unicode.decimal_value space = None.
Proof. vm_compute. reflexivity. Qed.

Lemma isdecimal_value c :
  Unicode.isdecimal c = true <-> exists v, Unicode.decimal_value c = Some v.
Proof.
  unfold Unicode.isdecimal.
  destruct (Unicode.decimal_value c); split; eauto; try discriminate.
  intros [v [=]].
Qed.

Ltac lang_inv :=
  repeat match goal with
    | H : lang _ _ |- _ => simpl in H
    | H : _ \/ _ |- _ => destruct H
    | H : exists _, _ |- _ => destruct H
    | H : _ /\ _ |- _ => destruct H
    | H : Unicode.isdecimal _ = true |- _ => apply isdecimal_value in H
    end; subst.

Ltac consts := cbv [digit19 c0 c1 c2 c3 c9 space dot] in *.

Ltac tests :=
  repeat match goal with
    | |- context [N.eqb ?a ?b] => destruct (N.eqb_spec a b); try lia
    | |- context [N.leb ?a ?b] => destruct (N.leb_spec a b); try lia
    | |- context [N.ltb ?a ?b] => destruct (N.ltb_spec a b); try lia
    end.

Ltac ascii_values :=
  repeat match goal with
    | |- context [Unicode.decimal_value ?c] =>
        rewrite (decimal_value_ascii c) by lia
    | H : Unicode.decimal_value ?c = Some _ |- context [Unicode.decimal_value ?c] =>
        rewrite H
    end.

Ltac no_dot :=
  let Hin := fresh in
  intros Hin;
  repeat (apply elem_of_cons in Hin as [Hin|Hin];
          [first [lia | subst;
                   match goal with
                   | H : Unicode.decimal_value 46 = Some _ |- _ =>
                       apply (eq_trans (eq_sym not_decimal_dot)) in H;
                       discriminate H
                   end] |]);
  apply elem_of_nil in Hin; exact Hin.

Ltac field_text :=
  cbn [app]; unfold Re.int; cbn [lstrip]; consts;
  repeat (tests; cbn [lstrip andb orb int_digits]; consts);
  ascii_values; cbn [andb orb int_digits];
  (eexists; split; [reflexivity | split; [f_equal; lia | no_dot]]).

Lemma lang_re_d D :
  lang re_d D -> exists d, day_of_text D = Some d /\ Re.int D = Some d /\ dot ∉ D.
Proof.
  unfold re_d. intros H. lang_inv; unfold day_of_text.
  - field_text.
  - field_text.
  - field_text.
  - field_text.
  - field_text.
Qed.

Lemma lang_re_m M :
  lang re_m M -> exists m, month_of_text M = Some m /\ Re.int M = Some m /\ dot ∉ M.
Proof.
  unfold re_m. intros H. lang_inv; unfold month_of_text; field_text.
Qed.

Ltac not_space :=
  repeat match goal with
    | |- context [N.eqb ?a space] =>
        destruct (N.eqb_spec a space);
        [subst;
         match goal with
         | H : Unicode.decimal_value space = Some _ |- _ =>
             apply (eq_trans (eq_sym not_decimal_space)) in H;
             discriminate H
         end |]
    end.

Lemma lang_re_Y Y :
  lang re_Y Y -> exists y, year_of_text Y = Some y /\ Re.int Y = Some y /\ length Y = 4%nat.
Proof.
  unfold re_Y. intros H. lang_inv. unfold year_of_text, Re.int. cbn [app lstrip].
  not_space. cbn [int_digits].
  repeat match goal with H : Unicode.decimal_value _ = Some _ |- _ => rewrite H; clear H end.
  eexists. split; [reflexivity | split; [f_equal; lia | reflexivity]].
Qed.

Ltac leaf :=
  first [ reflexivity
        | f_equal; lia
        | eexists; split;
          [reflexivity | first [lia | apply isdecimal_value; eauto]] ].
Ltac word :=
  first [ leaf | eexists [_], [_]; split; [reflexivity | split; leaf] ].
Ltac pick := first [ solve [word] | left; solve [word] | right; pick ].

Ltac hyp_tests :=
  repeat match goal with
    | H : context [N.eqb ?a ?b] |- _ => destruct (N.eqb_spec a b)
    | H : context [N.leb ?a ?b] |- _ => destruct (N.leb_spec a b)
    | H : context [match Unicode.decimal_value ?c with _ => _ end] |- _ =>
        let E := fresh "E" in
        destruct (Unicode.decimal_value c) eqn:E;
        [pose proof (decimal_value_bound _ _ E)|]
    end; cbn [andb orb] in *.

Lemma day_of_text_lang D d :
  day_of_text D = Some d -> lang re_d D /\ (1 <= d <= 31)%Z.
Proof.
  unfold day_of_text, re_d. destruct D as [|a [|b [|? ?]]]; try discriminate;
    intros H; consts; repeat (hyp_tests; try discriminate);
    injection H as <-; (split; [simpl lang; consts; pick | lia]).
Qed.

Lemma month_of_text_lang M m :
  month_of_text M = Some m -> lang re_m M /\ (1 <= m <= 12)%Z.
Proof.
  unfold month_of_text, re_m. destruct M as [|a [|b [|? ?]]]; try discriminate;
    intros H; consts; repeat (hyp_tests; try discriminate);
    injection H as <-; (split; [simpl lang; consts; pick | lia]).
Qed.

Lemma year_of_text_lang Y y :
  year_of_text Y = Some y -> lang re_Y Y /\ (0 <= y <= 9999)%Z.
Proof.
  unfold year_of_text, re_Y. destruct Y as [|a [|b [|c [|e [|? ?]]]]]; try discriminate.
  intros H; repeat (hyp_tests; try discriminate). injection H as <-.
  split; [|lia]. simpl lang.
  exists [a], [b; c; e]. split; [reflexivity|]. split; [leaf|].
  exists [b], [c; e]. split; [reflexivity|]. split; [leaf|].
  exists [c], [e]. split; [reflexivity|]. split; leaf.
Qed.
End TextFacts.

Module StrptimeFacts.
Import Re ReLang ReFacts DateText TextFacts.
Local Open Scope N_scope.

Lemma matches_dmY_spec s D M Y rest :
  (D, M, Y, rest) ∈ matches_dmY s <->
  s = D ++ dot :: M ++ dot :: Y ++ rest
  /\ lang re_d D /\ lang re_m M /\ lang re_Y Y.
Proof.
  unfold matches_dmY. split.
  - intros H.
    apply list_elem_of_bind in H as (r1 & H & H1).
    apply list_elem_of_bind in H as (r2 & H & H2).
    apply list_elem_of_bind in H as (r3 & H & H3).
    apply list_elem_of_bind in H as (r4 & H & H4).
    apply list_elem_of_bind in H as (r5 & H & H5).
    apply list_elem_of_singleton in H.
    apply run_spec in H1 as (wd & -> & Hd).
    apply run_spec in H2 as (p1 & -> & ->).
    apply run_spec in H3 as (wm & -> & Hm).
    apply run_spec in H4 as (p2 & -> & ->).
    apply run_spec in H5 as (wY & -> & HY).
    rewrite !consumed_app in H. injection H as -> -> -> ->. auto.
  - intros (-> & Hd & Hm & HY).
    apply list_elem_of_bind. exists (dot :: M ++ dot :: Y ++ rest).
    split; [|apply run_spec; eauto].
    apply list_elem_of_bind. exists (M ++ dot :: Y ++ rest).
    split; [|apply run_spec; exists [dot]; split; reflexivity].
    apply list_elem_of_bind. exists (dot :: Y ++ rest).
    split; [|apply run_spec; eauto].
    apply list_elem_of_bind. exists (Y ++ rest).
    split; [|apply run_spec; exists [dot]; split; reflexivity].
    apply list_elem_of_bind. exists rest.
    split; [|apply run_spec; eauto].
    apply list_elem_of_singleton.
    rewrite (consumed_app D), (consumed_app M), (consumed_app Y). reflexivity.
Qed.

(** A text is split at its first dot in one way only. *)
Lemma split_at_dot (D D' R R' : pystr) :
  dot ∉ D -> dot ∉ D' -> D ++ dot :: R = D' ++ dot :: R' -> D = D' /\ R = R'.
Proof.
  revert D'. induction D as [|a D IH]; intros [|a' D'] HD HD'; simpl.
  - intros [= ->]. auto.
  - intros [= <- _]. exfalso. apply HD'. left.
  - intros [= -> _]. exfalso. apply HD. left.
  - intros [= -> Heq]. apply IH in Heq as [-> ->]; auto.
    + intros Hin. apply HD. right. exact Hin.
    + intros Hin. apply HD'. right. exact Hin.
Qed.

Lemma match_dmY_Some s D M Y rest :
  match_dmY s = Some (D, M, Y, rest) <->
  s = D ++ dot :: M ++ dot :: Y ++ rest
  /\ lang re_d D /\ lang re_m M /\ lang re_Y Y.
Proof.
  unfold match_dmY. split.
  - intros H. apply matches_dmY_spec. apply head_Some_elem_of. exact H.
  - intros (Hs & Hd & Hm & HY).
    assert (Hin : (D, M, Y, rest) ∈ matches_dmY s) by (apply matches_dmY_spec; auto).
    destruct (matches_dmY s) as [|[[[D' M'] Y'] rest'] l] eqn:E.
    + apply elem_of_nil in Hin. contradiction.
    + assert (Hin' : (D', M', Y', rest') ∈ matches_dmY s) by (rewrite E; left).
      apply matches_dmY_spec in Hin' as (Hs' & Hd' & Hm' & HY').
      rewrite Hs in Hs'.
      destruct (lang_re_d _ Hd) as (? & _ & _ & N1).
      destruct (lang_re_d _ Hd') as (? & _ & _ & N1').
      destruct (lang_re_m _ Hm) as (? & _ & _ & N2).
      destruct (lang_re_m _ Hm') as (? & _ & _ & N2').
      destruct (lang_re_Y _ HY) as (? & _ & _ & L).
      destruct (lang_re_Y _ HY') as (? & _ & _ & L').
      apply split_at_dot in Hs' as [<- Hs']; [|assumption..].
      apply split_at_dot in Hs' as [<- Hs']; [|assumption..].
      apply app_inj_1 in Hs' as [<- <-]; [reflexivity | congruence].
Qed.

Lemma date_new_Ok y m d dt :
  date_new y m d = Ok dt <-> dt = Date y m d /\ valid_date (Date y m d) = true.
Proof.
  unfold date_new, valid_date. simpl.
  destruct ((MINYEAR <=? y)%Z && (y <=? MAXYEAR)%Z); simpl;
    [|split; [discriminate | intros [_ [=]]]].
  destruct ((1 <=? m)%Z); simpl; [|split; [discriminate | intros [_ [=]]]].
  destruct ((m <=? 12)%Z); simpl; [|split; [discriminate | intros [_ [=]]]].
  destruct ((1 <=? d)%Z); simpl; [|split; [discriminate | intros [_ [=]]]].
  destruct ((d <=? days_in_month y m)%Z); simpl;
    [|split; [discriminate | intros [_ [=]]]].
  split; [intros [= <-]; auto | intros [-> _]; reflexivity].
Qed.

Lemma date_new_error y m d e :
  date_new y m d = Raise e -> exc_type e = ValueError.
Proof.
  unfold date_new.
  repeat match goal with |- context [if ?b then _ else _] => destruct b end;
    intros [= <-]; reflexivity.
Qed.

(** [strptime] accepts exactly the texts [D.M.Y] whose three fields
    read as a day, a month and a year that form a date. *)
Lemma strptime_dmY_Ok s dt :
  strptime_dmY s = Ok dt <->
  exists D M Y,
    s = D ++ [dot] ++ M ++ [dot] ++ Y
    /\ day_of_text D = Some (day dt)
    /\ month_of_text M = Some (month dt)
    /\ year_of_text Y = Some (year dt)
    /\ valid_date dt = true.
Proof.
  unfold strptime_dmY. split.
  - destruct (match_dmY s) as [[[[D M] Y] rest]|] eqn:E; [|discriminate].
    apply match_dmY_Some in E as (-> & Hd & Hm & HY).
    destruct rest; [|discriminate].
    destruct (lang_re_d _ Hd) as (d & Td & -> & _).
    destruct (lang_re_m _ Hm) as (m & Tm & -> & _).
    destruct (lang_re_Y _ HY) as (y & TY & -> & _).
    intros H. apply date_new_Ok in H as [-> Hv].
    exists D, M, Y. rewrite app_nil_r. simpl. auto.
  - intros (D & M & Y & -> & Td & Tm & TY & Hv).
    apply day_of_text_lang in Td as Hd. destruct Hd as [Hd _].
    apply month_of_text_lang in Tm as Hm. destruct Hm as [Hm _].
    apply year_of_text_lang in TY as HY. destruct HY as [HY _].
    assert (E : match_dmY (D ++ [dot] ++ M ++ [dot] ++ Y) = Some (D, M, Y, [])).
    { apply match_dmY_Some. rewrite app_nil_r. auto. }
    rewrite E.
    destruct (lang_re_d _ Hd) as (d & Td' & -> & _).
    destruct (lang_re_m _ Hm) as (m & Tm' & -> & _).
    destruct (lang_re_Y _ HY) as (y & TY' & -> & _).
    apply date_new_Ok. destruct dt as [y0 m0 d0]. simpl in *.
    split; [congruence|]. replace y with y0 by congruence.
    replace m with m0 by congruence. replace d with d0 by congruence. exact Hv.
Qed.

Lemma strptime_dmY_error s e :
  strptime_dmY s = Raise e -> exc_type e = ValueError.
Proof.
  unfold strptime_dmY.
  destruct (match_dmY s) as [[[[D M] Y] [|? ?]]|]; try (intros [= <-]; reflexivity).
  destruct (Re.int Y), (Re.int M), (Re.int D); try (intros [= <-]; reflexivity).
  apply date_new_error.
Qed.
End StrptimeFacts.

(** * Phones, records, dictionaries *)

Lemma Field_eta (p : Field) : p = mkField (value p).
Proof. destruct p. reflexivity. Qed.

Lemma ascii_digit_isdigit c :
  Unicode.ascii_digit c = true -> Unicode.isdigit_char c = true.
Proof.
  unfold Unicode.ascii_digit, Unicode.isdigit_char, Unicode.isdecimal.
  intros H. apply andb_prop in H as [H1 H2]. apply N.leb_le in H1, H2.
  rewrite TextFacts.decimal_value_ascii by lia. reflexivity.
Qed.

Lemma isdigit_forallb s :
  s <> [] -> Unicode.isdigit s = forallb Unicode.isdigit_char s.
Proof. destruct s; [congruence | reflexivity]. Qed.

Lemma Phone_init_cases raw :
  (length raw = 10%nat /\ forallb Unicode.isdigit_char raw = true
   /\ Phone_init raw = Ok (mkField raw))
  \/ (~ (length raw = 10%nat /\ forallb Unicode.isdigit_char raw = true)
      /\ Phone_init raw
         = Raise (Exc ValueError "Phone number must contain 10 digits.")).
Proof.
  unfold Phone_init. destruct (Nat.eqb_spec (length raw) 10) as [L|L]; simpl.
  - rewrite isdigit_forallb by (intros ->; discriminate).
    destruct (forallb Unicode.isdigit_char raw); [left | right]; auto.
    split; [|reflexivity]. intros [_ [=]].
  - right. split; [|reflexivity]. intros [? _]. contradiction.
Qed.

Lemma find_phone_in_None l phone :
  find_phone_in l phone = None <-> forall p, p ∈ l -> value p <> phone.
Proof.
  induction l as [|q l IH]; simpl.
  - split; [intros _ p Hp; apply elem_of_nil in Hp; contradiction | reflexivity].
  - destruct (decide (value q = phone)) as [E|E].
    + split; [discriminate|]. intros H. exfalso. apply (H q); [left | exact E].
    + rewrite IH. split.
      * intros H p Hp. apply elem_of_cons in Hp as [->|Hp]; auto.
      * intros H p Hp. apply H. right. exact Hp.
Qed.

Lemma find_phone_in_Some l phone :
  (exists p, p ∈ l /\ value p = phone) ->
  exists i, find_phone_in l phone = Some (mkField phone)
            /\ list_index (mkField phone) l = Ok i
            /\ first_at l phone i.
Proof.
  induction l as [|q l IH]; simpl.
  - intros (p & Hp & _). apply elem_of_nil in Hp. contradiction.
  - intros (p & Hp & Hv). destruct (decide (value q = phone)) as [E|E].
    + exists O. rewrite (Field_eta q), E.
      case_decide; [|congruence].
      split; [reflexivity|]. split; [reflexivity|].
      split; [reflexivity | intros; lia].
    + apply elem_of_cons in Hp as [->|Hp]; [contradiction|].
      destruct IH as (i & Hf & Hi & Hfirst); [eauto|].
      exists (S i). rewrite Hf.
      case_decide as Hq; [subst q; simpl in E; congruence|].
      rewrite Hi. simpl. split; [reflexivity|]. split; [reflexivity|].
      destruct Hfirst as [Hl Hfirst]. split; [exact Hl|].
      intros [|j] q' Hj; simpl; [intros [= <-]; exact E|].
      apply Hfirst. lia.
Qed.

Lemma list_remove_first l phone i :
  first_at l phone i ->
  list_remove (mkField phone) l = Ok (delete i l).
Proof.
  revert i. induction l as [|q l IH]; intros i [Hi Hfirst].
  - rewrite lookup_nil in Hi. discriminate.
  - simpl. destruct i as [|i]; simpl in Hi.
    + injection Hi as ->. case_decide; [|congruence].
      reflexivity.
    + case_decide as Hq.
      * subst q. exfalso.
        apply (Hfirst O (mkField phone)); [lia | reflexivity | reflexivity].
      * rewrite (IH i); [reflexivity|]. split; [exact Hi|].
        intros j q' Hj Hq'. apply (Hfirst (S j) q'); [lia | exact Hq'].
Qed.

(** Record methods *)

Lemma edit_phone_found r old new i :
  first_at (phones r) old i ->
  (exists p, p ∈ phones r /\ value p = old) ->
  edit_phone old new r =
    match Phone_init new with
    | Ok p => (set_phones r (<[i := p]> (phones r)), Ok tt)
    | Raise e => (r, Raise e)
    end.
Proof.
  intros Hi Hex. apply find_phone_in_Some in Hex as (i' & Hf & Hidx & Hi').
  assert (i' = i) as ->.
  { destruct Hi as [Hi Hlow], Hi' as [Hi' Hlow'].
    destruct (Nat.lt_trichotomy i' i) as [Hlt|[->|Hlt]]; [|reflexivity|].
    - exfalso. apply (Hlow i' _ Hlt Hi'). reflexivity.
    - exfalso. apply (Hlow' i _ Hlt Hi). reflexivity. }
  unfold edit_phone, Method.bind, Method.get, Method.eval, Method.put,
    Method.raise, find_phone.
  rewrite Hf, Hidx. destruct (Phone_init new); reflexivity.
Qed.

Lemma edit_phone_missing r old new :
  (forall p, p ∈ phones r -> value p <> old) ->
  edit_phone old new r
  = (r, Raise (Exc ValueError "Old phone number not found")).
Proof.
  intros H. apply find_phone_in_None in H.
  unfold edit_phone, Method.bind, Method.get, Method.raise, find_phone.
  rewrite H. reflexivity.
Qed.

Lemma remove_phone_missing r phone :
  (forall p, p ∈ phones r -> value p <> phone) ->
  remove_phone phone r = (r, Raise (Exc ValueError "Phone number not found")).
Proof.
  intros H. apply find_phone_in_None in H.
  unfold remove_phone, Method.bind, Method.get, Method.raise, find_phone.
  rewrite H. reflexivity.
Qed.

(** Address book *)

Lemma dict_get_setitem {V} k (v : V) d : dict_get k (dict_setitem k v d) = Some v.
Proof.
  induction d as [|[k' v'] d IH]; simpl.
  - case_decide; [reflexivity | congruence].
  - case_decide as E; simpl; case_decide; congruence.
Qed.

Lemma dict_get_setitem_ne {V} k k' (v : V) d :
  k' <> k -> dict_get k' (dict_setitem k v d) = dict_get k' d.
Proof.
  intros Hne. induction d as [|[k0 v0] d IH]; simpl.
  - case_decide; [congruence | reflexivity].
  - case_decide as E; simpl.
    + subst k0. case_decide; [congruence | reflexivity].
    + case_decide; [reflexivity | exact IH].
Qed.

Lemma dict_keys_setitem {V} k (v : V) d :
  dict_keys (dict_setitem k v d)
  = if decide (k ∈ dict_keys d) then dict_keys d else dict_keys d ++ [k].
Proof.
  induction d as [|[k0 v0] d IH]; simpl.
  - reflexivity.
  - destruct (decide (k0 = k)) as [->|E]; simpl.
    + destruct (decide (k ∈ k :: dict_keys d)) as [_|E']; [reflexivity|].
      exfalso. apply E'. left.
    + fold (dict_keys (dict_setitem k v d)). rewrite IH.
      destruct (decide (k ∈ dict_keys d)) as [E1|E1];
        destruct (decide (k ∈ k0 :: dict_keys d)) as [E2|E2]; try reflexivity.
      * exfalso. apply E2. right. exact E1.
      * exfalso. apply elem_of_cons in E2 as [->|E2]; [congruence | contradiction].
Qed.

Lemma dict_keys_setitem_NoDup {V} k (v : V) d :
  NoDup (dict_keys d) -> NoDup (dict_keys (dict_setitem k v d)).
Proof.
  intros H. rewrite dict_keys_setitem. case_decide as E; [exact H|].
  apply NoDup_app. split; [exact H|]. split.
  - intros x Hx Hx'. apply list_elem_of_singleton in Hx'. subst x. contradiction.
  - apply NoDup_singleton.
Qed.

Local Open Scope Z_scope.

(** * Dates of the scheduler *)

Lemma valid_date_fields d :
  valid_date d = true ->
  1 <= year d <= 9999 /\ 1 <= month d <= 12
  /\ 1 <= day d <= days_in_month (year d) (month d).
Proof.
  unfold valid_date, MINYEAR, MAXYEAR. intros H.
  repeat (apply andb_prop in H as [H ?]). lia.
Qed.

Lemma month_cases m :
  1 <= m <= 12 ->
  m = 1 \/ m = 2 \/ m = 3 \/ m = 4 \/ m = 5 \/ m = 6
  \/ m = 7 \/ m = 8 \/ m = 9 \/ m = 10 \/ m = 11 \/ m = 12.
Proof. lia. Qed.

Ltac eval_items :=
  repeat match goal with
    | |- context [item ?l ?n] =>
        let v := eval vm_compute in (item l n) in change (item l n) with v
    | H : context [item ?l ?n] |- _ =>
        let v := eval vm_compute in (item l n) in change (item l n) with v in H
    end.

Lemma toordinal_bounds d :
  valid_date d = true -> 1 <= toordinal d <= MAXORDINAL.
Proof.
  intros H. apply valid_date_fields in H as (Hy & Hm & Hd).
  destruct d as [y m d]. simpl in *.
  unfold toordinal, ymd2ord, days_before_year, days_before_month,
    days_in_month, is_leap, MAXORDINAL in *. simpl.
  apply month_cases in Hm.
  repeat (destruct Hm as [->|Hm]); try subst m; simpl in *; eval_items;
    repeat match goal with
      | H : context [?a =? ?b] |- _ => destruct (Z.eqb_spec a b); simpl in H
      | |- context [?a =? ?b] => destruct (Z.eqb_spec a b); simpl
      end;
    Z.div_mod_to_equations; lia.
Qed.

Lemma weekday_range d : 0 <= weekday d < 7.
Proof. unfold weekday. apply Z.mod_pos_bound. lia. Qed.

Lemma add_days_Ok d n :
  valid_date d = true -> 0 <= n -> toordinal d + n <= MAXORDINAL ->
  exists c, add_days d n = Ok c /\ c = ord2ymd (toordinal d + n)
            /\ toordinal c = toordinal d + n /\ valid_date c = true.
Proof.
  intros Hv Hn Hmax. pose proof (toordinal_bounds d Hv) as Hb.
  unfold add_days.
  destruct (Z.ltb_spec 0 (toordinal d + n)); [|lia].
  destruct (Z.leb_spec (toordinal d + n) MAXORDINAL); [|lia]. simpl.
  destruct (toordinal_ord2ymd (toordinal d + n)) as [Ho Hv']; [lia|].
  eauto.
Qed.

(** The number of days [find_next_weekday] moves forward from a day
    whose weekday is [w], towards weekday [target]. *)
Lemma find_next_weekday_shift start target :
  find_next_weekday start target
  = add_days start (if target - weekday start <=? 0
                    then target - weekday start + 7
                    else target - weekday start).
Proof. reflexivity. Qed.

Lemma find_next_monday start :
  valid_date start = true ->
  let k := if weekday start =? 0 then 7 else 7 - weekday start in
  1 <= k <= 7
  /\ find_next_weekday start 0 = add_days start k
  /\ (toordinal start + k <= MAXORDINAL ->
      exists c, find_next_weekday start 0 = Ok c
                /\ toordinal c = toordinal start + k /\ weekday c = 0).
Proof.
  intros Hv k. pose proof (weekday_range start) as Hw.
  assert (Hk : (if 0 - weekday start <=? 0 then 0 - weekday start + 7
                else 0 - weekday start) = k).
  { subst k. destruct (Z.leb_spec (0 - weekday start) 0);
      destruct (Z.eqb_spec (weekday start) 0); lia. }
  split; [subst k; destruct (Z.eqb_spec (weekday start) 0); lia|].
  split; [rewrite find_next_weekday_shift, Hk; reflexivity|].
  intros Hmax. rewrite find_next_weekday_shift, Hk.
  destruct (add_days_Ok start k Hv) as (c & Hc & _ & Ho & _);
    [subst k; destruct (Z.eqb_spec (weekday start) 0); lia | exact Hmax |].
  exists c. split; [exact Hc|]. split; [exact Ho|].
  unfold weekday in *. rewrite Ho. subst k.
  destruct (Z.eqb_spec ((toordinal start + 6) mod 7) 0);
    Z.div_mod_to_equations; lia.
Qed.

Lemma adjust_for_weekend_Ok p :
  valid_date p = true ->
  adjust_for_weekend p = Ok (congratulation_date p)
  /\ weekday (congratulation_date p) < 5
  /\ toordinal (congratulation_date p)
     = toordinal p + (if 5 <=? weekday p then 7 - weekday p else 0).
Proof.
  intros Hv. pose proof (weekday_range p) as Hw.
  pose proof (toordinal_bounds p Hv) as Hb.
  unfold adjust_for_weekend, congratulation_date.
  destruct (Z.leb_spec 5 (weekday p)) as [H5|H5]; [|split; [reflexivity | lia]].
  assert (Hmax : toordinal p + (7 - weekday p) <= MAXORDINAL).
  { unfold weekday, MAXORDINAL in *. Z.div_mod_to_equations. lia. }
  rewrite find_next_weekday_shift.
  replace (if 0 - weekday p <=? 0 then 0 - weekday p + 7 else 0 - weekday p)
    with (7 - weekday p) by (destruct (Z.leb_spec (0 - weekday p) 0); lia).
  destruct (add_days_Ok p (7 - weekday p) Hv) as (c & Hc & -> & Ho & _);
    [lia | exact Hmax |].
  split; [exact Hc|]. split; [|exact Ho].
  unfold weekday in *. rewrite Ho. Z.div_mod_to_equations. lia.
Qed.

Lemma replace_year_Ok d y :
  valid_date (Date y (month d) (day d)) = true ->
  replace_year d y = Ok (Date y (month d) (day d)).
Proof.
  intros E. unfold replace_year. apply StrptimeFacts.date_new_Ok. auto.
Qed.

Lemma replace_year_valid d y c : replace_year d y = Ok c ->
  c = Date y (month d) (day d) /\ valid_date c = true.
Proof.
  unfold replace_year. intros H. apply StrptimeFacts.date_new_Ok in H as [-> H].
  auto.
Qed.

Lemma projection_valid today bd p :
  projection today bd = Some p -> valid_date p = true.
Proof.
  unfold projection.
  destruct (valid_date (Date (year today) (month bd) (day bd))) eqn:E1; [|discriminate].
  destruct (date_lt _ today).
  - destruct (valid_date (Date (year today + 1) (month bd) (day bd))) eqn:E2;
      [|discriminate]. intros [= <-]. exact E2.
  - intros [= <-]. exact E1.
Qed.

Lemma schedulable_cases today record :
  schedulable today record = true ->
  birthday record = None
  \/ exists b bd p, birthday record = Some b /\ birthday_date record = Some bd
                    /\ projection today bd = Some p.
Proof.
  unfold schedulable.
  destruct (birthday record) as [b|] eqn:Eb; [|intros _; left; reflexivity].
  destruct (birthday_date record) as [bd|]; [|discriminate].
  destruct (projection today bd) as [p|] eqn:Ep; [|discriminate].
  intros _. right. exists b, bd, p. auto.
Qed.

(** One turn of the loop, for a record whose birthday has a
    projection. *)
Lemma upcoming_step_schedulable today days acc record :
  schedulable today record = true ->
  upcoming_step today days acc record
  = Ok (acc ++ option_list (upcoming_entry today days record)).
Proof.
  intros H. apply schedulable_cases in H as [Hnone|(b0 & bd & p & Hb & Hbd & Hp)];
    unfold upcoming_step, upcoming_entry, birthday_date in *.
  - rewrite Hnone. rewrite app_nil_r. reflexivity.
  - destruct (birthday record) as [b|]; [|discriminate].
    destruct (strptime_dmY (value b)) as [bd'|]; [|discriminate].
    injection Hbd as ->. rewrite Hp. simpl Py.bind.
    pose proof (projection_valid _ _ _ Hp) as Hv.
    unfold projection in Hp.
    destruct (valid_date (Date (year today) (month bd) (day bd))) eqn:E1;
      [|discriminate].
    rewrite (replace_year_Ok _ _ E1). simpl Py.bind.
    assert (Hp' : (if date_lt (Date (year today) (month bd) (day bd)) today
                   then replace_year (Date (year today) (month bd) (day bd))
                          (year today + 1)
                   else Ok (Date (year today) (month bd) (day bd))) = Ok p).
    { destruct (date_lt _ today); [|congruence].
      destruct (valid_date (Date (year today + 1) (month bd) (day bd))) eqn:E2;
        [|discriminate].
      rewrite replace_year_Ok by exact E2. simpl. congruence. }
    rewrite Hp'. simpl Py.bind.
    destruct ((0 <=? days_between p today) && (days_between p today <=? days));
      [|rewrite app_nil_r; reflexivity].
    destruct (adjust_for_weekend_Ok p Hv) as [-> _]. reflexivity.
Qed.

Lemma for_each_schedulable today days records : forall acc,
  forallb (schedulable today) records = true ->
  for_each (upcoming_step today days) records acc
  = Ok (acc ++ omap (upcoming_entry today days) records).
Proof.
  induction records as [|r records IH]; intros acc H; simpl in *.
  - rewrite app_nil_r. reflexivity.
  - apply andb_prop in H as [Hr H].
    rewrite upcoming_step_schedulable by exact Hr. simpl.
    rewrite IH by exact H.
    rewrite <- (assoc_L (++)). f_equal. f_equal.
    destruct (upcoming_entry today days r); reflexivity.
Qed.

Lemma get_upcoming_birthdays_schedulable self today days :
  forallb (schedulable today) (dict_values (data self)) = true ->
  get_upcoming_birthdays self today days
  = Ok (omap (upcoming_entry today days) (dict_values (data self))).
Proof.
  intros H. unfold get_upcoming_birthdays.
  rewrite for_each_schedulable by exact H. reflexivity.
Qed.

Lemma dict_key_unique {V} (d : dict V) k (v1 v2 : V) :
  NoDup (dict_keys d) -> (k, v1) ∈ d -> (k, v2) ∈ d -> v1 = v2.
Proof.
  unfold dict_keys. induction d as [|[k0 v0] d IH]; csimpl; intros Hnd H1 H2.
  - apply elem_of_nil in H1. contradiction.
  - apply NoDup_cons in Hnd as [Hk0 Hnd].
    apply elem_of_cons in H1 as [E1|H1];
      apply elem_of_cons in H2 as [E2|H2]; simplify_eq.
    + reflexivity.
    + exfalso. apply Hk0. apply list_elem_of_fmap. eexists (_, v2). eauto.
    + exfalso. apply Hk0. apply list_elem_of_fmap. eexists (_, v1). eauto.
    + apply IH; assumption.
Qed.

Lemma book_wf_same_name self r1 r2 :
  book_wf self = true ->
  r1 ∈ dict_values (data self) -> r2 ∈ dict_values (data self) ->
  value (name r1) = value (name r2) -> r1 = r2.
Proof.
  unfold book_wf, dict_values, dict_keys. intros H H1 H2 Hn.
  apply andb_prop in H as [Hnd Hk]. apply bool_decide_eq_true in Hnd.
  rewrite List.forallb_forall in Hk.
  apply list_elem_of_fmap in H1 as ([k1 r1'] & -> & H1).
  apply list_elem_of_fmap in H2 as ([k2 r2'] & -> & H2). simpl in *.
  pose proof (Hk _ (proj1 (list_elem_of_In _ _) H1)) as E1.
  pose proof (Hk _ (proj1 (list_elem_of_In _ _) H2)) as E2.
  apply bool_decide_eq_true in E1, E2. simpl in *.
  assert (k1 = k2) as -> by congruence.
  exact (dict_key_unique _ _ _ _ Hnd H1 H2).
Qed.

Import Re DateText.

(** * Printing and parsing dates *)

Lemma Z_range_forallb (P : Z -> bool) (lo : Z) (n : nat) :
  forallb (fun k => P (lo + Z.of_nat k)) (seq 0 n) = true ->
  forall z, lo <= z < lo + Z.of_nat n -> P z = true.
Proof.
  intros H z Hz. rewrite List.forallb_forall in H.
  specialize (H (Z.to_nat (z - lo))).
  replace (lo + Z.of_nat (Z.to_nat (z - lo))) with z in H by lia.
  apply H. apply in_seq. lia.
Qed.

Lemma day_of_text_zero_padded d :
  1 <= d <= 31 -> day_of_text (zero_padded 2 d) = Some d.
Proof.
  intros H.
  pose proof (Z_range_forallb
    (fun z => bool_decide (day_of_text (zero_padded 2 z) = Some z)) 1 31) as R.
  eapply bool_decide_eq_true_1. apply R; [vm_compute; reflexivity | lia].
Qed.

Lemma month_of_text_zero_padded m :
  1 <= m <= 12 -> month_of_text (zero_padded 2 m) = Some m.
Proof.
  intros H.
  pose proof (Z_range_forallb
    (fun z => bool_decide (month_of_text (zero_padded 2 z) = Some z)) 1 12) as R.
  eapply bool_decide_eq_true_1. apply R; [vm_compute; reflexivity | lia].
Qed.

Lemma ascii_digit_value x :
  0 <= x <= 9 ->
  Unicode.decimal_value (Z.to_N (48 + x)) = Some (Z.to_N x).
Proof.
  intros H. rewrite TextFacts.decimal_value_ascii by lia. f_equal. lia.
Qed.

Lemma year_of_text_zero_padded y :
  0 <= y <= 9999 -> year_of_text (zero_padded 4 y) = Some y.
Proof.
  intros H. cbn [zero_padded app]. unfold year_of_text.
  rewrite !ascii_digit_value by (Z.div_mod_to_equations; lia).
  f_equal. rewrite !Z2N.id by (Z.div_mod_to_equations; lia).
  Z.div_mod_to_equations. lia.
Qed.

Lemma length_zero_padded w n : length (zero_padded w n) = w.
Proof.
  revert n. induction w as [|w IH]; intros n; simpl; [reflexivity|].
  rewrite length_app, IH. simpl. lia.
Qed.

Lemma length_padded_dmY dt : length (padded_dmY dt) = 10%nat.
Proof.
  unfold padded_dmY. rewrite !length_app, !length_zero_padded. reflexivity.
Qed.

(** Parsing a zero-padded text gives the date back. *)
Lemma strptime_padded dt :
  valid_date dt = true -> strptime_dmY (padded_dmY dt) = Ok dt.
Proof.
  intros Hv. apply StrptimeFacts.strptime_dmY_Ok.
  pose proof (valid_date_fields dt Hv) as (Hy & Hm & Hd).
  exists (zero_padded 2 (day dt)), (zero_padded 2 (month dt)),
    (zero_padded 4 (year dt)).
  split; [reflexivity|].
  split; [apply day_of_text_zero_padded|].
  { assert (days_in_month (year dt) (month dt) <= 31); [|lia].
    unfold days_in_month. destruct ((month dt =? 2) && is_leap (year dt)); [lia|].
    apply month_cases in Hm. repeat (destruct Hm as [->|Hm]); try rewrite Hm;
      vm_compute; discriminate. }
  split; [apply month_of_text_zero_padded; lia|].
  split; [apply year_of_text_zero_padded; lia | exact Hv].
Qed.

(** From the year 1000 on, [strftime] prints the zero-padded text. *)
Lemma strftime_dmY_padded dt :
  1000 <= year dt -> strftime_dmY dt = padded_dmY dt.
Proof.
  intros H. unfold strftime_dmY, padded_dmY, decimal_year.
  destruct (Z.ltb_spec (year dt) 10); [lia|].
  destruct (Z.ltb_spec (year dt) 100); [lia|].
  destruct (Z.ltb_spec (year dt) 1000); [lia|]. reflexivity.
Qed.

Lemma length_strftime_dmY dt :
  1000 <= year dt -> length (strftime_dmY dt) = 10%nat.
Proof.
  intros H. rewrite (strftime_dmY_padded dt H). apply length_padded_dmY.
Qed.

(** Below the year 1000 the text is shorter. *)
Lemma length_strftime_dmY_short dt :
  year dt < 1000 -> (length (strftime_dmY dt) < 10)%nat.
Proof.
  intros H. unfold strftime_dmY, decimal_year.
  destruct (Z.ltb_spec (year dt) 10);
    [|destruct (Z.ltb_spec (year dt) 100);
      [|destruct (Z.ltb_spec (year dt) 1000); [|lia]]];
    rewrite !length_app, !length_zero_padded; simpl; lia.
Qed.

(** Parsing what [strftime] printed gives the date back, from the
    year 1000 on. *)
Lemma strptime_strftime dt :
  valid_date dt = true -> 1000 <= year dt ->
  strptime_dmY (strftime_dmY dt) = Ok dt.
Proof.
  intros Hv Hy. rewrite (strftime_dmY_padded dt Hy).
  apply strptime_padded. exact Hv.
Qed.

Lemma Birthday_init_cases raw :
  (exists dt, strptime_dmY raw = Ok dt /\ Birthday_init raw = Ok (mkField raw))
  \/ ((forall dt, strptime_dmY raw <> Ok dt)
      /\ Birthday_init raw
         = Raise (Exc ValueError "Invalid date format. Use DD.MM.YYYY")).
Proof.
  unfold Birthday_init. destruct (strptime_dmY raw) as [dt|e] eqn:E; simpl.
  - left. eauto.
  - right. split; [discriminate|].
    apply StrptimeFacts.strptime_dmY_error in E. destruct e as [c msg].
    simpl in E. subst c. reflexivity.
Qed.

(** * The scheduler *)

(** * C1 *)

Lemma listed_iff self today days record :
  book_wf self = true ->
  record ∈ dict_values (data self) ->
  (exists e, e ∈ omap (upcoming_entry today days) (dict_values (data self))
             /\ entry_name e = value (name record))
  <-> is_Some (upcoming_entry today days record).
Proof.
  intros Hwf Hin. split.
  - intros (e & He & Hn). apply list_elem_of_omap in He as (r & Hr & He).
    assert (value (name r) = value (name record)) as Hsame.
    { unfold upcoming_entry in He.
      destruct (birthday_date r); [|discriminate].
      destruct (projection today d); [|discriminate].
      destruct (_ && _); [|discriminate].
      injection He as <-. exact Hn. }
    rewrite <- (book_wf_same_name self r record Hwf Hr Hin Hsame). eauto.
  - intros [e He]. exists e. split.
    + apply list_elem_of_omap. eauto.
    + unfold upcoming_entry in He.
      destruct (birthday_date record); [|discriminate].
      destruct (projection today d); [|discriminate].
      destruct (_ && _); [|discriminate].
      injection He as <-. reflexivity.
Qed.

Lemma upcoming_entry_window today days record bd p :
  birthday_date record = Some bd -> projection today bd = Some p ->
  is_Some (upcoming_entry today days record)
  <-> 0 <= days_between p today <= days.
Proof.
  intros Hbd Hp. unfold upcoming_entry. rewrite Hbd, Hp.
  destruct (Z.leb_spec 0 (days_between p today));
    destruct (Z.leb_spec (days_between p today) days); simpl;
    split; intros H'; try lia; try (destruct H' as [? [=]]); eauto.
Qed.

(** The window on a book whose calls return: when the records are
    stored under their own names and every birthday has a projection,
    a record with a birthday is listed by [get_upcoming_birthdays] if
    and only if its projected birthday is between 0 and [days] days
    after today, both ends included: a birthday [days] days ahead is
    listed, one [days + 1] days ahead is not, and a record without
    birthday is never listed. *)
Lemma upcoming_birthdays_window
    (self : AddressBook) (today : date) (days : Z) :
  book_wf self = true ->
  forallb (schedulable today) (dict_values (data self)) = true ->
  exists l,
    get_upcoming_birthdays self today days = Ok l
    /\ forall record, record ∈ dict_values (data self) ->
         let listed := exists e, e ∈ l /\ entry_name e = value (name record) in
         (birthday record = None -> ~ listed)
         /\ forall bd p,
              birthday_date record = Some bd ->
              projection today bd = Some p ->
              (listed <-> 0 <= days_between p today <= days)
              /\ (0 <= days -> days_between p today = days -> listed)
              /\ (days_between p today = days + 1 -> ~ listed).
Proof.
  intros Hwf Hs. eexists. split.
  - apply get_upcoming_birthdays_schedulable. exact Hs.
  - intros record Hin listed. subst listed. split.
    + intros Hnone H. apply (listed_iff self today days record Hwf Hin) in H.
      unfold upcoming_entry, birthday_date in H. rewrite Hnone in H.
      destruct H as [? [=]].
    + intros bd p Hbd Hp.
      rewrite (listed_iff self today days record Hwf Hin).
      rewrite (upcoming_entry_window today days record bd p Hbd Hp).
      split; [reflexivity|]. split; intros; lia.
Qed.

Lemma upcoming_birthdays_window_witness :
  exists l,
    get_upcoming_birthdays (book_of john) (Date 2024 6 10) 7 = Ok l
    /\ exists e, e ∈ l /\ entry_name e = lit "John".
Proof.
  destruct (upcoming_birthdays_window (book_of john) (Date 2024 6 10) 7)
    as (l & Hl & Hrec); [vm_compute; reflexivity | vm_compute; reflexivity |].
  exists l. split; [exact Hl|].
  destruct (Hrec john) as [_ Hwin]; [left|].
  destruct (Hwin (Date 2024 6 15) (Date 2024 6 15)) as [Hiff _];
    [vm_compute; reflexivity | vm_compute; reflexivity |].
  apply Hiff. vm_compute. split; discriminate.
Defined.

(** C1 (the code fails here). The book holds John, born 15.06.2024,
    and Ann, born 29.02.2024, each under their own name, both
    birthdays accepted by [Birthday]. With today = 10.06.2025 and a
    window of 7 days John's projected birthday, 15.06.2025, is 5 days
    ahead, inside the window; yet he is not listed: the loop ends
    with the [ValueError] that [date.replace] raises on Ann's
    birthday, and no list is returned. In the book without Ann he is
    listed. *)
Theorem window_member_not_listed :
  Birthday_init (lit "15.06.2024") = Ok (mkField (lit "15.06.2024"))
  /\ Birthday_init (lit "29.02.2024") = Ok (mkField (lit "29.02.2024"))
  /\ book_wf john_and_ann = true
  /\ find john_and_ann (lit "John") = Some john
  /\ find john_and_ann (lit "Ann") = Some ann
  /\ birthday_date john = Some (Date 2024 6 15)
  /\ projection (Date 2025 6 10) (Date 2024 6 15) = Some (Date 2025 6 15)
  /\ days_between (Date 2025 6 15) (Date 2025 6 10) = 5
  /\ get_upcoming_birthdays john_and_ann (Date 2025 6 10) 7
     = Raise (Exc ValueError "day is out of range for month")
  /\ get_upcoming_birthdays (book_of john) (Date 2025 6 10) 7
     = Ok [mkEntry (lit "John") (lit "16.06.2025")].
Proof. vm_compute. repeat split. Qed.

(** * C2 *)

(** C2. A Saturday is moved forward by two days and a Sunday by one,
    both to a Monday; any other day is returned unchanged. The helper
    [find_next_weekday] moves forward by 7 days from a Monday and by
    [7 - weekday] days from any other day, and so by 1 to 7 days for
    each of the seven weekdays, reaching a Monday. With today
    10.06.2024 and a window of 7 days, the birthday 15.06.2024 is
    listed with the date 17.06.2024. *)
Theorem weekend_adjustment :
  (forall bd : date,
     valid_date bd = true ->
     (weekday bd = 5 ->
      exists c, adjust_for_weekend bd = Ok c
                /\ days_between c bd = 2 /\ weekday c = 0)
     /\ (weekday bd = 6 ->
         exists c, adjust_for_weekend bd = Ok c
                   /\ days_between c bd = 1 /\ weekday c = 0)
     /\ (weekday bd < 5 -> adjust_for_weekend bd = Ok bd)
     /\ (let k := if weekday bd =? 0 then 7 else 7 - weekday bd in
         1 <= k <= 7
         /\ find_next_weekday bd 0 = add_days bd k
         /\ (toordinal bd + k <= MAXORDINAL ->
             exists c, find_next_weekday bd 0 = Ok c
                       /\ days_between c bd = k /\ weekday c = 0)))
  /\ get_upcoming_birthdays (book_of john) (Date 2024 6 10) 7
     = Ok [mkEntry (lit "John") (lit "17.06.2024")].
Proof.
  split; [|vm_compute; reflexivity].
  intros bd Hv.
  destruct (adjust_for_weekend_Ok bd Hv) as (Hadj & Hwd & Hord).
  pose proof (weekday_range bd) as Hw.
  assert (Hmon : 5 <= weekday bd -> weekday (congratulation_date bd) = 0).
  { intros H5. destruct (Z.leb_spec 5 (weekday bd)); [|lia].
    unfold weekday in *. rewrite Hord. Z.div_mod_to_equations. lia. }
  split; [|split; [|split]].
  - intros H5. exists (congratulation_date bd).
    split; [exact Hadj|]. unfold days_between. rewrite Hord, H5. simpl.
    split; [lia | apply Hmon; lia].
  - intros H6. exists (congratulation_date bd).
    split; [exact Hadj|]. unfold days_between. rewrite Hord, H6. simpl.
    split; [lia | apply Hmon; lia].
  - intros Hlt. unfold adjust_for_weekend.
    destruct (Z.leb_spec 5 (weekday bd)); [lia | reflexivity].
  - destruct (find_next_monday bd Hv) as (Hk & Hfn & Hok).
    split; [exact Hk|]. split; [exact Hfn|].
    intros Hmax. destruct (Hok Hmax) as (c & Hc & Ho & Hwc).
    exists c. unfold days_between. split; [exact Hc|]. split; [lia | exact Hwc].
Qed.

Lemma weekend_adjustment_witness :
  exists c, adjust_for_weekend (Date 2024 6 15) = Ok c
            /\ days_between c (Date 2024 6 15) = 2 /\ weekday c = 0.
Proof.
  destruct weekend_adjustment as [H _].
  destruct (H (Date 2024 6 15)) as (H5 & _); [vm_compute; reflexivity|].
  apply H5. vm_compute. reflexivity.
Defined.

(** * C3 *)

(** C3 (the code fails here). The stored birthday 29.02.2024 is
    accepted by [Birthday], yet with today = 10.01.2025, and also with
    today = 01.03.2024, the listing of upcoming birthdays ends with
    the [ValueError] raised by [date.replace] instead of returning a
    list; it returns one with today = 25.02.2024. *)
Theorem leap_day_birthday_raises :
  Birthday_init (lit "29.02.2024") = Ok (mkField (lit "29.02.2024"))
  /\ valid_date (Date 2025 1 10) = true
  /\ get_upcoming_birthdays (book_of ann) (Date 2025 1 10) 7
     = Raise (Exc ValueError "day is out of range for month")
  /\ get_upcoming_birthdays (book_of ann) (Date 2024 3 1) 7
     = Raise (Exc ValueError "day is out of range for month")
  /\ get_upcoming_birthdays (book_of ann) (Date 2024 2 25) 7
     = Ok [mkEntry (lit "Ann") (lit "29.02.2024")].
Proof. vm_compute. repeat split. Qed.

(** * C9 *)

(** The weekend shift on a book whose calls return: whether a record
    is listed is decided on the projected birthday, before the shift.
    When every birthday of the book has a projection, a record whose
    projected birthday is within the window and falls on a Saturday
    or Sunday is listed with the following Monday, one or two days
    later, which is at most [days + 2] days after today; and a listed
    date does lie [days + 2] days after today for a Saturday on the
    last day of the window. *)
Lemma weekend_shift_after_window_check :
  (forall (self : AddressBook) (today : date) (days : Z),
     forallb (schedulable today) (dict_values (data self)) = true ->
     exists l,
       get_upcoming_birthdays self today days = Ok l
       /\ forall record bd p,
            record ∈ dict_values (data self) ->
            birthday_date record = Some bd ->
            projection today bd = Some p ->
            0 <= days_between p today <= days ->
            5 <= weekday p ->
            exists c,
              mkEntry (value (name record)) (date_to_string c) ∈ l
              /\ weekday c = 0
              /\ days_between c today = days_between p today + (7 - weekday p)
              /\ days_between p today < days_between c today <= days + 2)
  /\ (exists c,
        get_upcoming_birthdays (book_of john) (Date 2024 6 10) 5
        = Ok [mkEntry (lit "John") (date_to_string c)]
        /\ days_between c (Date 2024 6 10) = 5 + 2).
Proof.
  split; [|exists (Date 2024 6 17); vm_compute; split; reflexivity].
  intros self today days Hs. eexists. split.
  - apply get_upcoming_birthdays_schedulable. exact Hs.
  - intros record bd p Hin Hbd Hp Hwin H5.
    pose proof (projection_valid _ _ _ Hp) as Hv.
    destruct (adjust_for_weekend_Ok p Hv) as (_ & Hwd & Hord).
    pose proof (weekday_range p) as Hw.
    destruct (Z.leb_spec 5 (weekday p)); [|lia].
    exists (congratulation_date p). split; [|split; [|split]].
    + apply list_elem_of_omap. exists record. split; [exact Hin|].
      unfold upcoming_entry. rewrite Hbd, Hp.
      destruct (Z.leb_spec 0 (days_between p today)); [|lia].
      destruct (Z.leb_spec (days_between p today) days); [|lia]. reflexivity.
    + unfold weekday in *. rewrite Hord. Z.div_mod_to_equations. lia.
    + unfold days_between. lia.
    + unfold days_between in *. lia.
Qed.

Lemma weekend_shift_after_window_check_witness :
  exists l, get_upcoming_birthdays (book_of john) (Date 2024 6 10) 5 = Ok l.
Proof.
  destruct weekend_shift_after_window_check as [H _].
  destruct (H (book_of john) (Date 2024 6 10) 5) as (l & Hl & _);
    [vm_compute; reflexivity|].
  exists l. exact Hl.
Defined.

(** C9 (the code fails here). In the book of John, born 15.06.2024,
    and Ann, born 29.02.2024, with today = 10.06.2025 and a window of
    5 days, John's projected birthday, 15.06.2025, is a Sunday on the
    last day of the window; yet he is not listed: the loop ends with
    the [ValueError] that [date.replace] raises on Ann's birthday.
    In the book without Ann he is listed with Monday 16.06.2025, 6
    days after today. *)
Theorem weekend_member_not_listed :
  book_wf john_and_ann = true
  /\ find john_and_ann (lit "John") = Some john
  /\ birthday_date john = Some (Date 2024 6 15)
  /\ projection (Date 2025 6 10) (Date 2024 6 15) = Some (Date 2025 6 15)
  /\ weekday (Date 2025 6 15) = 6
  /\ days_between (Date 2025 6 15) (Date 2025 6 10) = 5
  /\ get_upcoming_birthdays john_and_ann (Date 2025 6 10) 5
     = Raise (Exc ValueError "day is out of range for month")
  /\ get_upcoming_birthdays (book_of john) (Date 2025 6 10) 5
     = Ok [mkEntry (lit "John") (lit "16.06.2025")]
  /\ days_between (Date 2025 6 16) (Date 2025 6 10) = 6.
Proof. vm_compute. repeat split. Qed.

(** * Validators, records and the address book *)

(** * C4 *)

(** C4 (as the code has it). [Birthday(raw)] succeeds exactly when
    [raw] is [D.M.Y] with [D] a day written with one or two digits (a
    single digit may be preceded by [0] or by a blank), [M] a month
    written with one or two digits, [Y] four decimal digits, and the
    three numbers form a date of the calendar with a year of at least
    1; every other text fails with
    [ValueError("Invalid date format. Use DD.MM.YYYY")]. Every
    zero-padded [DD.MM.YYYY] text of a date is accepted;
    ["31.02.2024"] and ["2024.01.01"] are rejected, ["1.1.2024"] is
    accepted. *)
Theorem Birthday_init_spec (raw : pystr) :
  (Birthday_init raw = Ok (mkField raw) <->
   exists D M Y d m y,
     raw = D ++ [dot] ++ M ++ [dot] ++ Y
     /\ day_of_text D = Some d
     /\ month_of_text M = Some m
     /\ year_of_text Y = Some y
     /\ valid_date (Date y m d) = true)
  /\ (Birthday_init raw = Ok (mkField raw)
      \/ Birthday_init raw
         = Raise (Exc ValueError "Invalid date format. Use DD.MM.YYYY"))
  /\ (zero_padded_date_text raw -> Birthday_init raw = Ok (mkField raw))
  /\ Birthday_init (lit "31.02.2024")
     = Raise (Exc ValueError "Invalid date format. Use DD.MM.YYYY")
  /\ Birthday_init (lit "2024.01.01")
     = Raise (Exc ValueError "Invalid date format. Use DD.MM.YYYY")
  /\ Birthday_init (lit "1.1.2024") = Ok (mkField (lit "1.1.2024")).
Proof.
  split; [|split; [|split; [|vm_compute; repeat split]]].
  - destruct (Birthday_init_cases raw) as [(dt & Hdt & ->)|[Hno ->]].
    + split; [intros _ | reflexivity].
      apply StrptimeFacts.strptime_dmY_Ok in Hdt
        as (D & M & Y & -> & Hd & Hm & Hy & Hv).
      exists D, M, Y, (day dt), (month dt), (year dt).
      destruct dt. auto.
    + split; [discriminate|].
      intros (D & M & Y & d & m & y & -> & Hd & Hm & Hy & Hv).
      exfalso. apply (Hno (Date y m d)).
      apply StrptimeFacts.strptime_dmY_Ok. exists D, M, Y. auto.
  - destruct (Birthday_init_cases raw) as [(dt & _ & ->)|[_ ->]]; auto.
  - intros (dt & Hv & ->).
    destruct (Birthday_init_cases (padded_dmY dt)) as [(? & _ & ->)|[Hno _]];
      [reflexivity|].
    exfalso. apply (Hno dt). apply strptime_padded. exact Hv.
Qed.

Lemma Birthday_init_spec_witness :
  Birthday_init (lit "15.06.2024") = Ok (mkField (lit "15.06.2024")).
Proof.
  destruct (Birthday_init_spec (lit "15.06.2024")) as (_ & _ & H & _).
  apply H. exists (Date 2024 6 15). split; vm_compute; reflexivity.
Defined.

(** C4, as claimed, fails: ["1.1.2024"] is not a zero-padded
    [DD.MM.YYYY] text, and [Birthday] accepts it. *)
Lemma Birthday_init_accepts_unpadded :
  Birthday_init (lit "1.1.2024") = Ok (mkField (lit "1.1.2024"))
  /\ ~ zero_padded_date_text (lit "1.1.2024").
Proof.
  split; [vm_compute; reflexivity|].
  intros (dt & _ & H). apply (f_equal length) in H.
  rewrite length_padded_dmY in H. vm_compute in H. discriminate H.
Qed.

(** * C5 *)

(** C5 (as the code has it). [Phone(raw)] succeeds exactly when [raw]
    has 10 characters and each of them satisfies [str.isdigit]; the
    stored value is then [raw], and every other text fails with
    [ValueError("Phone number must contain 10 digits.")]. Ten ASCII
    digits are always accepted. *)
Theorem Phone_init_spec (raw : pystr) :
  (Phone_init raw = Ok (mkField raw) <->
   length raw = 10%nat /\ forallb Unicode.isdigit_char raw = true)
  /\ (Phone_init raw = Ok (mkField raw)
      \/ Phone_init raw
         = Raise (Exc ValueError "Phone number must contain 10 digits."))
  /\ (forall p, Phone_init raw = Ok p -> value p = raw)
  /\ (length raw = 10%nat -> forallb Unicode.ascii_digit raw = true ->
      Phone_init raw = Ok (mkField raw)).
Proof.
  destruct (Phone_init_cases raw) as [(L & Hd & E)|(Hno & E)]; rewrite E.
  - split; [split; auto|]. split; [auto|]. split; [|reflexivity].
    intros p [= <-]. reflexivity.
  - split; [split; [discriminate | intros H; contradiction]|].
    split; [auto|]. split; [discriminate|].
    intros L Ha. exfalso. apply Hno. split; [exact L|].
    rewrite List.forallb_forall in *. intros c Hc.
    apply ascii_digit_isdigit. apply Ha. exact Hc.
Qed.

Lemma Phone_init_spec_witness :
  Phone_init (lit "0123456789") = Ok (mkField (lit "0123456789")).
Proof.
  destruct (Phone_init_spec (lit "0123456789")) as (_ & _ & _ & H).
  apply H; vm_compute; reflexivity.
Defined.

(** C5, as claimed, fails: a text of ten ARABIC-INDIC DIGIT ZERO
    characters holds no ASCII digit, and [Phone] accepts it. *)
Lemma Phone_init_accepts_non_ascii_digits :
  Phone_init arabic_zeros = Ok (mkField arabic_zeros)
  /\ ~ (length arabic_zeros = 10%nat
        /\ forallb Unicode.ascii_digit arabic_zeros = true).
Proof.
  split; [vm_compute; reflexivity|]. intros [_ H]. vm_compute in H.
  discriminate H.
Qed.

(** * C6 *)

(** C6. When the record holds a phone equal to [old], [edit_phone]
    finds the first one, at position [i]: with a valid [new] the phone
    at [i] becomes [new] and nothing else of the record changes; with
    an invalid [new] the call ends with the validator's error. When no
    phone equals [old] the call ends with
    [ValueError("Old phone number not found")]. After a failed call
    the record is what it was. *)
Theorem edit_phone_spec (r : Record_) (old new : pystr) :
  ((exists p, p ∈ phones r /\ value p = old) ->
   exists i,
     first_at (phones r) old i
     /\ (forall pn, Phone_init new = Ok pn ->
         exists r',
           edit_phone old new r = (r', Ok tt)
           /\ name r' = name r /\ birthday r' = birthday r
           /\ length (phones r') = length (phones r)
           /\ phones r' !! i = Some (mkField new)
           /\ forall j, j <> i -> phones r' !! j = phones r !! j)
     /\ (forall e, Phone_init new = Raise e ->
         edit_phone old new r = (r, Raise e)))
  /\ ((forall p, p ∈ phones r -> value p <> old) ->
      edit_phone old new r
      = (r, Raise (Exc ValueError "Old phone number not found"))).
Proof.
  split; [|apply edit_phone_missing].
  intros Hex. destruct (find_phone_in_Some _ _ Hex) as (i & _ & _ & Hi).
  exists i. split; [exact Hi|].
  rewrite (edit_phone_found r old new i Hi Hex). split.
  - intros pn Hpn. rewrite Hpn.
    assert (pn = mkField new) as ->.
    { destruct (Phone_init_cases new) as [(_ & _ & E)|(_ & E)];
        rewrite E in Hpn; [congruence | discriminate]. }
    eexists. split; [reflexivity|]. simpl.
    split; [reflexivity|]. split; [reflexivity|].
    split; [apply length_insert|]. split.
    + apply list_lookup_insert_eq. destruct Hi as [Hi _].
      apply lookup_lt_Some in Hi. exact Hi.
    + intros j Hj. apply list_lookup_insert_ne. congruence.
  - intros e He. rewrite He. reflexivity.
Qed.

Lemma edit_phone_spec_witness :
  exists r',
    edit_phone (lit "5555555555") (lit "9876543210") two_phones = (r', Ok tt)
    /\ phones r'
       = [mkField (lit "0123456789"); mkField (lit "9876543210")].
Proof.
  destruct (edit_phone_spec two_phones (lit "5555555555") (lit "9876543210"))
    as [H _].
  destruct H as (i & Hi & Hok & _).
  { exists (mkField (lit "5555555555")). split; [|reflexivity].
    right. left. }
  destruct (Hok (mkField (lit "9876543210"))) as (r' & Hr' & _);
    [vm_compute; reflexivity|].
  exists r'. split; [exact Hr'|].
  vm_compute in Hr'. injection Hr' as <-. reflexivity.
Defined.

(** * C8 *)

(** C8 (as the code has it). When no phone of the record equals the
    argument, [remove_phone] ends with
    [ValueError("Phone number not found")] and [edit_phone] with
    [ValueError("Old phone number not found")], the record being left
    as it was. These are exceptions of the class of the validation
    errors, [ValueError]; the error handler of the commands turns both
    into their message. *)
Theorem phone_miss_errors (r : Record_) (phone new : pystr) :
  (forall p, p ∈ phones r -> value p <> phone) ->
  remove_phone phone r
  = (r, Raise (Exc ValueError "Phone number not found"))
  /\ edit_phone phone new r
     = (r, Raise (Exc ValueError "Old phone number not found"))
  /\ (forall raw e, Phone_init raw = Raise e -> exc_type e = ValueError)
  /\ (forall raw e, Birthday_init raw = Raise e -> exc_type e = ValueError)
  /\ input_error (Raise (Exc ValueError "Phone number not found"))
     = Ok (lit "Phone number not found").
Proof.
  intros H. split; [apply remove_phone_missing; exact H|].
  split; [apply edit_phone_missing; exact H|]. split; [|split; [|reflexivity]].
  - intros raw e He.
    destruct (Phone_init_cases raw) as [(_ & _ & E)|(_ & E)];
      rewrite E in He; [discriminate|]. injection He as <-. reflexivity.
  - intros raw e He.
    destruct (Birthday_init_cases raw) as [(? & _ & E)|(_ & E)];
      rewrite E in He; [discriminate|]. injection He as <-. reflexivity.
Qed.

Lemma phone_miss_errors_witness :
  remove_phone (lit "0000000000") two_phones
  = (two_phones, Raise (Exc ValueError "Phone number not found")).
Proof.
  apply (phone_miss_errors two_phones (lit "0000000000") (lit "1111111111")).
  intros p Hp. apply elem_of_cons in Hp as [->|Hp]; [discriminate|].
  apply elem_of_cons in Hp as [->|Hp]; [discriminate|].
  apply elem_of_nil in Hp. contradiction.
Defined.

(** C8, as claimed, fails: the error of a missed [remove_phone] and
    the error of a rejected [Phone] are of one and the same kind. *)
Lemma not_found_error_kind_is_validation_error_kind :
  ~ (forall e1 e2,
       snd (remove_phone (lit "0000000000") two_phones) = Raise e1 ->
       Phone_init (lit "abc") = Raise e2 ->
       exc_type e1 <> exc_type e2).
Proof.
  intros H.
  apply (H (Exc ValueError "Phone number not found")
           (Exc ValueError "Phone number must contain 10 digits."));
    reflexivity.
Qed.

(** * C7 *)

(** C7. [add_record] never fails. After it, [find] with the record's
    name returns that record, and the other names are found as before.
    Adding a second record with the same name replaces the first in
    its place, so that a book without two records under one name stays
    so; the new book has none. *)
Theorem add_record_find (self : AddressBook) (record : Record_) :
  exists self',
    add_record record self = (self', Ok tt)
    /\ find self' (value (name record)) = Some record
    /\ (forall nm, nm <> value (name record) -> find self' nm = find self nm)
    /\ (forall second,
          value (name second) = value (name record) ->
          exists self'',
            add_record second self' = (self'', Ok tt)
            /\ find self'' (value (name record)) = Some second
            /\ dict_keys (data self'') = dict_keys (data self'))
    /\ (NoDup (dict_keys (data self)) -> NoDup (dict_keys (data self')))
    /\ NoDup (dict_keys (data AddressBook_init)).
Proof.
  eexists. split; [reflexivity|]. unfold find. simpl.
  split; [apply dict_get_setitem|].
  split; [intros nm Hnm; apply dict_get_setitem_ne; exact Hnm|].
  split; [|split; [apply dict_keys_setitem_NoDup | apply NoDup_nil_2]].
  intros second Hsame. eexists. split; [reflexivity|]. simpl.
  rewrite Hsame. split; [apply dict_get_setitem|].
  rewrite (dict_keys_setitem _ second).
  destruct (decide (value (name record)
                    ∈ dict_keys (dict_setitem (value (name record)) record
                                   (data self)))) as [_|Hn]; [reflexivity|].
  exfalso. apply Hn. rewrite dict_keys_setitem.
  destruct (decide (value (name record) ∈ dict_keys (data self))) as [?|?];
    [assumption|]. apply elem_of_app. right. left.
Qed.

Lemma add_record_find_witness :
  exists self'',
    add_record ann (fst (add_record john AddressBook_init)) = (self'', Ok tt)
    /\ NoDup (dict_keys (data self'')).
Proof.
  destruct (add_record_find (fst (add_record john AddressBook_init)) ann)
    as (self'' & Hadd & _ & _ & _ & Hnd & _).
  exists self''. split; [exact Hadd|]. apply Hnd.
  destruct (add_record_find AddressBook_init john)
    as (self' & Hadd' & _ & _ & _ & Hnd' & Hnil).
  rewrite Hadd'. apply Hnd'. exact Hnil.
Defined.

(** * C10 *)

(** C10. [Record(name)] is built for every text, the empty one
    included, with that text as its name, no phone and no birthday;
    [add_record] stores it under that very text, where [find] returns
    it. *)
Theorem Record_init_any_name (nm : pystr) (self : AddressBook) :
  Record_init nm = mkRecord (mkField nm) [] None
  /\ (exists self',
        add_record (Record_init nm) self = (self', Ok tt)
        /\ find self' nm = Some (Record_init nm)
        /\ nm ∈ dict_keys (data self'))
  /\ find (fst (add_record (Record_init []) AddressBook_init)) []
     = Some (Record_init [])
  /\ dict_keys (data (fst (add_record (Record_init []) AddressBook_init)))
     = [[]].
Proof.
  split; [reflexivity|]. split; [|split; reflexivity].
  eexists. split; [reflexivity|]. unfold find. simpl.
  split; [apply dict_get_setitem|].
  rewrite dict_keys_setitem.
  destruct (decide (nm ∈ dict_keys (data self))) as [?|?]; [assumption|].
  apply elem_of_app. right. left.
Qed.

Import Render Invariants.
Local Close Scope Z_scope.

(** * Record: more on its methods *)

Lemma valid_phone_init p :
  valid_phone p = true <-> Phone_init (value p) = Ok p.
Proof.
  unfold valid_phone, Phone_init. destruct p as [v]. simpl.
  destruct ((length v =? 10)%nat && Unicode.isdigit v); split;
    try discriminate; reflexivity.
Qed.

Lemma Phone_init_valid raw p : Phone_init raw = Ok p -> p = mkField raw /\ valid_phone p = true.
Proof.
  intros H. assert (p = mkField raw) as ->.
  { destruct (Phone_init_cases raw) as [(_ & _ & E)|(_ & E)];
      rewrite E in H; [congruence | discriminate]. }
  split; [reflexivity|]. apply valid_phone_init. exact H.
Qed.

Lemma find_phone_in_app_new l phone :
  find_phone_in (l ++ [mkField phone]) phone = Some (mkField phone).
Proof.
  destruct (find_phone_in_Some (l ++ [mkField phone]) phone) as (i & H & _).
  - exists (mkField phone). split; [|reflexivity].
    apply elem_of_app. right. left.
  - exact H.
Qed.

Lemma find_phone_in_app_other l q phone :
  q <> phone ->
  find_phone_in (l ++ [mkField phone]) q = find_phone_in l q.
Proof.
  intros Hne. induction l as [|p l IH]; simpl.
  - case_decide; [congruence | reflexivity].
  - case_decide; [reflexivity | exact IH].
Qed.

(** X1. [add_phone] with a text that [Phone] accepts puts it at the
    end of the phones, whether or not the record already has that
    number, and changes nothing else; [find_phone] then finds it, and
    finds every other number as before. With a text that [Phone]
    rejects it ends with the validator's error and the record is what
    it was. *)
Theorem add_phone_spec (r : Record_) (phone : pystr) :
  (forall p, Phone_init phone = Ok p ->
     exists r',
       add_phone phone r = (r', Ok tt)
       /\ phones r' = phones r ++ [mkField phone]
       /\ name r' = name r /\ birthday r' = birthday r
       /\ find_phone r' phone
          = Some (match find_phone r phone with
                  | Some first => first
                  | None => mkField phone
                  end)
       /\ forall q, q <> phone -> find_phone r' q = find_phone r q)
  /\ (forall e, Phone_init phone = Raise e -> add_phone phone r = (r, Raise e)).
Proof.
  unfold add_phone, Method.bind, Method.eval, Method.get, Method.put. split.
  - intros p Hp. apply Phone_init_valid in Hp as Hp'. destruct Hp' as [-> _].
    rewrite Hp. eexists. split; [reflexivity|]. simpl.
    split; [reflexivity|]. split; [reflexivity|]. split; [reflexivity|].
    unfold find_phone. simpl. split.
    + destruct (find_phone_in (phones r) phone) as [first|] eqn:E.
      * clear Hp. induction (phones r) as [|x l IH]; simpl in *; [discriminate|].
        case_decide; [exact E | apply IH; exact E].
      * clear Hp. induction (phones r) as [|x l IH]; simpl in *.
        -- case_decide; [reflexivity | congruence].
        -- case_decide; [discriminate | apply IH; exact E].
    + intros q Hq. apply find_phone_in_app_other. exact Hq.
  - intros e He. rewrite He. reflexivity.
Qed.

Lemma add_phone_spec_witness :
  exists r',
    add_phone (lit "0123456789") two_phones = (r', Ok tt)
    /\ length (phones r') = 3%nat.
Proof.
  destruct (add_phone_spec two_phones (lit "0123456789")) as [H _].
  destruct (H (mkField (lit "0123456789"))) as (r' & Hr' & Hp & _);
    [vm_compute; reflexivity|].
  exists r'. split; [exact Hr'|]. rewrite Hp. reflexivity.
Defined.

Lemma find_phone_in_found (l : list Phone) phone p :
  find_phone_in l phone = Some p -> p ∈ l /\ value p = phone.
Proof.
  induction l as [|x l IH]; simpl; [discriminate|].
  case_decide as E.
  - intros [= <-]. split; [left | exact E].
  - intros H. destruct (IH H) as [Hin Hv]. split; [right; exact Hin | exact Hv].
Qed.

(** X2. [find_phone] returns the first phone whose text is the
    argument, and [None] exactly when no phone has that text. *)
Theorem find_phone_spec (r : Record_) (phone : pystr) :
  (find_phone r phone = None <-> forall p, p ∈ phones r -> value p <> phone)
  /\ (forall p, find_phone r phone = Some p ->
      value p = phone
      /\ exists i, first_at (phones r) phone i /\ phones r !! i = Some p).
Proof.
  unfold find_phone. split; [apply find_phone_in_None|].
  intros p Hp.
  destruct (find_phone_in_Some (phones r) phone) as (i & Hf & _ & Hi).
  - exists p. exact (find_phone_in_found _ _ _ Hp).
  - rewrite Hf in Hp. injection Hp as <-. split; [reflexivity|].
    exists i. split; [exact Hi | apply Hi].
Qed.

Lemma find_phone_spec_witness :
  exists i, first_at (phones two_phones) (lit "5555555555") i.
Proof.
  destruct (find_phone_spec two_phones (lit "5555555555")) as [_ H].
  destruct (H (mkField (lit "5555555555"))) as [_ (i & Hi & _)];
    [vm_compute; reflexivity|].
  exists i. exact Hi.
Defined.

(** X3. [remove_phone] with the text of a phone of the record removes
    the first phone with that text and only that one: the phones
    before it stay where they were, the later ones move up by one, and
    the name and the birthday are unchanged. *)
Theorem remove_phone_found (r : Record_) (phone : pystr) :
  (exists p, p ∈ phones r /\ value p = phone) ->
  exists i r',
    first_at (phones r) phone i
    /\ remove_phone phone r = (r', Ok tt)
    /\ name r' = name r /\ birthday r' = birthday r
    /\ S (length (phones r')) = length (phones r)
    /\ (forall j, (j < i)%nat -> phones r' !! j = phones r !! j)
    /\ (forall j, (i <= j)%nat -> phones r' !! j = phones r !! S j).
Proof.
  intros Hex. destruct (find_phone_in_Some _ _ Hex) as (i & Hf & _ & Hi).
  exists i. eexists. split; [exact Hi|].
  unfold remove_phone, Method.bind, Method.get, Method.eval, Method.put,
    find_phone.
  rewrite Hf, (list_remove_first _ _ _ Hi). split; [reflexivity|]. simpl.
  split; [reflexivity|]. split; [reflexivity|].
  destruct Hi as [Hi _]. pose proof (lookup_lt_Some _ _ _ Hi) as Hlt.
  split; [rewrite length_delete by eauto; unfold Phone in *; lia|].
  split; intros j Hj.
  - apply list_lookup_delete_lt. exact Hj.
  - apply list_lookup_delete_ge. exact Hj.
Qed.

Lemma remove_phone_found_witness :
  exists r',
    remove_phone (lit "0123456789") two_phones = (r', Ok tt)
    /\ phones r' = [mkField (lit "5555555555")].
Proof.
  destruct (remove_phone_found two_phones (lit "0123456789"))
    as (i & r' & _ & Hr' & _).
  { exists (mkField (lit "0123456789")). split; [left | reflexivity]. }
  exists r'. split; [exact Hr'|].
  vm_compute in Hr'. injection Hr' as <-. reflexivity.
Defined.

Lemma Record_eta (r : Record_) :
  mkRecord (name r) (phones r) (birthday r) = r.
Proof. destruct r. reflexivity. Qed.

Lemma list_remove_app_new (l : list Phone) phone :
  (forall p : Phone, p ∈ l -> value p <> phone) ->
  list_remove (mkField phone) (l ++ [mkField phone : Phone]) = Ok l.
Proof.
  induction l as [|x l IH]; intros H; simpl.
  - case_decide; [reflexivity | congruence].
  - case_decide as E.
    + exfalso. apply (H x); [left | rewrite E; reflexivity].
    + rewrite IH; [reflexivity|]. intros p Hp. apply H. right. exact Hp.
Qed.

(** X4. Adding a number that the record does not have and removing it
    again gives the record back as it was. *)
Theorem add_then_remove_phone (r : Record_) (phone : pystr) :
  (forall p, p ∈ phones r -> value p <> phone) ->
  length phone = 10%nat -> forallb Unicode.isdigit_char phone = true ->
  (_ <- add_phone phone ;; remove_phone phone) r = (r, Ok tt).
Proof.
  intros Hnew L D.
  destruct (Phone_init_cases phone) as [(_ & _ & E)|(Hno & _)];
    [|exfalso; apply Hno; auto].
  unfold add_phone, remove_phone, Method.bind, Method.eval, Method.get,
    Method.put, find_phone. rewrite E. simpl.
  rewrite find_phone_in_app_new. simpl.
  rewrite (list_remove_app_new _ _ Hnew).
  unfold set_phones. simpl. rewrite Record_eta. reflexivity.
Qed.

Lemma add_then_remove_phone_witness :
  (_ <- add_phone (lit "1112223334") ;; remove_phone (lit "1112223334"))
    two_phones
  = (two_phones, Ok tt).
Proof.
  apply add_then_remove_phone; [|vm_compute; reflexivity..].
  intros p Hp. apply elem_of_cons in Hp as [->|Hp]; [discriminate|].
  apply elem_of_cons in Hp as [->|Hp]; [discriminate|].
  apply elem_of_nil in Hp. contradiction.
Defined.

Lemma Birthday_init_valid raw b :
  Birthday_init raw = Ok b -> b = mkField raw /\ valid_birthday b = true.
Proof.
  intros H. destruct (Birthday_init_cases raw) as [(dt & Hdt & E)|(_ & E)];
    rewrite E in H; [|discriminate].
  injection H as <-. split; [reflexivity|].
  unfold valid_birthday. simpl. rewrite Hdt. reflexivity.
Qed.

Lemma forallb_delete {A} (f : A -> bool) l i :
  forallb f l = true -> forallb f (delete i l) = true.
Proof.
  rewrite !List.forallb_forall. intros H x Hx. apply H.
  apply list_elem_of_In. apply list_elem_of_In in Hx.
  exact (elem_of_sublist _ _ _ Hx (sublist_delete l i)).
Qed.

Lemma forallb_insert {A} (f : A -> bool) l i x :
  forallb f l = true -> f x = true -> forallb f (<[i := x]> l) = true.
Proof.
  revert i. induction l as [|y l IH]; intros i H Hx; [reflexivity|].
  simpl in H. apply andb_prop in H as [Hy H].
  destruct i as [|i]; simpl; rewrite ?Hx, ?Hy; simpl; auto.
Qed.

Lemma list_index_lookup x l i :
  list_index x l = Ok i -> l !! i = Some x.
Proof.
  revert i. induction l as [|y l IH]; intros i; simpl; [discriminate|].
  case_decide as E; [intros [= <-]; rewrite E; reflexivity|].
  destruct (list_index x l) as [j|]; simpl; [|discriminate].
  intros [= <-]. simpl. apply IH. reflexivity.
Qed.

Lemma list_remove_forallb (f : Phone -> bool) x l l' :
  list_remove x l = Ok l' -> forallb f l = true -> forallb f l' = true.
Proof.
  revert l'. induction l as [|y l IH]; intros l'; simpl; [discriminate|].
  case_decide as E.
  - intros [= <-] H. apply andb_prop in H as [_ H]. exact H.
  - destruct (list_remove x l) as [r|]; simpl; [|discriminate].
    intros [= <-] H. apply andb_prop in H as [Hy H]. simpl.
    rewrite Hy. simpl. apply IH; [reflexivity | exact H].
Qed.

(** X5. A new record holds only phones that [Phone] accepts and a
    birthday that [strptime] parses, and every method of [Record]
    keeps it so, whatever its arguments and whether it returns or
    raises. *)
Theorem record_wf_invariant (r : Record_) :
  (forall nm, record_wf (Record_init nm) = true)
  /\ (record_wf r = true ->
      forall a b,
        record_wf (fst (add_phone a r)) = true
        /\ record_wf (fst (remove_phone a r)) = true
        /\ record_wf (fst (edit_phone a b r)) = true
        /\ record_wf (fst (add_birthday a r)) = true).
Proof.
  split; [reflexivity|]. unfold record_wf. intros Hwf a b.
  apply andb_prop in Hwf as [Hp Hb].
  unfold add_phone, remove_phone, edit_phone, add_birthday, Method.bind,
    Method.eval, Method.get, Method.put, Method.raise, find_phone.
  split; [|split; [|split]].
  - destruct (Phone_init a) as [p|e] eqn:E; simpl;
      [|rewrite Hp, Hb; reflexivity].
    apply Phone_init_valid in E as [_ Hv].
    rewrite forallb_app, Hp. simpl. rewrite Hv, Hb. reflexivity.
  - destruct (find_phone_in (phones r) a) as [p|]; simpl;
      [|rewrite Hp, Hb; reflexivity].
    destruct (list_remove p (phones r)) as [l|] eqn:E; simpl;
      [|rewrite Hp, Hb; reflexivity].
    rewrite (list_remove_forallb _ _ _ _ E Hp), Hb. reflexivity.
  - destruct (find_phone_in (phones r) a) as [p|]; simpl;
      [|rewrite Hp, Hb; reflexivity].
    destruct (list_index p (phones r)) as [i|]; simpl;
      [|rewrite Hp, Hb; reflexivity].
    destruct (Phone_init b) as [q|e] eqn:E; simpl;
      [|rewrite Hp, Hb; reflexivity].
    apply Phone_init_valid in E as [_ Hv].
    rewrite (forallb_insert _ _ _ _ Hp Hv), Hb. reflexivity.
  - destruct (Birthday_init a) as [d|e] eqn:E; simpl;
      [|rewrite Hp, Hb; reflexivity].
    apply Birthday_init_valid in E as [_ Hv]. rewrite Hp, Hv. reflexivity.
Qed.

Lemma record_wf_invariant_witness :
  record_wf (fst (edit_phone (lit "5555555555") (lit "abc") two_phones)) = true.
Proof.
  destruct (record_wf_invariant two_phones) as [_ H].
  destruct (H eq_refl (lit "5555555555") (lit "abc")) as (_ & _ & He & _).
  exact He.
Defined.

(** X6. [add_birthday] with a text that [Birthday] accepts makes it
    the birthday of the record, in place of the one it had, and keeps
    the name and the phones; with a text that [Birthday] rejects it
    ends with [ValueError("Invalid date format. Use DD.MM.YYYY")] and
    the record keeps the birthday it had. *)
Theorem add_birthday_spec (r : Record_) (text : pystr) :
  ((exists dt, strptime_dmY text = Ok dt) ->
   add_birthday text r = (set_birthday r (Some (mkField text)), Ok tt))
  /\ ((forall dt, strptime_dmY text <> Ok dt) ->
      add_birthday text r
      = (r, Raise (Exc ValueError "Invalid date format. Use DD.MM.YYYY"))).
Proof.
  unfold add_birthday, Method.bind, Method.eval, Method.get, Method.put.
  destruct (Birthday_init_cases text) as [(dt & Hdt & E)|(Hno & E)]; rewrite E.
  - split; [reflexivity|]. intros H. exfalso. exact (H dt Hdt).
  - split; [|reflexivity]. intros [dt Hdt]. exfalso. exact (Hno dt Hdt).
Qed.

Lemma add_birthday_spec_witness :
  add_birthday (lit "01.02.2000") john
  = (set_birthday john (Some (mkField (lit "01.02.2000"))), Ok tt).
Proof.
  destruct (add_birthday_spec john (lit "01.02.2000")) as [H _].
  apply H. exists (Date 2000 2 1). vm_compute. reflexivity.
Defined.

(** X7. After [edit_phone] has replaced [old] by [new], [find_phone]
    finds [new]; and when [old] was held once only and differs from
    [new], it no longer finds [old]. *)
Theorem edit_phone_then_find (r r' : Record_) (old new : pystr) :
  edit_phone old new r = (r', Ok tt) ->
  find_phone r' new = Some (mkField new)
  /\ (old <> new ->
      (forall i j, first_at (phones r) old i -> j <> i ->
                   forall q, phones r !! j = Some q -> value q <> old) ->
      find_phone r' old = None).
Proof.
  intros H.
  assert (Hex : exists p, p ∈ phones r /\ value p = old).
  { destruct (find_phone_in (phones r) old) as [p|] eqn:E.
    - exists p. exact (find_phone_in_found _ _ _ E).
    - pose proof (proj1 (find_phone_in_None _ _) E) as E'.
      rewrite (edit_phone_missing r old new E') in H. discriminate. }
  destruct (find_phone_in_Some _ _ Hex) as (i & _ & _ & Hi).
  rewrite (edit_phone_found r old new i Hi Hex) in H.
  destruct (Phone_init new) as [pn|e] eqn:E; [|discriminate].
  apply Phone_init_valid in E as [-> _]. injection H as <-.
  pose proof (lookup_lt_Some _ _ _ (proj1 Hi)) as Hlt.
  unfold find_phone. simpl. split.
  - destruct (find_phone_in_Some (<[i:=mkField new]> (phones r)) new)
      as (? & Hf & _); [|exact Hf].
    exists (mkField new). split; [|reflexivity].
    apply list_elem_of_lookup. exists i. apply list_lookup_insert_eq. exact Hlt.
  - intros Hne Honce. apply find_phone_in_None. intros p Hp.
    apply list_elem_of_lookup in Hp as [j Hj].
    destruct (decide (j = i)) as [->|Hji].
    + rewrite list_lookup_insert_eq in Hj by exact Hlt.
      injection Hj as <-. simpl. congruence.
    + rewrite list_lookup_insert_ne in Hj by congruence.
      exact (Honce i j Hi Hji p Hj).
Qed.

Lemma edit_phone_then_find_witness :
  find_phone
    (fst (edit_phone (lit "5555555555") (lit "9876543210") two_phones))
    (lit "9876543210")
  = Some (mkField (lit "9876543210")).
Proof.
  eapply (edit_phone_then_find two_phones _ (lit "5555555555")).
  vm_compute. reflexivity.
Defined.

(** * AddressBook: more on [add_record] and [find] *)

Lemma dict_get_None {V} k (d : dict V) :
  dict_get k d = None <-> k ∉ dict_keys d.
Proof.
  unfold dict_keys. induction d as [|[k' v'] d IH]; csimpl.
  - split; [intros _ H; apply elem_of_nil in H; contradiction | reflexivity].
  - case_decide as E.
    + split; [discriminate|]. intros H. exfalso. apply H. rewrite E. left.
    + rewrite IH. split.
      * intros H Hin. apply elem_of_cons in Hin as [->|Hin]; [congruence | auto].
      * intros H Hin. apply H. right. exact Hin.
Qed.

Lemma dict_setitem_fresh {V} k (v : V) d :
  k ∉ dict_keys d -> dict_setitem k v d = d ++ [(k, v)].
Proof.
  unfold dict_keys. induction d as [|[k' v'] d IH]; csimpl; intros H;
    [reflexivity|].
  case_decide as E.
  - exfalso. apply H. rewrite E. left.
  - rewrite IH; [reflexivity|]. intros Hin. apply H. right. exact Hin.
Qed.

Lemma dict_setitem_lookup {V} k (v : V) d i k0 v0 :
  NoDup (dict_keys d) ->
  d !! i = Some (k0, v0) ->
  dict_setitem k v d !! i = Some (k0, if decide (k0 = k) then v else v0).
Proof.
  unfold dict_keys. revert i.
  induction d as [|[k' v'] d IH]; intros i Hnd Hi; [discriminate|].
  csimpl in Hnd. apply NoDup_cons in Hnd as [Hk' Hnd].
  simpl. destruct i as [|i]; simpl in Hi.
  - injection Hi as -> ->. case_decide; reflexivity.
  - destruct (decide (k' = k)) as [->|E]; simpl; [|apply IH; assumption].
    rewrite Hi. f_equal. f_equal. case_decide as E'; [|reflexivity].
    subst k0. exfalso. apply Hk'. apply list_elem_of_fmap.
    exists (k, v0). split; [reflexivity|]. apply list_elem_of_lookup. eauto.
Qed.

Lemma book_wf_add_record self record :
  book_wf self = true -> book_wf (fst (add_record record self)) = true.
Proof.
  unfold book_wf. simpl. intros H. apply andb_prop in H as [Hnd Hk].
  apply bool_decide_eq_true in Hnd.
  apply andb_true_intro. split.
  - apply bool_decide_eq_true. apply dict_keys_setitem_NoDup. exact Hnd.
  - clear Hnd. induction (data self) as [|[k r] d IH]; simpl in *.
    + rewrite bool_decide_eq_true_2 by reflexivity. reflexivity.
    + apply andb_prop in Hk as [Hk1 Hk].
      destruct (decide (k = value (name record))) as [E|E]; simpl;
        apply andb_true_intro; split.
      * apply bool_decide_eq_true. simpl. exact E.
      * exact Hk.
      * exact Hk1.
      * apply IH. exact Hk.
Qed.

Lemma add_all_snoc records record book :
  add_all (records ++ [record]) book
  = fst (add_record record (add_all records book)).
Proof. unfold add_all. rewrite foldl_app. reflexivity. Qed.

(** X8. A book filled by [add_record], in any number and order of
    calls and starting from the empty book, holds every record under
    its own name and no two records under one name; [find] with a name
    returns the record added last under that name, and [None] when
    none was added. *)
Theorem add_all_find (records : list Record_) :
  book_wf (add_all records AddressBook_init) = true
  /\ forall nm,
       find (add_all records AddressBook_init) nm
       = last (filter (fun r => value (name r) = nm) records).
Proof.
  induction records as [|record records IH] using rev_ind.
  - split; [reflexivity | intros nm; reflexivity].
  - destruct IH as [Hwf Hfind]. rewrite add_all_snoc. split.
    + apply book_wf_add_record. exact Hwf.
    + intros nm. rewrite filter_app. unfold find in *. simpl.
      destruct (decide (value (name record) = nm)) as [<-|Hne].
      * rewrite dict_get_setitem.
        rewrite filter_cons_True by reflexivity.
        rewrite filter_nil, last_snoc. reflexivity.
      * rewrite dict_get_setitem_ne by congruence.
        rewrite filter_cons_False by exact Hne.
        rewrite filter_nil, app_nil_r. apply Hfind.
Qed.

(** X9. [find] returns [None] exactly for the names that are not keys
    of the book; on a book that holds every record under its own
    name, whatever [find] returns for a name bears that name. *)
Theorem find_missing (self : AddressBook) (nm : pystr) :
  (find self nm = None <-> nm ∉ dict_keys (data self))
  /\ (book_wf self = true ->
      forall record, find self nm = Some record -> value (name record) = nm).
Proof.
  unfold find. split; [apply dict_get_None|].
  unfold book_wf. intros H record Hf. apply andb_prop in H as [_ Hk].
  induction (data self) as [|[k r] d IH]; simpl in *; [discriminate|].
  apply andb_prop in Hk as [Hk1 Hk]. apply bool_decide_eq_true in Hk1.
  simpl in Hk1. case_decide as E.
  - injection Hf as <-. congruence.
  - apply IH; assumption.
Qed.

Lemma find_missing_witness :
  book_wf (book_of john) = true
  /\ find (book_of john) (lit "John") = Some john
  /\ value (name john) = lit "John".
Proof.
  split; [vm_compute; reflexivity|]. split; [vm_compute; reflexivity|].
  apply (proj2 (find_missing (book_of john) (lit "John")));
    vm_compute; reflexivity.
Defined.

(** X10. [add_record] under a name the book does not have puts the
    record after all the others; under a name the book has, it
    replaces the record held under that name where it stands. In both
    cases every other record keeps its key and its place. *)
Theorem add_record_order (self : AddressBook) (record : Record_) :
  NoDup (dict_keys (data self)) ->
  let self' := fst (add_record record self) in
  (value (name record) ∉ dict_keys (data self) ->
   data self' = data self ++ [(value (name record), record)])
  /\ (value (name record) ∈ dict_keys (data self) ->
      dict_keys (data self') = dict_keys (data self))
  /\ (forall i k r,
        data self !! i = Some (k, r) ->
        data self' !! i
        = Some (k, if decide (k = value (name record)) then record else r)).
Proof.
  intros Hnd self'. subst self'. simpl. split; [apply dict_setitem_fresh|].
  split.
  - intros Hin. rewrite dict_keys_setitem. case_decide; [reflexivity|].
    contradiction.
  - intros i k r Hi. apply dict_setitem_lookup; assumption.
Qed.

Lemma add_record_order_witness :
  data (fst (add_record ann (book_of john)))
  = data (book_of john) ++ [(lit "Ann", ann)].
Proof.
  destruct (add_record_order (book_of john) ann) as [H _].
  - apply NoDup_cons. split; [|apply NoDup_nil_2].
    intros Hin. apply elem_of_nil in Hin. exact Hin.
  - apply H. intros Hin. apply elem_of_cons in Hin as [Hin|Hin];
      [discriminate | apply elem_of_nil in Hin; exact Hin].
Defined.

Local Open Scope Z_scope.

(** * The scheduler: more on [get_upcoming_birthdays] and its helpers *)

Lemma upcoming_entry_name today days record e :
  upcoming_entry today days record = Some e ->
  entry_name e = value (name record)
  /\ exists bd p,
       birthday_date record = Some bd /\ projection today bd = Some p
       /\ 0 <= days_between p today <= days
       /\ entry_birthday e = date_to_string (congratulation_date p).
Proof.
  unfold upcoming_entry.
  destruct (birthday_date record) as [bd|]; [|discriminate].
  destruct (projection today bd) as [p|] eqn:Hp; [|discriminate].
  destruct (Z.leb_spec 0 (days_between p today)); [|discriminate].
  destruct (Z.leb_spec (days_between p today) days); [|discriminate].
  simpl. intros [= <-]. split; [reflexivity|].
  exists bd, p. simpl. auto with lia.
Qed.

Lemma omap_names_sublist today days records :
  map entry_name (omap (upcoming_entry today days) records)
  `sublist_of` map (fun r => value (name r)) records.
Proof.
  induction records as [|r records IH]; csimpl; [constructor|].
  destruct (upcoming_entry today days r) as [e|] eqn:E; csimpl.
  - apply upcoming_entry_name in E as [-> _]. constructor. exact IH.
  - constructor. exact IH.
Qed.

(** X11. The list that [get_upcoming_birthdays] returns follows the
    order of the book: the names of its entries are names of records
    of the book, in the order the book holds them, each record giving
    one entry at most. *)
Theorem upcoming_birthdays_order
    (self : AddressBook) (today : date) (days : Z) :
  forallb (schedulable today) (dict_values (data self)) = true ->
  exists l,
    get_upcoming_birthdays self today days = Ok l
    /\ map entry_name l
       `sublist_of` map (fun r => value (name r)) (dict_values (data self))
    /\ (length l <= length (data self))%nat.
Proof.
  intros Hs. eexists. split; [apply get_upcoming_birthdays_schedulable, Hs|].
  split; [apply omap_names_sublist|].
  pose proof (sublist_length _ _ (omap_names_sublist today days
                                    (dict_values (data self)))) as H.
  rewrite !length_map in H. unfold dict_values in H.
  rewrite length_fmap in H. exact H.
Qed.

Lemma upcoming_birthdays_order_witness :
  exists l,
    get_upcoming_birthdays (book_of john) (Date 2024 6 10) 7 = Ok l
    /\ (length l <= 1)%nat.
Proof.
  destruct (upcoming_birthdays_order (book_of john) (Date 2024 6 10) 7)
    as (l & Hl & _ & Hlen); [vm_compute; reflexivity|].
  exists l. split; [exact Hl | exact Hlen].
Defined.

Lemma schedulable_without_birthday today record :
  birthday record = None -> schedulable today record = true.
Proof. unfold schedulable. intros ->. reflexivity. Qed.

(** X12. A book in which no record has a birthday, the empty book
    among them, has no upcoming birthday, whatever the day and the
    window; and no book has one within a window of fewer than 0
    days. *)
Theorem upcoming_birthdays_none
    (self : AddressBook) (today : date) (days : Z) :
  ((forall record, record ∈ dict_values (data self) -> birthday record = None)
   -> get_upcoming_birthdays self today days = Ok [])
  /\ (forallb (schedulable today) (dict_values (data self)) = true ->
      days < 0 -> get_upcoming_birthdays self today days = Ok []).
Proof.
  split.
  - intros Hnone. rewrite get_upcoming_birthdays_schedulable.
    + f_equal. induction (dict_values (data self)) as [|r l IH];
        [reflexivity|]. csimpl.
      unfold upcoming_entry at 1, birthday_date.
      rewrite (Hnone r) by left. apply IH. intros x Hx. apply Hnone. right.
      exact Hx.
    + apply List.forallb_forall. intros r Hr.
      apply schedulable_without_birthday, Hnone, list_elem_of_In, Hr.
  - intros Hs Hneg. rewrite get_upcoming_birthdays_schedulable by exact Hs.
    f_equal. clear Hs.
    induction (dict_values (data self)) as [|r l IH]; [reflexivity|].
    csimpl. destruct (upcoming_entry today days r) as [e|] eqn:E; [|exact IH].
    apply upcoming_entry_name in E as (_ & bd & p & _ & _ & Hw & _). lia.
Qed.

Lemma upcoming_birthdays_none_witness :
  get_upcoming_birthdays (book_of john) (Date 2024 6 10) (-1) = Ok [].
Proof.
  destruct (upcoming_birthdays_none (book_of john) (Date 2024 6 10) (-1))
    as [_ H].
  apply H; [vm_compute; reflexivity | lia].
Defined.

Lemma date_new_Raise y m d :
  valid_date (Date y m d) = false ->
  exists e, date_new y m d = Raise e /\ exc_type e = ValueError.
Proof.
  intros Hv. destruct (date_new y m d) as [dt|e] eqn:E.
  - apply StrptimeFacts.date_new_Ok in E as [_ E]. congruence.
  - exists e. split; [reflexivity|]. exact (StrptimeFacts.date_new_error _ _ _ _ E).
Qed.

(** One turn of the loop on a record that is not schedulable. *)
Lemma upcoming_step_unschedulable today days acc record :
  schedulable today record = false ->
  exists e, upcoming_step today days acc record = Raise e
            /\ exc_type e = ValueError.
Proof.
  unfold schedulable, upcoming_step, birthday_date.
  destruct (birthday record) as [b|]; [|discriminate].
  destruct (strptime_dmY (value b)) as [bd|e] eqn:E.
  - unfold projection, replace_year. simpl Py.bind.
    destruct (valid_date (Date (year today) (month bd) (day bd))) eqn:V1.
    + rewrite (proj2 (StrptimeFacts.date_new_Ok _ _ _ _) (conj eq_refl V1)).
      simpl Py.bind.
      destruct (date_lt (Date (year today) (month bd) (day bd)) today);
        [|discriminate].
      destruct (valid_date (Date (year today + 1) (month bd) (day bd))) eqn:V2;
        [discriminate|]. intros _.
      destruct (date_new_Raise _ _ _ V2) as (e & -> & He). eauto.
    + intros _. destruct (date_new_Raise _ _ _ V1) as (e & -> & He). eauto.
  - intros _. exists e. split; [reflexivity|].
    exact (StrptimeFacts.strptime_dmY_error _ _ E).
Qed.

Lemma for_each_outcome today days records : forall acc,
  (forallb (schedulable today) records = true
   /\ exists l, for_each (upcoming_step today days) records acc = Ok l)
  \/ (forallb (schedulable today) records = false
      /\ exists e, for_each (upcoming_step today days) records acc = Raise e
                   /\ exc_type e = ValueError).
Proof.
  induction records as [|r records IH]; intros acc; simpl.
  - left. eauto.
  - destruct (schedulable today r) eqn:Hr; simpl.
    + rewrite upcoming_step_schedulable by exact Hr. simpl. apply IH.
    + right. split; [reflexivity|].
      destruct (upcoming_step_unschedulable today days acc r Hr) as (e & -> & He).
      eauto.
Qed.

(** X13. [get_upcoming_birthdays] returns a list exactly when every
    birthday of the book has a projection; when one has none the call
    ends with a [ValueError], and it never ends with another
    exception. *)
Theorem upcoming_birthdays_outcome
    (self : AddressBook) (today : date) (days : Z) :
  ((exists l, get_upcoming_birthdays self today days = Ok l)
   <-> forallb (schedulable today) (dict_values (data self)) = true)
  /\ (forall e, get_upcoming_birthdays self today days = Raise e ->
      exc_type e = ValueError).
Proof.
  unfold get_upcoming_birthdays.
  destruct (for_each_outcome today days (dict_values (data self)) [])
    as [(Hs & l & ->)|(Hs & e & -> & He)]; rewrite Hs.
  - split; [split; eauto|]. discriminate.
  - split; [split; [intros [l [=]] | discriminate]|].
    intros e' [= <-]. exact He.
Qed.

Lemma upcoming_birthdays_outcome_witness :
  exists l, get_upcoming_birthdays (book_of ann) (Date 2024 2 25) 7 = Ok l.
Proof.
  destruct (upcoming_birthdays_outcome (book_of ann) (Date 2024 2 25) 7)
    as [[_ H] _].
  apply H. vm_compute. reflexivity.
Defined.

Lemma upcoming_birthdays_outcome_aux self today days l :
  get_upcoming_birthdays self today days = Ok l ->
  forallb (schedulable today) (dict_values (data self)) = true
  /\ l = omap (upcoming_entry today days) (dict_values (data self)).
Proof.
  intros Hl. unfold get_upcoming_birthdays in Hl.
  destruct (for_each_outcome today days (dict_values (data self)) [])
    as [(Hs & _)|(_ & e & He & _)]; [|rewrite He in Hl; discriminate Hl].
  split; [exact Hs|].
  rewrite for_each_schedulable in Hl by exact Hs.
  injection Hl as <-. reflexivity.
Qed.

Lemma congratulation_date_valid p :
  valid_date p = true -> valid_date (congratulation_date p) = true.
Proof.
  intros Hv. unfold congratulation_date.
  destruct (Z.leb_spec 5 (weekday p)) as [H5|H5]; [|exact Hv].
  pose proof (weekday_range p) as Hw.
  pose proof (toordinal_bounds p Hv) as Hb.
  apply toordinal_ord2ymd. unfold weekday, MAXORDINAL in *.
  Z.div_mod_to_equations. lia.
Qed.

Lemma valid_date_other_year bd y :
  valid_date bd = true -> 1 <= y <= 9999 ->
  negb ((month bd =? 2) && (day bd =? 29)) = true ->
  valid_date (Date y (month bd) (day bd)) = true.
Proof.
  intros Hv Hy Hn. apply valid_date_fields in Hv as (_ & Hm & Hd).
  unfold valid_date, MINYEAR, MAXYEAR. simpl.
  assert (day bd <= days_in_month y (month bd)).
  { unfold days_in_month in *.
    destruct (Z.eqb_spec (month bd) 2) as [E|E]; simpl in *.
    - rewrite E in *. destruct (Z.eqb_spec (day bd) 29); [discriminate|].
      destruct (is_leap (year bd)), (is_leap y); eval_items; lia.
    - exact (proj2 Hd). }
  repeat (apply andb_true_intro; split); lia.
Qed.

Lemma no_leap_day_schedulable today record :
  valid_date today = true -> year today < 9999 ->
  no_leap_day record = true -> schedulable today record = true.
Proof.
  intros Hv Hy. unfold no_leap_day, schedulable, birthday_date.
  destruct (birthday record) as [b|]; [|reflexivity].
  destruct (strptime_dmY (value b)) as [bd|] eqn:E; [|discriminate].
  intros Hn. apply StrptimeFacts.strptime_dmY_Ok in E
    as (_ & _ & _ & _ & _ & _ & _ & Hbd).
  apply valid_date_fields in Hv as (Hty & _).
  unfold projection.
  rewrite (valid_date_other_year bd (year today) Hbd) by (assumption || lia).
  rewrite (valid_date_other_year bd (year today + 1) Hbd) by (assumption || lia).
  destruct (date_lt _ today); reflexivity.
Qed.

(** X15. When no birthday of the book is a 29 February and today is
    before the year 9999, [get_upcoming_birthdays] returns a list. *)
Theorem upcoming_birthdays_total
    (self : AddressBook) (today : date) (days : Z) :
  valid_date today = true -> year today < 9999 ->
  forallb no_leap_day (dict_values (data self)) = true ->
  exists l, get_upcoming_birthdays self today days = Ok l.
Proof.
  intros Hv Hy Hn. eexists. apply get_upcoming_birthdays_schedulable.
  rewrite List.forallb_forall in *. intros r Hr.
  apply no_leap_day_schedulable; auto.
Qed.

Lemma upcoming_birthdays_total_witness :
  exists l, get_upcoming_birthdays (book_of john) (Date 2025 1 10) 7 = Ok l.
Proof.
  apply upcoming_birthdays_total; [vm_compute; reflexivity | simpl; lia |
                                   vm_compute; reflexivity].
Defined.

(** X16. [adjust_for_weekend] returns a day from Monday to Friday that
    is the day given or one of the two days after it, and applied to
    its own result it changes nothing. *)
Theorem adjust_for_weekend_idempotent (d : date) :
  valid_date d = true ->
  exists c,
    adjust_for_weekend d = Ok c
    /\ adjust_for_weekend c = Ok c
    /\ valid_date c = true
    /\ weekday c < 5
    /\ 0 <= days_between c d <= 2.
Proof.
  intros Hv. destruct (adjust_for_weekend_Ok d Hv) as (Hadj & Hwd & Hord).
  pose proof (weekday_range d) as Hr.
  exists (congratulation_date d). split; [exact Hadj|]. split.
  - unfold adjust_for_weekend at 1.
    destruct (Z.leb_spec 5 (weekday (congratulation_date d))); [lia|].
    reflexivity.
  - split; [apply congratulation_date_valid, Hv|]. split; [exact Hwd|].
    unfold days_between. destruct (Z.leb_spec 5 (weekday d)); lia.
Qed.

Lemma adjust_for_weekend_idempotent_witness :
  exists c, adjust_for_weekend (Date 2024 6 16) = Ok c
            /\ adjust_for_weekend c = Ok c.
Proof.
  destruct (adjust_for_weekend_idempotent (Date 2024 6 16))
    as (c & H1 & H2 & _); [vm_compute; reflexivity|].
  exists c. split; [exact H1 | exact H2].
Defined.

(** X17. For every weekday [target] from 0 to 6, [find_next_weekday]
    moves forward by [(target - weekday - 1) mod 7 + 1] days, that is
    by 1 to 7 days and never by 0: it returns the first day after the
    day given that falls on [target], as long as that day is not
    after 31.12.9999. *)
Theorem find_next_weekday_target (start : date) (target : Z) :
  valid_date start = true -> 0 <= target <= 6 ->
  let k := (target - weekday start - 1) mod 7 + 1 in
  1 <= k <= 7
  /\ find_next_weekday start target = add_days start k
  /\ (toordinal start + k <= MAXORDINAL ->
      exists c,
        find_next_weekday start target = Ok c
        /\ weekday c = target
        /\ days_between c start = k
        /\ valid_date c = true)
  /\ (MAXORDINAL < toordinal start + k ->
      find_next_weekday start target
      = Raise (Exc OverflowError "date value out of range")).
Proof.
  intros Hv Ht k. pose proof (weekday_range start) as Hw.
  pose proof (toordinal_bounds start Hv) as Hb.
  assert (Hk : (if target - weekday start <=? 0
                then target - weekday start + 7
                else target - weekday start) = k).
  { subst k. destruct (Z.leb_spec (target - weekday start) 0);
      Z.div_mod_to_equations; lia. }
  assert (Hrange : 1 <= k <= 7) by (subst k; Z.div_mod_to_equations; lia).
  split; [exact Hrange|].
  rewrite find_next_weekday_shift, Hk. split; [reflexivity|]. split.
  - intros Hmax.
    destruct (add_days_Ok start k Hv) as (c & Hc & _ & Ho & Hvc); [lia | exact Hmax|].
    exists c. split; [exact Hc|]. unfold days_between.
    split; [|split; [lia | exact Hvc]].
    unfold weekday in *. rewrite Ho. subst k. Z.div_mod_to_equations. lia.
  - intros Hover. unfold add_days.
    destruct (Z.leb_spec (toordinal start + k) MAXORDINAL); [lia|].
    rewrite andb_false_r. reflexivity.
Qed.

Lemma find_next_weekday_target_witness :
  exists c, find_next_weekday (Date 2024 6 10) 4 = Ok c /\ weekday c = 4.
Proof.
  destruct (find_next_weekday_target (Date 2024 6 10) 4)
    as (_ & _ & H & _); [vm_compute; reflexivity | lia |].
  destruct H as (c & Hc & Hw & _); [vm_compute; discriminate|].
  exists c. split; [exact Hc | exact Hw].
Defined.

(** Day of the year, the leap day counted or not. *)
Lemma day_of_year_order (leap : bool) m1 d1 m2 d2 :
  1 <= m1 <= 12 -> 1 <= m2 <= 12 ->
  1 <= d1 <= (if (m1 =? 2) && leap then 29 else item DAYS_IN_MONTH m1) ->
  1 <= d2 <= (if (m2 =? 2) && leap then 29 else item DAYS_IN_MONTH m2) ->
  let yday m d :=
    item DAYS_BEFORE_MONTH m + (if (2 <? m) && leap then 1 else 0) + d in
  (m1 < m2 \/ (m1 = m2 /\ d1 < d2) -> yday m1 d1 < yday m2 d2)
  /\ 1 <= yday m1 d1 <= (if leap then 366 else 365).
Proof.
  intros H1 H2 Hd1 Hd2 yday. subst yday. cbv beta.
  apply month_cases in H1. apply month_cases in H2.
  repeat (destruct H1 as [->|H1]); try subst m1;
    repeat (destruct H2 as [->|H2]); try subst m2;
    destruct leap; simpl in *; eval_items; lia.
Qed.

Lemma days_before_next_year y :
  days_before_year (y + 1) = days_before_year y + (if is_leap y then 366 else 365).
Proof.
  unfold days_before_year, is_leap.
  replace (y + 1 - 1) with y by lia.
  repeat match goal with
    | |- context [?a =? ?b] => destruct (Z.eqb_spec a b); simpl
    end; Z.div_mod_to_equations; lia.
Qed.

Lemma days_before_year_mono y1 y2 :
  y1 <= y2 -> days_before_year y1 <= days_before_year y2.
Proof.
  intros H. unfold days_before_year. Z.div_mod_to_equations. lia.
Qed.

Lemma toordinal_in_year d :
  valid_date d = true ->
  days_before_year (year d) < toordinal d <= days_before_year (year d + 1).
Proof.
  intros Hv. apply valid_date_fields in Hv as (_ & Hm & Hd).
  rewrite days_before_next_year.
  unfold toordinal, ymd2ord, days_before_month, days_in_month in *.
  destruct (day_of_year_order (is_leap (year d)) (month d) (day d)
              (month d) (day d) Hm Hm Hd Hd) as [_ H].
  lia.
Qed.

Lemma date_lt_toordinal d1 d2 :
  valid_date d1 = true -> valid_date d2 = true ->
  (date_lt d1 d2 = true -> toordinal d1 < toordinal d2)
  /\ (date_lt d1 d2 = false -> toordinal d2 <= toordinal d1).
Proof.
  intros Hv1 Hv2.
  pose proof (toordinal_in_year d1 Hv1) as B1.
  pose proof (toordinal_in_year d2 Hv2) as B2.
  apply valid_date_fields in Hv1 as (_ & Hm1 & Hd1).
  apply valid_date_fields in Hv2 as (_ & Hm2 & Hd2).
  unfold date_lt.
  destruct (Z.ltb_spec (year d1) (year d2)) as [Hy|Hy]; simpl.
  - split; [intros _ | discriminate].
    pose proof (days_before_year_mono (year d1 + 1) (year d2)). lia.
  - destruct (Z.eqb_spec (year d1) (year d2)) as [Ey|Ey]; simpl.
    + unfold toordinal, ymd2ord, days_before_month, days_in_month in *.
      rewrite Ey in *.
      destruct (day_of_year_order (is_leap (year d2)) (month d1) (day d1)
                  (month d2) (day d2) Hm1 Hm2 Hd1 Hd2) as [H12 _].
      destruct (day_of_year_order (is_leap (year d2)) (month d2) (day d2)
                  (month d1) (day d1) Hm2 Hm1 Hd2 Hd1) as [H21 _].
      destruct (Z.ltb_spec (month d1) (month d2)); simpl.
      * split; [intros _; specialize (H12 ltac:(lia)); lia | discriminate].
      * destruct (Z.eqb_spec (month d1) (month d2)) as [Em|Em]; simpl.
        -- destruct (Z.ltb_spec (day d1) (day d2)).
           ++ split; [intros _; specialize (H12 ltac:(lia)); lia | discriminate].
           ++ split; [discriminate | intros _].
              destruct (Z.eq_dec (day d1) (day d2)) as [Ed|Ed].
              ** rewrite Em, Ed. lia.
              ** specialize (H21 ltac:(lia)). lia.
        -- split; [discriminate | intros _].
           specialize (H21 ltac:(lia)). lia.
    + split; [discriminate | intros _].
      pose proof (days_before_year_mono (year d2 + 1) (year d1)). lia.
Qed.

(** X18. The projected birthday is never before today and at most 366
    days after it, so the lower test of the window never excludes a
    record: a record is listed exactly when its projected birthday is
    at most [days] days away. *)
Theorem projection_not_before_today (today bd p : date) (days : Z)
    (record : Record_) :
  valid_date today = true ->
  birthday_date record = Some bd ->
  projection today bd = Some p ->
  0 <= days_between p today <= 366
  /\ (is_Some (upcoming_entry today days record)
      <-> days_between p today <= days)
  /\ forall upcoming_birthdays,
       upcoming_step today days upcoming_birthdays record
       = Ok (if days_between p today <=? days
             then upcoming_birthdays
                    ++ [mkEntry (value (name record))
                          (date_to_string (congratulation_date p))]
             else upcoming_birthdays).
Proof.
  intros Hv Hbd Hp. pose proof (projection_valid _ _ _ Hp) as Hvp.
  assert (Hrange : 0 <= days_between p today <= 366).
  { unfold projection in Hp. unfold days_between.
    destruct (valid_date (Date (year today) (month bd) (day bd))) eqn:V1;
      [|discriminate].
    pose proof (toordinal_in_year today Hv) as Bt.
    pose proof (days_before_next_year (year today)) as Hn.
    destruct (date_lt (Date (year today) (month bd) (day bd)) today) eqn:L.
    - destruct (valid_date (Date (year today + 1) (month bd) (day bd)))
        eqn:V2; [|discriminate]. injection Hp as <-.
      apply (date_lt_toordinal _ _ V1 Hv) in L.
      pose proof (toordinal_in_year _ V2) as Bp. simpl in Bp.
      pose proof (toordinal_in_year _ V1) as B1. simpl in B1.
      assert (toordinal (Date (year today + 1) (month bd) (day bd))
              <= toordinal (Date (year today) (month bd) (day bd)) + 366).
      { unfold toordinal, ymd2ord, days_before_month. simpl.
        rewrite Hn.
        destruct (is_leap (year today)), (is_leap (year today + 1)),
          (2 <? month bd); simpl; lia. }
      lia.
    - injection Hp as <-.
      apply (date_lt_toordinal _ _ V1 Hv) in L.
      pose proof (toordinal_in_year _ V1) as B1. simpl in B1.
      destruct (is_leap (year today)); lia. }
  split; [exact Hrange|].
  assert (Hs : schedulable today record = true).
  { unfold schedulable. rewrite Hbd, Hp. unfold birthday_date in Hbd.
    destruct (birthday record); [reflexivity | discriminate]. }
  split.
  - unfold upcoming_entry. rewrite Hbd, Hp.
    destruct (Z.leb_spec 0 (days_between p today)); [|lia].
    destruct (Z.leb_spec (days_between p today) days); simpl;
      split; intros H'; try lia; try (destruct H' as [? [=]]); eauto.
  - intros acc. rewrite (upcoming_step_schedulable _ _ _ _ Hs).
    unfold upcoming_entry. rewrite Hbd, Hp.
    destruct (Z.leb_spec 0 (days_between p today)); [|lia].
    destruct (days_between p today <=? days); simpl;
      [reflexivity | apply f_equal, app_nil_r].
Qed.

Lemma projection_not_before_today_witness :
  0 <= days_between (Date 2024 6 15) (Date 2024 6 10) <= 366
  /\ upcoming_step (Date 2024 6 10) 7 [] john
     = Ok [mkEntry (lit "John") (lit "17.06.2024")].
Proof.
  destruct (projection_not_before_today (Date 2024 6 10) (Date 2024 6 15)
              (Date 2024 6 15) 7 john) as (H1 & _ & H2);
    [vm_compute; reflexivity..|].
  split; [exact H1 | exact (H2 [])].
Defined.

Lemma year_le_of_toordinal d1 d2 :
  valid_date d1 = true -> valid_date d2 = true ->
  toordinal d1 <= toordinal d2 -> year d1 <= year d2.
Proof.
  intros H1 H2 Ho.
  pose proof (toordinal_in_year d1 H1) as B1.
  pose proof (toordinal_in_year d2 H2) as B2.
  destruct (Z.le_gt_cases (year d1) (year d2)) as [Hle|Hgt]; [exact Hle|].
  pose proof (days_before_year_mono (year d2 + 1) (year d1)). lia.
Qed.

Lemma projection_year today bd p :
  projection today bd = Some p -> year today <= year p.
Proof.
  unfold projection.
  destruct (valid_date (Date (year today) (month bd) (day bd)));
    [|discriminate].
  destruct (date_lt _ today).
  - destruct (valid_date _); [|discriminate]. intros [= <-]. simpl. lia.
  - intros [= <-]. simpl. lia.
Qed.

Lemma congratulation_date_year p :
  valid_date p = true -> year p <= year (congratulation_date p).
Proof.
  intros Hv. destruct (adjust_for_weekend_Ok p Hv) as (_ & _ & Hord).
  pose proof (weekday_range p) as Hr.
  apply year_le_of_toordinal;
    [exact Hv | apply congratulation_date_valid, Hv|].
  destruct (Z.leb_spec 5 (weekday p)); lia.
Qed.

(** X14. With today in the year 1000 or later, no date that
    [get_upcoming_birthdays] puts in its list is a Saturday or a
    Sunday: each entry carries the [DD.MM.YYYY] text of a day from
    Monday to Friday, which [strptime] reads back as that day, and
    which is today or later and at most [days + 2] days away. *)
Theorem upcoming_birthdays_on_weekdays
    (self : AddressBook) (today : date) (days : Z) (l : list Entry) :
  1000 <= year today ->
  get_upcoming_birthdays self today days = Ok l ->
  forall e, e ∈ l ->
    exists c,
      entry_birthday e = date_to_string c
      /\ strptime_dmY (entry_birthday e) = Ok c
      /\ weekday c < 5
      /\ 0 <= days_between c today <= days + 2.
Proof.
  intros Hy Hl e He.
  destruct (upcoming_birthdays_outcome_aux self today days l Hl) as [Hs Heq].
  subst l. apply list_elem_of_omap in He as (record & _ & He).
  apply upcoming_entry_name in He as (_ & bd & p & _ & Hp & Hw & Ht).
  pose proof (projection_valid _ _ _ Hp) as Hv.
  pose proof (projection_year _ _ _ Hp) as Hyp.
  pose proof (congratulation_date_year p Hv) as Hyc.
  destruct (adjust_for_weekend_Ok p Hv) as (_ & Hwd & Hord).
  pose proof (weekday_range p) as Hr.
  exists (congratulation_date p). split; [exact Ht|].
  split.
  { rewrite Ht. apply strptime_strftime;
      [apply congratulation_date_valid, Hv | lia]. }
  split; [exact Hwd|]. unfold days_between in *.
  destruct (Z.leb_spec 5 (weekday p)); lia.
Qed.

Lemma upcoming_birthdays_on_weekdays_witness :
  get_upcoming_birthdays (book_of john) (Date 2024 6 10) 7
  = Ok [mkEntry (lit "John") (lit "17.06.2024")]
  /\ exists c,
       lit "17.06.2024" = date_to_string c
       /\ strptime_dmY (lit "17.06.2024") = Ok c
       /\ weekday c < 5
       /\ 0 <= days_between c (Date 2024 6 10) <= 7 + 2.
Proof.
  split; [vm_compute; reflexivity|].
  assert (Hy : 1000 <= year (Date 2024 6 10)) by (vm_compute; discriminate).
  apply (upcoming_birthdays_on_weekdays (book_of john) (Date 2024 6 10) 7
           [mkEntry (lit "John") (lit "17.06.2024")]
           Hy eq_refl (mkEntry (lit "John") (lit "17.06.2024"))).
  constructor.
Defined.

Module ShortYear.
Import Re ReLang DateText TextFacts StrptimeFacts.

Lemma dot_not_in_zero_padded w n : dot ∉ zero_padded w n.
Proof.
  revert n. induction w as [|w IH]; intros n; simpl.
  - apply not_elem_of_nil.
  - intros H. apply elem_of_app in H as [H|H]; [exact (IH _ H)|].
    apply list_elem_of_singleton in H.
    pose proof (Z.mod_pos_bound n 10 ltac:(lia)) as B.
    apply (f_equal Z.of_N) in H. rewrite Z2N.id in H by lia.
    unfold dot in H. simpl in H. lia.
Qed.

(** What [strptime] accepts has a four-character year after its
    second dot. *)
Lemma strptime_dmY_fields s dt :
  strptime_dmY s = Ok dt ->
  exists D M Y,
    s = D ++ dot :: M ++ dot :: Y
    /\ (dot ∉ D) /\ (dot ∉ M) /\ length Y = 4%nat.
Proof.
  unfold strptime_dmY.
  destruct (match_dmY s) as [[[[D M] Y] rest]|] eqn:E; [|discriminate].
  apply match_dmY_Some in E as (-> & Hd & Hm & HY).
  destruct rest; [|discriminate]. intros _.
  destruct (lang_re_d _ Hd) as (d & _ & _ & HD).
  destruct (lang_re_m _ Hm) as (m & _ & _ & HM).
  destruct (lang_re_Y _ HY) as (y & _ & _ & HL).
  exists D, M, Y. rewrite app_nil_r. auto.
Qed.

(** [strptime] does not read back the text of a date before the
    year 1000. *)
Lemma strptime_strftime_short d dt :
  year d < 1000 -> strptime_dmY (strftime_dmY d) <> Ok dt.
Proof.
  intros Hy H. apply strptime_dmY_fields in H as (D & M & Y & H & HD & HM & HL).
  change (strftime_dmY d)
    with (zero_padded 2 (day d)
            ++ dot :: zero_padded 2 (month d)
            ++ dot :: decimal_year (year d)) in H.
  apply split_at_dot in H as [_ H];
    [|apply dot_not_in_zero_padded | exact HD].
  apply split_at_dot in H as [_ H];
    [|apply dot_not_in_zero_padded | exact HM].
  apply (f_equal length) in H. rewrite HL in H. unfold decimal_year in H.
  destruct (Z.ltb_spec (year d) 10);
    [|destruct (Z.ltb_spec (year d) 100);
      [|destruct (Z.ltb_spec (year d) 1000); [|lia]]];
    rewrite length_zero_padded in H; discriminate H.
Qed.
End ShortYear.

(** X19. For a date in the year 1000 or later, printing it with
    [date_to_string] and parsing the text with [strptime] gives the
    date back; the text has 10 characters, [Birthday] accepts it, and
    no other date has the same text. For a date before the year 1000
    the text is shorter, the year being printed without padding, and
    [Birthday] rejects it. *)
Theorem date_text_round_trip (d : date) :
  valid_date d = true ->
  (1000 <= year d ->
   strptime_dmY (date_to_string d) = Ok d
   /\ length (date_to_string d) = 10%nat
   /\ Birthday_init (date_to_string d) = Ok (mkField (date_to_string d))
   /\ forall d', valid_date d' = true ->
        date_to_string d' = date_to_string d -> d' = d)
  /\ (year d < 1000 ->
      (length (date_to_string d) < 10)%nat
      /\ Birthday_init (date_to_string d)
         = Raise (Exc ValueError "Invalid date format. Use DD.MM.YYYY")).
Proof.
  intros Hv. unfold date_to_string. split.
  - intros Hy. pose proof (strptime_strftime d Hv Hy) as Hd.
    pose proof (length_strftime_dmY d Hy) as Hl.
    split; [exact Hd|]. split; [exact Hl|]. split.
    + unfold Birthday_init. rewrite Hd. reflexivity.
    + intros d' Hv' Heq.
      destruct (Z.lt_ge_cases (year d') 1000) as [Hlt|Hge].
      * pose proof (length_strftime_dmY_short d' Hlt) as Hs.
        rewrite Heq, Hl in Hs. lia.
      * pose proof (strptime_strftime d' Hv' Hge) as Hd'.
        rewrite Heq, Hd in Hd'. congruence.
  - intros Hy. split; [apply length_strftime_dmY_short; exact Hy|].
    destruct (Birthday_init_cases (strftime_dmY d)) as [(dt & H & _)|[_ H]];
      [|exact H].
    exfalso. exact (ShortYear.strptime_strftime_short d dt Hy H).
Qed.

Lemma date_text_round_trip_witness :
  strptime_dmY (date_to_string (Date 2024 2 29)) = Ok (Date 2024 2 29)
  /\ Birthday_init (date_to_string (Date 999 1 1))
     = Raise (Exc ValueError "Invalid date format. Use DD.MM.YYYY").
Proof.
  split.
  - destruct (date_text_round_trip (Date 2024 2 29)) as [H _];
      [vm_compute; reflexivity|].
    destruct H as [H _]; [vm_compute; discriminate | exact H].
  - destruct (date_text_round_trip (Date 999 1 1)) as [_ H];
      [vm_compute; reflexivity|].
    destruct H as [_ H]; [vm_compute; reflexivity | exact H].
Defined.

Local Close Scope Z_scope.

(** * The commands *)

Lemma dict_setitem_same {V} k (v : V) d :
  dict_get k d = Some v -> dict_setitem k v d = d.
Proof.
  induction d as [|[k' v'] d IH]; simpl; [discriminate|].
  case_decide as E.
  - intros [= ->]. reflexivity.
  - intros H. rewrite IH by exact H. reflexivity.
Qed.

Lemma dict_setitem_twice {V} k (v1 v2 : V) d :
  dict_setitem k v2 (dict_setitem k v1 d) = dict_setitem k v2 d.
Proof.
  induction d as [|[k' v'] d IH]; simpl.
  - case_decide; [reflexivity | congruence].
  - destruct (decide (k' = k)) as [E|E]; simpl.
    + destruct (decide (k' = k)); [reflexivity | contradiction].
    + destruct (decide (k' = k)); [contradiction|]. rewrite IH. reflexivity.
Qed.

Lemma add_contact_unfold nm phone rest book :
  Bot.add_contact (nm :: phone :: rest) book
  = let start := match find book nm with
                 | Some record => record
                 | None => Record_init nm
                 end in
    let answer := match find book nm with
                  | Some _ => lit "Contact updated."
                  | None => lit "Contact added."
                  end in
    (mkBook (dict_setitem nm (fst (add_phone phone start)) (data book)),
     match snd (add_phone phone start) with
     | Ok _ => Ok answer
     | Raise e => input_error (Raise e)
     end).
Proof.
  unfold Bot.add_contact, Bot.handled, Bot.add_contact_body, Bot.on_stored,
    Method.bind, Method.eval, Method.get, Method.ret, Bot.unpack_two_or_more.
  simpl. destruct (find book nm) as [record|] eqn:F.
  - destruct (add_phone phone record) as [r' [u|e]]; reflexivity.
  - unfold add_record, Method.bind, Method.get, Method.put. simpl.
    destruct (add_phone phone (Record_init nm)) as [r' [u|e]]; simpl;
      rewrite dict_setitem_twice; reflexivity.
Qed.

(** X20. [add_contact] with a name, a phone that [Phone] accepts and
    any further arguments, which it ignores: for a name the book does
    not have it answers "Contact added." and the book then holds under
    that name a record with that one phone and no birthday; for a name
    the book has it answers "Contact updated." and the phone is put
    after the phones of the record. The other contacts are
    untouched. *)
Theorem add_contact_spec (book : AddressBook) (nm phone : pystr)
    (rest : list pystr) :
  Phone_init phone = Ok (mkField phone) ->
  exists book',
    Bot.add_contact (nm :: phone :: rest) book
    = (book', Ok (match find book nm with
                  | Some _ => lit "Contact updated."
                  | None => lit "Contact added."
                  end))
    /\ find book' nm
       = Some (match find book nm with
               | Some record =>
                   set_phones record (phones record ++ [mkField phone])
               | None => mkRecord (mkField nm) [mkField phone] None
               end)
    /\ forall other, other <> nm -> find book' other = find book other.
Proof.
  intros Hp. rewrite add_contact_unfold. cbv zeta.
  assert (Hadd : forall r, add_phone phone r
                 = (set_phones r (phones r ++ [mkField phone]), Ok tt)).
  { intros r. unfold add_phone, Method.bind, Method.eval, Method.get,
      Method.put. rewrite Hp. reflexivity. }
  rewrite Hadd. simpl. eexists. split; [reflexivity|]. unfold find. simpl.
  split; [rewrite dict_get_setitem; destruct (dict_get nm (data book));
          reflexivity|].
  intros other Ho. apply dict_get_setitem_ne. exact Ho.
Qed.

Lemma add_contact_spec_witness :
  exists book',
    Bot.add_contact [lit "Eve"; lit "0123456789"] AddressBook_init
    = (book', Ok (lit "Contact added."))
    /\ find book' (lit "Eve")
       = Some (mkRecord (mkField (lit "Eve")) [mkField (lit "0123456789")] None).
Proof.
  destruct (add_contact_spec AddressBook_init (lit "Eve") (lit "0123456789") [])
    as (book' & H1 & H2 & _); [vm_compute; reflexivity|].
  exists book'. split; [exact H1 | exact H2].
Defined.

(** X21. [add_contact] with a phone that [Phone] rejects answers with
    the validator's message. A contact the book has is left as it
    was; but a name the book does not have is by then in the book,
    with a record without phones, so that the next [add_contact] with
    that name answers "Contact updated.". *)
Theorem add_contact_rejected_phone (book : AddressBook) (nm phone : pystr)
    (rest : list pystr) :
  (forall p, Phone_init phone <> Ok p) ->
  exists book',
    Bot.add_contact (nm :: phone :: rest) book
    = (book', Ok (lit "Phone number must contain 10 digits."))
    /\ find book' nm
       = Some (match find book nm with
               | Some record => record
               | None => Record_init nm
               end)
    /\ (forall other, other <> nm -> find book' other = find book other)
    /\ (forall record, find book nm = Some record -> book' = book)
    /\ (forall phone', Phone_init phone' = Ok (mkField phone') ->
        snd (Bot.add_contact [nm; phone'] book')
        = Ok (lit "Contact updated.")).
Proof.
  intros Hp. rewrite add_contact_unfold. cbv zeta.
  assert (Hadd : forall r, add_phone phone r
            = (r, Raise (Exc ValueError "Phone number must contain 10 digits."))).
  { intros r. unfold add_phone, Method.bind, Method.eval, Method.get,
      Method.put.
    destruct (Phone_init_cases phone) as [(_ & _ & E)|(_ & E)];
      [exfalso; exact (Hp _ E)|]. rewrite E. reflexivity. }
  rewrite Hadd. simpl. eexists. split; [reflexivity|]. unfold find. simpl.
  split; [rewrite dict_get_setitem; destruct (dict_get nm (data book));
          reflexivity|].
  split; [intros other Ho; apply dict_get_setitem_ne; exact Ho|]. split.
  - intros record Hf. rewrite Hf.
    rewrite (dict_setitem_same _ _ _ Hf). destruct book. reflexivity.
  - intros phone' Hp'. rewrite add_contact_unfold. cbv zeta. unfold find. simpl.
    rewrite dict_get_setitem.
    unfold add_phone, Method.bind, Method.eval, Method.get, Method.put.
    rewrite Hp'. reflexivity.
Qed.

Lemma add_contact_rejected_phone_witness :
  exists book',
    Bot.add_contact [lit "Eve"; lit "12345"] AddressBook_init
    = (book', Ok (lit "Phone number must contain 10 digits."))
    /\ find book' (lit "Eve") = Some (Record_init (lit "Eve")).
Proof.
  destruct (add_contact_rejected_phone AddressBook_init (lit "Eve")
              (lit "12345") []) as (book' & H1 & H2 & _).
  - intros p. vm_compute. discriminate.
  - exists book'. split; [exact H1 | exact H2].
Defined.

(** X22. [add_contact] always returns a text and lets no exception
    out; with fewer than two arguments it leaves the book as it was
    and the text is the message of the failed unpacking. *)
Theorem add_contact_answers (book : AddressBook) (args : list pystr) :
  (exists text, snd (Bot.add_contact args book) = Ok text)
  /\ ((length args < 2)%nat ->
      fst (Bot.add_contact args book) = book
      /\ exists msg,
           Bot.unpack_two_or_more args = Raise (Exc ValueError msg)
           /\ snd (Bot.add_contact args book) = Ok (lit msg)).
Proof.
  destruct args as [|nm [|phone rest]].
  - split; [eexists; reflexivity|]. intros _.
    split; [reflexivity|]. eexists. split; reflexivity.
  - split; [eexists; reflexivity|]. intros _.
    split; [reflexivity|]. eexists. split; reflexivity.
  - split; [|simpl; lia]. rewrite add_contact_unfold. cbv zeta. simpl.
    set (start := match find book nm with
                  | Some record => record
                  | None => Record_init nm
                  end).
    unfold add_phone, Method.bind, Method.eval, Method.get, Method.put.
    destruct (Phone_init_cases phone) as [(_ & _ & E)|(_ & E)]; rewrite E;
      simpl; eexists; reflexivity.
Qed.

Lemma add_contact_answers_witness :
  fst (Bot.add_contact [lit "Eve"] (book_of john)) = book_of john.
Proof.
  destruct (add_contact_answers (book_of john) [lit "Eve"]) as [_ H].
  destruct H as [H _]; [simpl; lia | exact H].
Defined.

Lemma add_birthday_handler_unfold nm text book :
  Bot.add_birthday [nm; text] book
  = match find book nm with
    | None => (book, Ok (lit "Contact not found."))
    | Some record =>
        (mkBook (dict_setitem nm (fst (add_birthday text record)) (data book)),
         match snd (add_birthday text record) with
         | Ok _ => Ok (lit "Birthday added.")
         | Raise e => input_error (Raise e)
         end)
    end.
Proof.
  unfold Bot.add_birthday, Bot.handled, Bot.add_birthday_body, Bot.on_stored,
    Method.bind, Method.eval, Method.get, Method.ret, Bot.unpack_two.
  simpl. destruct (find book nm) as [record|]; [|reflexivity].
  destruct (add_birthday text record) as [r' [u|e]]; reflexivity.
Qed.

(** X23. The command [add_birthday] with a name and a text: for a
    name the book does not have it answers "Contact not found." and
    changes nothing; for a contact of the book and a text that
    [Birthday] accepts it answers "Birthday added." and that text is
    the birthday of the contact from then on, its phones being kept;
    for a text that [Birthday] rejects it answers "Invalid date
    format. Use DD.MM.YYYY" and changes nothing. With another number
    of arguments it changes nothing either. It never lets an exception
    out. *)
Theorem add_birthday_command (book : AddressBook) (args : list pystr) :
  (exists text, snd (Bot.add_birthday args book) = Ok text)
  /\ (length args <> 2%nat -> fst (Bot.add_birthday args book) = book)
  /\ forall nm text, args = [nm; text] ->
       (find book nm = None ->
        Bot.add_birthday args book = (book, Ok (lit "Contact not found.")))
       /\ (forall record dt,
             find book nm = Some record -> strptime_dmY text = Ok dt ->
             exists book',
               Bot.add_birthday args book = (book', Ok (lit "Birthday added."))
               /\ find book' nm
                  = Some (set_birthday record (Some (mkField text)))
               /\ forall other, other <> nm ->
                    find book' other = find book other)
       /\ (forall record,
             find book nm = Some record ->
             (forall dt, strptime_dmY text <> Ok dt) ->
             Bot.add_birthday args book
             = (book, Ok (lit "Invalid date format. Use DD.MM.YYYY"))).
Proof.
  split; [|split].
  - destruct args as [|nm [|text [|x rest]]]; try (eexists; reflexivity).
    rewrite add_birthday_handler_unfold.
    destruct (find book nm) as [record|]; [|eexists; reflexivity]. simpl.
    unfold add_birthday, Method.bind, Method.eval, Method.get, Method.put.
    destruct (Birthday_init_cases text) as [(dt & _ & E)|(_ & E)]; rewrite E;
      simpl; eexists; reflexivity.
  - destruct args as [|nm [|text [|x rest]]]; try reflexivity.
    simpl. congruence.
  - intros nm text ->. rewrite add_birthday_handler_unfold.
    split; [intros ->; reflexivity|]. split.
    + intros record dt Hf Hdt. rewrite Hf.
      unfold add_birthday, Method.bind, Method.eval, Method.get, Method.put.
      destruct (Birthday_init_cases text) as [(? & _ & E)|(Hno & _)];
        [|exfalso; exact (Hno dt Hdt)].
      rewrite E. simpl. eexists. split; [reflexivity|].
      unfold find. simpl. split; [apply dict_get_setitem|].
      intros other Ho. apply dict_get_setitem_ne. exact Ho.
    + intros record Hf Hno. rewrite Hf.
      unfold add_birthday, Method.bind, Method.eval, Method.get, Method.put.
      destruct (Birthday_init_cases text) as [(dt & Hdt & _)|(_ & E)];
        [exfalso; exact (Hno dt Hdt)|].
      rewrite E. simpl.
      rewrite (dict_setitem_same _ _ _ Hf). destruct book. reflexivity.
Qed.

Lemma add_birthday_command_witness :
  exists book',
    Bot.add_birthday [lit "John"; lit "01.02.2000"] (book_of john)
    = (book', Ok (lit "Birthday added."))
    /\ find book' (lit "John")
       = Some (set_birthday john (Some (mkField (lit "01.02.2000")))).
Proof.
  destruct (add_birthday_command (book_of john)
              [lit "John"; lit "01.02.2000"]) as (_ & _ & H).
  destruct (H (lit "John") (lit "01.02.2000") eq_refl) as (_ & Hok & _).
  destruct (Hok john (Date 2000 2 1)) as (book' & H1 & H2 & _);
    [vm_compute; reflexivity..|].
  exists book'. split; [exact H1 | exact H2].
Defined.

(** X24. [show_birthday] never lets an exception out. Without
    argument it answers "Insufficient arguments provided"; for a name
    the book does not have, and for a contact without birthday, it
    answers "Birthday not found for this contact."; for a contact with
    a birthday it answers with the name it was given and the stored
    text. So after the command [add_birthday] has answered "Birthday
    added." for a name and a text, [show_birthday] with that name
    shows that text. *)
Theorem show_birthday_spec (book : AddressBook) (args : list pystr) :
  (exists text, Bot.show_birthday args book = Ok text)
  /\ (args = [] ->
      Bot.show_birthday args book
      = Ok (lit "Insufficient arguments provided"))
  /\ forall nm rest, args = nm :: rest ->
       Bot.show_birthday args book
       = Ok (match find book nm with
             | Some record =>
                 match birthday record with
                 | Some b => nm ++ lit "'s birthday is on " ++ value b
                 | None => lit "Birthday not found for this contact."
                 end
             | None => lit "Birthday not found for this contact."
             end)
       /\ forall text book',
            Bot.add_birthday [nm; text] book
            = (book', Ok (lit "Birthday added.")) ->
            Bot.show_birthday args book'
            = Ok (nm ++ lit "'s birthday is on " ++ text).
Proof.
  assert (Hshow : forall nm rest b,
    Bot.show_birthday (nm :: rest) b
    = Ok (match find b nm with
          | Some record =>
              match birthday record with
              | Some bd => nm ++ lit "'s birthday is on " ++ value bd
              | None => lit "Birthday not found for this contact."
              end
          | None => lit "Birthday not found for this contact."
          end)).
  { intros nm rest b. unfold Bot.show_birthday. simpl.
    destruct (find b nm) as [record|]; [|reflexivity].
    destruct (birthday record); reflexivity. }
  split; [|split].
  - destruct args as [|nm rest]; [eexists; reflexivity|].
    rewrite Hshow. eexists. reflexivity.
  - intros ->. reflexivity.
  - intros nm rest ->. split; [apply Hshow|].
    intros text book' Hadd. rewrite Hshow.
    rewrite add_birthday_handler_unfold in Hadd.
    destruct (find book nm) as [record|] eqn:Hf;
      [|injection Hadd as _ Hmsg; vm_compute in Hmsg; discriminate Hmsg].
    unfold add_birthday, Method.bind, Method.eval, Method.get, Method.put in Hadd.
    destruct (Birthday_init_cases text) as [(dt & _ & E)|(_ & E)];
      rewrite E in Hadd; simpl in Hadd.
    + injection Hadd as <-. unfold find. simpl. rewrite dict_get_setitem.
      reflexivity.
    + injection Hadd as _ Hmsg. vm_compute in Hmsg. discriminate Hmsg.
Qed.

Lemma show_birthday_spec_witness :
  Bot.show_birthday [lit "John"] (book_of john)
  = Ok (lit "John's birthday is on 15.06.2024").
Proof.
  destruct (show_birthday_spec (book_of john) [lit "John"]) as (_ & _ & H).
  destruct (H (lit "John") [] eq_refl) as [H1 _]. exact H1.
Defined.

Lemma entry_lines_empty (l : list Entry) :
  str_join newline (map Bot.entry_line l) = [] <-> l = [].
Proof.
  split; [|intros ->; reflexivity].
  destruct l as [|e l]; [reflexivity|]. simpl.
  assert (Hne : forall rest, Bot.entry_line e ++ rest <> []).
  { intros rest H. apply (f_equal length) in H. unfold Bot.entry_line in H.
    rewrite !length_app in H. simpl in H. lia. }
  destruct (map Bot.entry_line l).
  - intros H. exfalso. apply (Hne []). rewrite app_nil_r. exact H.
  - intros H. exfalso. exact (Hne _ H).
Qed.

(** X25. [birthdays] never lets an exception out. When
    [get_upcoming_birthdays] returns a list it answers "No upcoming
    birthdays." for the empty list, and otherwise one line
    "name: date" for each entry, in the order of the list; when
    [get_upcoming_birthdays] raises, the answer is the message of
    that error. *)
Theorem birthdays_answers (book : AddressBook) (today : date) :
  (exists text, Bot.birthdays book today = Ok text)
  /\ (forall l, get_upcoming_birthdays book today 7 = Ok l ->
      Bot.birthdays book today
      = Ok (match l with
            | [] => lit "No upcoming birthdays."
            | _ => str_join newline (map Bot.entry_line l)
            end))
  /\ (forall e, get_upcoming_birthdays book today 7 = Raise e ->
      Bot.birthdays book today = Ok (lit (exc_str e))).
Proof.
  assert (Hok : forall l, get_upcoming_birthdays book today 7 = Ok l ->
      Bot.birthdays book today
      = Ok (match l with
            | [] => lit "No upcoming birthdays."
            | _ => str_join newline (map Bot.entry_line l)
            end)).
  { intros l Hl. unfold Bot.birthdays. rewrite Hl. simpl Py.bind.
    destruct l as [|e l]; [reflexivity|].
    destruct (str_join newline (map Bot.entry_line (e :: l))) eqn:E;
      [|reflexivity].
    apply entry_lines_empty in E. discriminate E. }
  assert (Hraise : forall e, get_upcoming_birthdays book today 7 = Raise e ->
      Bot.birthdays book today = Ok (lit (exc_str e))).
  { intros e He. unfold Bot.birthdays. rewrite He. simpl.
    unfold get_upcoming_birthdays in He.
    destruct (for_each_outcome today 7 (dict_values (data book)) [])
      as [(_ & l & Hl)|(_ & e' & He' & Hty)]; rewrite He in *;
      [discriminate Hl|].
    injection He' as <-. destruct e as [c msg]. simpl in *. subst c.
    reflexivity. }
  split; [|split; assumption].
  destruct (get_upcoming_birthdays book today 7) as [l|e] eqn:E.
  - rewrite (Hok l eq_refl). eauto.
  - rewrite (Hraise e eq_refl). eauto.
Qed.

Lemma birthdays_answers_witness :
  Bot.birthdays (book_of john) (Date 2024 6 10) = Ok (lit "John: 17.06.2024").
Proof.
  destruct (birthdays_answers (book_of john) (Date 2024 6 10)) as (_ & H & _).
  apply (H [mkEntry (lit "John") (lit "17.06.2024")]). vm_compute. reflexivity.
Defined.

(** X26. [change_phone] with a name and a text stores the bare text
    under the name, whatever the text is and whether or not there is
    a contact of that name: it answers "Phone number was updated",
    [give_phone] with that name then returns the text, and a record
    held under that name is no longer there. Other names are left
    alone; with another number of arguments nothing changes. *)
Theorem change_phone_stores_text
    (contacts : dict Loose.stored) (args : list pystr) :
  (forall nm phone, args = [nm; phone] ->
     exists contacts',
       Loose.change_phone args contacts
       = (contacts', Ok (lit "Phone number was updated"))
       /\ Loose.give_phone [nm] contacts' = Ok (Loose.Stored_str phone)
       /\ (forall record,
             dict_get nm contacts' <> Some (Loose.Stored_record record))
       /\ forall other, other <> nm ->
            Loose.give_phone [other] contacts'
            = Loose.give_phone [other] contacts)
  /\ (length args <> 2%nat ->
      fst (Loose.change_phone args contacts) = contacts
      /\ exists text, snd (Loose.change_phone args contacts) = Ok text).
Proof.
  split.
  - intros nm phone ->. eexists. split; [reflexivity|].
    unfold Loose.give_phone, Loose.getitem. simpl.
    rewrite dict_get_setitem. split; [reflexivity|].
    split; [discriminate|]. intros other Ho.
    rewrite dict_get_setitem_ne by exact Ho. reflexivity.
  - destruct args as [|a [|b [|c rest]]]; simpl; try congruence;
      intros _; (split; [reflexivity | eexists; reflexivity]).
Qed.

Lemma change_phone_stores_text_witness :
  exists contacts',
    Loose.change_phone [lit "John"; lit "not a number"]
      (Loose.contacts_of (book_of john))
    = (contacts', Ok (lit "Phone number was updated"))
    /\ Loose.give_phone [lit "John"] contacts'
       = Ok (Loose.Stored_str (lit "not a number")).
Proof.
  destruct (change_phone_stores_text (Loose.contacts_of (book_of john))
              [lit "John"; lit "not a number"]) as [H _].
  destruct (H (lit "John") (lit "not a number") eq_refl)
    as (contacts' & H1 & H2 & _).
  exists contacts'. split; [exact H1 | exact H2].
Defined.

Lemma dict_get_contacts_of book nm :
  dict_get nm (Loose.contacts_of book)
  = option_map Loose.Stored_record (find book nm).
Proof.
  unfold Loose.contacts_of, find.
  induction (data book) as [|[k r] d IH]; simpl; [reflexivity|].
  case_decide; [reflexivity | exact IH].
Qed.

(** X27. [give_phone] never lets an exception out. Without argument
    it answers "Insufficient arguments provided"; for a name that is
    not a key it answers "Contact not found"; for a key it returns
    what is stored under it, which for a contact of the book is its
    record. *)
Theorem give_phone_spec (contacts : dict Loose.stored) (args : list pystr) :
  (exists v, Loose.give_phone args contacts = Ok v)
  /\ (args = [] ->
      Loose.give_phone args contacts
      = Ok (Loose.Stored_str (lit "Insufficient arguments provided")))
  /\ forall nm rest, args = nm :: rest ->
       Loose.give_phone args contacts
       = Ok (match dict_get nm contacts with
             | Some v => v
             | None => Loose.Stored_str (lit "Contact not found")
             end)
       /\ forall book record,
            contacts = Loose.contacts_of book ->
            find book nm = Some record ->
            Loose.give_phone args contacts = Ok (Loose.Stored_record record).
Proof.
  assert (H : forall nm rest c,
    Loose.give_phone (nm :: rest) c
    = Ok (match dict_get nm c with
          | Some v => v
          | None => Loose.Stored_str (lit "Contact not found")
          end)).
  { intros nm rest c. unfold Loose.give_phone, Loose.getitem. simpl.
    destruct (dict_get nm c); reflexivity. }
  split; [|split].
  - destruct args as [|nm rest]; [eexists; reflexivity|].
    rewrite H. eauto.
  - intros ->. reflexivity.
  - intros nm rest ->. split; [apply H|].
    intros book record -> Hf. rewrite H, dict_get_contacts_of, Hf. reflexivity.
Qed.

Lemma give_phone_spec_witness :
  Loose.give_phone [lit "John"] (Loose.contacts_of (book_of john))
  = Ok (Loose.Stored_record john).
Proof.
  destruct (give_phone_spec (Loose.contacts_of (book_of john)) [lit "John"])
    as (_ & _ & H).
  destruct (H (lit "John") [] eq_refl) as [_ H2].
  apply (H2 (book_of john) john); reflexivity.
Defined.

Lemma str_join_snoc sep (parts : list pystr) x :
  parts <> [] -> str_join sep (parts ++ [x]) = str_join sep parts ++ sep ++ x.
Proof.
  induction parts as [|p parts IH]; [congruence|]. intros _.
  destruct parts as [|q parts]; [reflexivity|].
  change (str_join sep ((p :: q :: parts) ++ [x]))
    with (p ++ sep ++ str_join sep ((q :: parts) ++ [x])).
  rewrite IH by discriminate.
  change (str_join sep (p :: q :: parts))
    with (p ++ sep ++ str_join sep (q :: parts)).
  rewrite <- !(assoc_L (++)). reflexivity.
Qed.

(** X28. The text of a book is the texts of its records, one per line
    in the order the book holds them: the empty book has the empty
    text, and [add_record] under a name the book does not have adds
    the text of the record as the last line. The text of a record made
    by [Record(name)] names it, with no phone and "No birthday". *)
Theorem AddressBook_str_add_record (self : AddressBook) (record : Record_) :
  AddressBook_str AddressBook_init = []
  /\ (forall nm,
        Record_str (Record_init nm)
        = lit "Contact name: " ++ nm ++ lit ", phones: , birthday: No birthday")
  /\ (value (name record) ∉ dict_keys (data self) ->
      AddressBook_str (fst (add_record record self))
      = match data self with
        | [] => Record_str record
        | _ => AddressBook_str self ++ newline ++ Record_str record
        end).
Proof.
  split; [reflexivity|]. split.
  - intros nm. reflexivity.
  - intros Hfresh. unfold AddressBook_str, dict_values. simpl.
    rewrite (dict_setitem_fresh _ _ _ Hfresh).
    rewrite fmap_app, map_app. simpl.
    destruct (data self) as [|kr d] eqn:E; [reflexivity|].
    rewrite str_join_snoc; [reflexivity|]. discriminate.
Qed.

Lemma AddressBook_str_add_record_witness :
  AddressBook_str (fst (add_record ann (book_of john)))
  = AddressBook_str (book_of john) ++ newline ++ Record_str ann.
Proof.
  destruct (AddressBook_str_add_record (book_of john) ann) as (_ & _ & H).
  apply H. intros Hin. apply elem_of_cons in Hin as [Hin|Hin];
    [discriminate | apply elem_of_nil in Hin; exact Hin].
Defined.

Module ParseFacts.
Import Parse.

Definition nonspace (c : N) : bool := negb (isspace_char c).

Lemma word_cases t :
  word t = true <-> t <> [] /\ forallb nonspace t = true.
Proof.
  unfold word. rewrite andb_true_iff, negb_true_iff, bool_decide_eq_false.
  reflexivity.
Qed.

Lemma split_from_blank w s :
  forallb isspace_char s = true ->
  split_from w s = match w with [] => [] | _ => [w] end.
Proof.
  revert w. induction s as [|c s IH]; intros w H; simpl; [reflexivity|].
  simpl in H. apply andb_prop in H as [Hc Hs]. rewrite Hc.
  rewrite (IH [] Hs). reflexivity.
Qed.

Lemma split_from_words w s :
  forallb nonspace w = true ->
  forallb word (split_from w s) = true
  /\ concat (split_from w s)
     = w ++ filter (fun c => isspace_char c = false) s.
Proof.
  unfold pystr in *.
  revert w. induction s as [|c s IH]; intros w Hw; cbn [split_from].
  - change (filter (fun c => isspace_char c = false) []) with (@nil N).
    destruct w as [|c0 w]; [split; reflexivity|].
    split; [|simpl; rewrite !app_nil_r; reflexivity].
    simpl. rewrite andb_true_r. apply word_cases.
    split; [discriminate | exact Hw].
  - destruct (isspace_char c) eqn:Ec.
    + rewrite filter_cons_False by (rewrite Ec; discriminate).
      destruct (IH [] eq_refl) as [IH1 IH2].
      destruct w as [|c0 w]; [split; [exact IH1 | exact IH2]|].
      split.
      * simpl forallb. rewrite IH1, andb_true_r. apply word_cases.
        split; [discriminate | exact Hw].
      * simpl concat. rewrite IH2. reflexivity.
    + rewrite filter_cons_True by exact Ec.
      assert (Hw' : forallb nonspace (w ++ [c]) = true).
      { rewrite forallb_app, Hw. simpl. unfold nonspace. rewrite Ec.
        reflexivity. }
      destruct (IH _ Hw') as [IH1 IH2]. split; [exact IH1|].
      rewrite IH2, <- app_assoc. reflexivity.
Qed.

Lemma filter_nonspace_nil s :
  filter (fun c => isspace_char c = false) s = [] ->
  forallb isspace_char s = true.
Proof.
  unfold pystr in *.
  induction s as [|c s IH]; [reflexivity|]. cbn [forallb].
  destruct (isspace_char c) eqn:Ec.
  - rewrite filter_cons_False by (rewrite Ec; discriminate). exact IH.
  - rewrite filter_cons_True by exact Ec. discriminate.
Qed.

Lemma str_lstrip_nonspace t : forallb nonspace t = true -> str_lstrip t = t.
Proof.
  destruct t as [|c t]; [reflexivity|]. simpl. unfold nonspace.
  destruct (isspace_char c); [discriminate | reflexivity].
Qed.

Lemma forallb_reverse {A} (f : A -> bool) l :
  forallb f (reverse l) = forallb f l.
Proof.
  induction l as [|x l IH]; [reflexivity|].
  rewrite reverse_cons, forallb_app, IH. simpl.
  rewrite andb_true_r. apply andb_comm.
Qed.

Lemma str_strip_word t : forallb nonspace t = true -> str_strip t = t.
Proof.
  intros H. unfold str_strip, str_rstrip.
  rewrite (str_lstrip_nonspace t H).
  rewrite str_lstrip_nonspace by (rewrite forallb_reverse; exact H).
  apply reverse_involutive.
Qed.

Lemma split_from_word_app w t rest :
  forallb nonspace t = true ->
  split_from w (t ++ rest) = split_from (w ++ t) rest.
Proof.
  revert w. induction t as [|c t IH]; intros w H; simpl.
  - rewrite app_nil_r. reflexivity.
  - simpl in H. apply andb_prop in H as [Hc Ht]. unfold nonspace in Hc.
    destruct (isspace_char c); [discriminate|].
    rewrite (IH _ Ht), <- app_assoc. reflexivity.
Qed.

Lemma str_split_join ts :
  forallb word ts = true -> str_split (str_join (lit " ") ts) = ts.
Proof.
  unfold str_split. induction ts as [|t ts IH]; [reflexivity|].
  intros H. simpl in H. apply andb_prop in H as [Ht Hts].
  apply word_cases in Ht as [Hne Ht].
  destruct ts as [|t2 ts].
  - simpl. rewrite <- (app_nil_r t) at 1.
    rewrite (split_from_word_app _ _ _ Ht). simpl.
    destruct t; [contradiction | reflexivity].
  - change (str_join (lit " ") (t :: t2 :: ts))
      with (t ++ 32%N :: str_join (lit " ") (t2 :: ts)).
    rewrite (split_from_word_app _ _ _ Ht).
    change ([] ++ t) with t.
    change (split_from t (32%N :: str_join (lit " ") (t2 :: ts)))
      with (match t with
            | [] => split_from [] (str_join (lit " ") (t2 :: ts))
            | _ => t :: split_from [] (str_join (lit " ") (t2 :: ts))
            end).
    rewrite (IH Hts). destruct t; [contradiction | reflexivity].
Qed.
End ParseFacts.

(** X29. [parse_input] raises [ValueError] on an input that is
    empty or all white space, outside any handler. On any other input
    it returns the lower-cased first word and the list of the other
    words: the words are not empty and hold no white space (so
    [strip] changes nothing), and put together they are the input
    without its white space. Words joined by single blanks are read
    back as they were. *)
Theorem parse_input_spec (lower : pystr -> pystr) (user_input : pystr) :
  (forallb Parse.isspace_char user_input = true ->
   Parse.parse_input lower user_input
   = Raise (Exc ValueError
              "not enough values to unpack (expected at least 1, got 0)"))
  /\ (forallb Parse.isspace_char user_input = false ->
      exists cmd args,
        Parse.parse_input lower user_input = Ok (lower cmd, args)
        /\ Parse.str_split user_input = cmd :: args
        /\ forallb Parse.word (cmd :: args) = true
        /\ concat (cmd :: args)
           = filter (fun c => Parse.isspace_char c = false) user_input)
  /\ (forall cmd args,
        forallb Parse.word (cmd :: args) = true ->
        Parse.parse_input lower (str_join (lit " ") (cmd :: args))
        = Ok (lower cmd, args)).
Proof.
  unfold Parse.parse_input. split; [|split].
  - intros H. unfold Parse.str_split.
    rewrite (ParseFacts.split_from_blank _ _ H). reflexivity.
  - intros H.
    destruct (ParseFacts.split_from_words [] user_input eq_refl) as [Hw Hc].
    fold (Parse.str_split user_input) in Hw, Hc.
    destruct (Parse.str_split user_input) as [|cmd args] eqn:E.
    + simpl in Hc. symmetry in Hc.
      apply ParseFacts.filter_nonspace_nil in Hc. congruence.
    + exists cmd, args. split; [|split; [reflexivity|split; assumption]].
      simpl in Hw. apply andb_prop in Hw as [Hcmd _].
      apply ParseFacts.word_cases in Hcmd as [_ Hcmd].
      rewrite (ParseFacts.str_strip_word _ Hcmd). reflexivity.
  - intros cmd args H. rewrite (ParseFacts.str_split_join _ H).
    simpl in H. apply andb_prop in H as [Hcmd _].
    apply ParseFacts.word_cases in Hcmd as [_ Hcmd].
    rewrite (ParseFacts.str_strip_word _ Hcmd). reflexivity.
Qed.

Lemma parse_input_spec_witness :
  Parse.parse_input (fun s => s) (lit "   ")
  = Raise (Exc ValueError
             "not enough values to unpack (expected at least 1, got 0)")
  /\ (exists cmd args,
        Parse.parse_input (fun s => s) (lit " add  John 1234567890 ")
        = Ok (cmd, args)
        /\ Parse.str_split (lit " add  John 1234567890 ") = cmd :: args
        /\ forallb Parse.word (cmd :: args) = true
        /\ concat (cmd :: args) = lit "addJohn1234567890")
  /\ Parse.parse_input (fun s => s) (lit "add John 1234567890")
     = Ok (lit "add", [lit "John"; lit "1234567890"]).
Proof.
  split; [|split].
  - apply (proj1 (parse_input_spec (fun s => s) (lit "   "))).
    vm_compute. reflexivity.
  - apply (proj1 (proj2 (parse_input_spec (fun s => s)
                           (lit " add  John 1234567890 ")))).
    vm_compute. reflexivity.
  - apply (proj2 (proj2 (parse_input_spec (fun s => s) []))
             (lit "add") [lit "John"; lit "1234567890"]).
    vm_compute. reflexivity.
Defined.

Module MixedFacts.
Import Loose.

Lemma contacts_of_setitem nm record book :
  contacts_of (mkBook (dict_setitem nm record (data book)))
  = dict_setitem nm (Stored_record record) (contacts_of book).
Proof.
  unfold contacts_of. simpl.
  induction (data book) as [|[k r] d IH]; simpl; [reflexivity|].
  case_decide; simpl; [reflexivity | rewrite IH; reflexivity].
Qed.

Lemma dict_values_contacts_of book :
  dict_values (contacts_of book)
  = map Stored_record (dict_values (data book)).
Proof.
  unfold contacts_of, dict_values.
  induction (data book) as [|[k r] d IH]; csimpl; [reflexivity|].
  rewrite IH. reflexivity.
Qed.

(** On a book that holds records only, the commands do what they do
    in [Bot]. *)
Lemma upcoming_loop_records today days records acc :
  Mixed.upcoming_loop today days (map Stored_record records) acc
  = Mixed.Done (for_each (upcoming_step today days) records acc).
Proof.
  revert acc. induction records as [|r records IH]; intros acc; simpl;
    [reflexivity|].
  destruct (upcoming_step today days acc r) as [acc'|e]; simpl;
    [apply IH | reflexivity].
Qed.

Lemma get_upcoming_birthdays_records book today days :
  Mixed.get_upcoming_birthdays (contacts_of book) today days
  = Mixed.Done (get_upcoming_birthdays book today days).
Proof.
  unfold Mixed.get_upcoming_birthdays, get_upcoming_birthdays.
  rewrite dict_values_contacts_of. apply upcoming_loop_records.
Qed.

Lemma birthdays_records book today :
  Mixed.birthdays (contacts_of book) today = Mixed.Done (Bot.birthdays book today).
Proof.
  unfold Mixed.birthdays. rewrite get_upcoming_birthdays_records.
  reflexivity.
Qed.

Lemma show_birthday_records args book :
  Mixed.show_birthday args (contacts_of book)
  = Mixed.Done (Bot.show_birthday args book).
Proof.
  unfold Mixed.show_birthday, Bot.show_birthday.
  destruct (Bot.first_arg args) as [nm|e]; simpl; [|reflexivity].
  rewrite dict_get_contacts_of.
  destruct (find book nm) as [record|]; simpl; [|reflexivity].
  destruct (birthday record); reflexivity.
Qed.

Lemma add_contact_records args book :
  Mixed.add_contact args (contacts_of book)
  = (contacts_of (fst (Bot.add_contact args book)),
     Mixed.Done (snd (Bot.add_contact args book))).
Proof.
  unfold Mixed.add_contact.
  destruct args as [|nm [|phone rest]]; [reflexivity..|].
  rewrite add_contact_unfold. cbn [Bot.unpack_two_or_more fst snd].
  rewrite dict_get_contacts_of.
  destruct (find book nm) as [record|]; cbn [option_map].
  - rewrite contacts_of_setitem.
    destruct (add_phone phone record) as [r' [u|e]]; reflexivity.
  - rewrite contacts_of_setitem.
    destruct (add_phone phone (Record_init nm)) as [r' [u|e]];
      cbn [fst snd]; rewrite dict_setitem_twice; reflexivity.
Qed.

Lemma add_birthday_records args book :
  Mixed.add_birthday args (contacts_of book)
  = (contacts_of (fst (Bot.add_birthday args book)),
     Mixed.Done (snd (Bot.add_birthday args book))).
Proof.
  unfold Mixed.add_birthday.
  destruct args as [|nm [|text [|x rest]]]; [reflexivity..| |reflexivity].
  rewrite add_birthday_handler_unfold. cbn [Bot.unpack_two].
  rewrite dict_get_contacts_of.
  destruct (find book nm) as [record|]; cbn [option_map fst snd];
    [|destruct book; reflexivity].
  rewrite contacts_of_setitem.
  destruct (add_birthday text record) as [r' [u|e]]; reflexivity.
Qed.

(** The loop on a book that holds a text. *)
Lemma upcoming_loop_text today days values acc text :
  Stored_str text ∈ values ->
  forall l, Mixed.upcoming_loop today days values acc <> Mixed.Done (Ok l).
Proof.
  revert acc. induction values as [|v values IH]; intros acc H l.
  - apply elem_of_nil in H. contradiction.
  - destruct v as [record|t]; simpl; [|discriminate].
    apply elem_of_cons in H as [H|H]; [discriminate|].
    destruct (upcoming_step today days acc record) as [acc'|e];
      [apply IH; exact H | discriminate].
Qed.

Lemma upcoming_loop_text_schedulable today days values acc text :
  Stored_str text ∈ values ->
  (forall record,
     Stored_record record ∈ values -> schedulable today record = true) ->
  Mixed.upcoming_loop today days values acc
  = Mixed.AttributeError "'str' object has no attribute 'birthday'".
Proof.
  revert acc. induction values as [|v values IH]; intros acc H Hs.
  - apply elem_of_nil in H. contradiction.
  - destruct v as [record|t]; simpl; [|reflexivity].
    apply elem_of_cons in H as [H|H]; [discriminate|].
    rewrite (upcoming_step_schedulable today days acc record)
      by (apply Hs; left).
    apply IH; [exact H|]. intros r Hr. apply Hs. right. exact Hr.
Qed.

Lemma dict_values_setitem {V} k (v : V) d :
  v ∈ dict_values (dict_setitem k v d)
  /\ forall v', v' ∈ dict_values (dict_setitem k v d) ->
                v' = v \/ v' ∈ dict_values d.
Proof.
  unfold dict_values. induction d as [|[k0 v0] d [IH1 IH2]]; csimpl.
  - split; [left|]. intros v' Hv. apply list_elem_of_singleton in Hv. auto.
  - case_decide; csimpl.
    + split; [left|]. intros v' Hv.
      apply elem_of_cons in Hv as [Hv|Hv]; [auto|]. right. right. exact Hv.
    + split; [right; exact IH1|]. intros v' Hv.
      apply elem_of_cons in Hv as [->|Hv]; [right; left|].
      destruct (IH2 v' Hv) as [E|E]; [auto|]. right. right. exact E.
Qed.
End MixedFacts.

(** X30. [change_phone] leaves a bare text in the book under the
    name, and the other commands do not expect one: from then on
    [add_contact] and [add_birthday] with that name, [show_birthday]
    with that name when the text is not empty, end with an
    [AttributeError], which [input_error] does not catch, and leave
    the book as it is; [get_upcoming_birthdays] never returns a list
    again; and [birthdays] ends with an [AttributeError] whenever the
    records of the book all have a projection. *)
Theorem change_phone_breaks_commands
    (contacts : dict Loose.stored) (nm phone : pystr) (today : date) :
  let contacts' := fst (Loose.change_phone [nm; phone] contacts) in
  (forall p rest,
     Mixed.add_contact (nm :: p :: rest) contacts'
     = (contacts',
        Mixed.AttributeError "'str' object has no attribute 'add_phone'"))
  /\ (forall text,
        Mixed.add_birthday [nm; text] contacts'
        = (contacts',
           Mixed.AttributeError
             "'str' object has no attribute 'add_birthday'"))
  /\ (forall rest,
        Mixed.show_birthday (nm :: rest) contacts'
        = match phone with
          | [] => Mixed.Done (Ok (lit "Birthday not found for this contact."))
          | _ =>
              Mixed.AttributeError "'str' object has no attribute 'birthday'"
          end)
  /\ (forall days l,
        Mixed.get_upcoming_birthdays contacts' today days
        <> Mixed.Done (Ok l))
  /\ ((forall record,
         Loose.Stored_record record ∈ dict_values contacts ->
         schedulable today record = true) ->
      Mixed.birthdays contacts' today
      = Mixed.AttributeError "'str' object has no attribute 'birthday'").
Proof.
  change (fst (Loose.change_phone [nm; phone] contacts))
    with (dict_setitem nm (Loose.Stored_str phone) contacts).
  intros contacts'.
  assert (Hget : dict_get nm contacts' = Some (Loose.Stored_str phone))
    by apply dict_get_setitem.
  destruct (MixedFacts.dict_values_setitem nm (Loose.Stored_str phone)
              contacts) as [Hin Hold].
  fold contacts' in Hin, Hold.
  split; [|split; [|split; [|split]]].
  - intros p rest. unfold Mixed.add_contact. simpl. rewrite Hget.
    reflexivity.
  - intros text. unfold Mixed.add_birthday. simpl. rewrite Hget.
    reflexivity.
  - intros rest. unfold Mixed.show_birthday. simpl. rewrite Hget.
    destruct phone; reflexivity.
  - intros days l. unfold Mixed.get_upcoming_birthdays.
    apply (MixedFacts.upcoming_loop_text _ _ _ _ phone Hin).
  - intros Hs. unfold Mixed.birthdays, Mixed.get_upcoming_birthdays.
    rewrite (MixedFacts.upcoming_loop_text_schedulable _ _ _ _ phone Hin);
      [reflexivity|].
    intros record Hr. apply Hs.
    destruct (Hold _ Hr) as [E|E]; [discriminate | exact E].
Qed.

Lemma change_phone_breaks_commands_witness :
  Mixed.birthdays
    (fst (Loose.change_phone [lit "John"; lit "1234567890"]
            (Loose.contacts_of (book_of john))))
    (Date 2024 6 10)
  = Mixed.AttributeError "'str' object has no attribute 'birthday'"
  /\ Mixed.birthdays (Loose.contacts_of (book_of john)) (Date 2024 6 10)
     = Mixed.Done (Ok (lit "John: 17.06.2024")).
Proof.
  split; [|vm_compute; reflexivity].
  apply (change_phone_breaks_commands (Loose.contacts_of (book_of john))
           (lit "John") (lit "1234567890") (Date 2024 6 10)).
  intros record H. apply list_elem_of_singleton in H.
  injection H as ->. vm_compute. reflexivity.
Defined.
